(** * Member directory service: validation rules and CRUD operations

    A shallow embedding of [app/validation.py], [app/exceptions.py],
    [app/models.py] and [app/crud.py], of the endpoints of [app/main.py]
    and of the seeding script [scripts/initial_data.py], followed by the
    properties of the service that are stated in the specification and by
    further properties of the code.

    Strings.  A Python [str] is modelled by [string]; a character is a code
    point below 256 (the Latin-1 range), on which [str.strip], [str.lower],
    [str.isdigit] and the pattern class [\s] are defined exactly as CPython
    computes them.  A pattern is a regular expression matched by
    derivatives.

    Exceptions.  A Python function that can raise returns a [result]; a
    [try] statement is [try_except], whose handler receives the exception.

    Store.  The SQLAlchemy session is modelled by a record holding the
    committed rows of the [members] table, the unit of work of the open
    transaction, the log of the calls made so far, and an oracle saying which
    call raises which exception after which history.  The oracle stands for
    everything that the code does not control: a lost connection, or a
    concurrent writer whose row makes the commit fail after the pre-check
    passed.  Every call on the session goes through the oracle,
    [Session.rollback] included.  Apart from the oracle, a commit enforces
    the unique indexes on [email] and [phone] itself, and the errors it
    raises carry the text that SQLAlchemy gives them: the message of SQLite,
    the statement and its parameters. *)

From Stdlib Require Import Bool List ZArith NArith Lia Ascii String.
From Stdlib Require Import Numbers.DecimalString.
Import ListNotations.

Local Open Scope string_scope.
Local Open Scope bool_scope.

(* ================================================================== *)
(** * Python strings *)
(* ================================================================== *)

Module PyStr.

Definition code (c : ascii) : N := N_of_ascii c.

Definition between (lo hi : N) (c : ascii) : bool :=
  ((lo <=? code c) && (code c <=? hi))%N.

(** [Py_UNICODE_ISSPACE] below 256: TAB..CR, FS..US, space, NEL, NBSP.  Used
    by [str.strip()] and by [\s] in a [str] pattern. *)
Definition isspace (c : ascii) : bool :=
  between 9 13 c || between 28 32 c || (code c =? 133)%N || (code c =? 160)%N.

(** One character of [str.isdigit()]: the decimal digits and the superscript
    digits U+00B2, U+00B3, U+00B9. *)
Definition isdigit_char (c : ascii) : bool :=
  between 48 57 c || (code c =? 178)%N || (code c =? 179)%N || (code c =? 185)%N.

Definition is_ascii_upper (c : ascii) : bool := between 65 90 c.
Definition is_ascii_lower (c : ascii) : bool := between 97 122 c.
Definition is_ascii_alpha (c : ascii) : bool := is_ascii_upper c || is_ascii_lower c.
Definition is_ascii_digit (c : ascii) : bool := between 48 57 c.

(** Upper-case characters below 256: A..Z and U+00C0..U+00DE except the
    multiplication sign U+00D7. *)
Definition is_upper (c : ascii) : bool :=
  between 65 90 c || (between 192 222 c && negb (code c =? 215)%N).

Definition lower_char (c : ascii) : ascii :=
  if is_upper c then ascii_of_N (code c + 32) else c.

Fixpoint lower (s : string) : string :=
  match s with
  | EmptyString => EmptyString
  | String c t => String (lower_char c) (lower t)
  end.

Fixpoint lstrip (s : string) : string :=
  match s with
  | EmptyString => EmptyString
  | String c t => if isspace c then lstrip t else s
  end.

Fixpoint rstrip (s : string) : string :=
  match s with
  | EmptyString => EmptyString
  | String c t =>
      match rstrip t with
      | EmptyString => if isspace c then EmptyString else String c EmptyString
      | r => String c r
      end
  end.

Definition strip (s : string) : string := rstrip (lstrip s).

Fixpoint forallb (p : ascii -> bool) (s : string) : bool :=
  match s with
  | EmptyString => true
  | String c t => p c && forallb p t
  end.

Fixpoint filter (p : ascii -> bool) (s : string) : string :=
  match s with
  | EmptyString => EmptyString
  | String c t => if p c then String c (filter p t) else filter p t
  end.

(** Truth value of a [str]: the empty string is false. *)
Definition truthy (s : string) : bool :=
  match s with EmptyString => false | _ => true end.

(** [len(s)] as a Python integer. *)
Definition len (s : string) : Z := Z.of_nat (String.length s).

(** [s.isdigit()]: non-empty and every character a digit. *)
Definition isdigit (s : string) : bool := truthy s && forallb isdigit_char s.

Definition startswith (p s : string) : bool := String.prefix p s.

Fixpoint endswith (p s : string) : bool :=
  (s =? p) ||
  match s with
  | EmptyString => false
  | String _ t => endswith p t
  end.

(** [needle in hay]. *)
Fixpoint contains (needle hay : string) : bool :=
  String.prefix needle hay ||
  match hay with
  | EmptyString => false
  | String _ t => contains needle t
  end.

(** [str(n)] of an integer. *)
Definition of_Z (z : Z) : string := NilZero.string_of_int (Z.to_int z).

(** [Py_UNICODE_ISPRINTABLE] below 256: not the control characters, nor
    NBSP, nor the soft hyphen. *)
Definition isprintable_char (c : ascii) : bool :=
  between 32 126 c || (between 161 255 c && negb (code c =? 173)%N).

Definition backslash : ascii := ascii_of_nat 92.
Definition single_quote : ascii := ascii_of_nat 39.
Definition double_quote : ascii := ascii_of_nat 34.

Definition hexdigit (n : N) : ascii :=
  ascii_of_N (if (n <? 10)%N then 48 + n else 87 + n).

(** One character of [repr(s)], for the quote that [repr] chose. *)
Definition repr_char (quote c : ascii) : string :=
  if Ascii.eqb c quote || Ascii.eqb c backslash then
    String backslash (String c EmptyString)
  else if (code c =? 9)%N then String backslash "t"
  else if (code c =? 10)%N then String backslash "n"
  else if (code c =? 13)%N then String backslash "r"
  else if isprintable_char c then String c EmptyString
  else
    String backslash
      (String "x"
         (String (hexdigit (code c / 16))
            (String (hexdigit (code c mod 16)) EmptyString))).

Fixpoint flat_map (f : ascii -> string) (s : string) : string :=
  match s with
  | EmptyString => EmptyString
  | String c t => f c ++ flat_map f t
  end.

(** [repr(s)]: in single quotes, or in double quotes when the string holds
    a single quote and no double quote. *)
Definition repr (s : string) : string :=
  let quote :=
    if contains (String single_quote EmptyString) s
       && negb (contains (String double_quote EmptyString) s)
    then double_quote else single_quote in
  String quote (flat_map (repr_char quote) s ++ String quote EmptyString).

(** [sep.join(parts)] *)
Fixpoint join (sep : string) (parts : list string) : string :=
  match parts with
  | [] => EmptyString
  | [p] => p
  | p :: rest => p ++ sep ++ join sep rest
  end.

End PyStr.

(* ================================================================== *)
(** * Regular expressions ([re.match] with an anchored pattern) *)
(* ================================================================== *)

Module Re.

Inductive regex : Type :=
| Null : regex
| Eps : regex
| Class (p : ascii -> bool) : regex
| Cat (r1 r2 : regex) : regex
| Alt (r1 r2 : regex) : regex
| Star (r : regex) : regex.

(** [r+] and [r{2,}]. *)
Definition Plus (r : regex) : regex := Cat r (Star r).
Definition AtLeast2 (r : regex) : regex := Cat r (Cat r (Star r)).

Fixpoint nullable (r : regex) : bool :=
  match r with
  | Null => false
  | Eps => true
  | Class _ => false
  | Cat r1 r2 => nullable r1 && nullable r2
  | Alt r1 r2 => nullable r1 || nullable r2
  | Star _ => true
  end.

Fixpoint deriv (c : ascii) (r : regex) : regex :=
  match r with
  | Null => Null
  | Eps => Null
  | Class p => if p c then Eps else Null
  | Cat r1 r2 =>
      if nullable r1
      then Alt (Cat (deriv c r1) r2) (deriv c r2)
      else Cat (deriv c r1) r2
  | Alt r1 r2 => Alt (deriv c r1) (deriv c r2)
  | Star r1 => Cat (deriv c r1) (Star r1)
  end.

(** The whole of [s] is a word of [r]. *)
Fixpoint fullmatch (r : regex) (s : string) : bool :=
  match s with
  | EmptyString => nullable r
  | String c t => fullmatch (deriv c r) t
  end.

Fixpoint ends_with_newline (s : string) : option string :=
  match s with
  | EmptyString => None
  | String c t =>
      match t with
      | EmptyString => if (PyStr.code c =? 10)%N then Some EmptyString else None
      | _ => option_map (String c) (ends_with_newline t)
      end
  end.

(** [re.match("^" r "$", s)] is not [None]: without [re.MULTILINE] the
    anchor [$] holds at the end of the string and just before a newline that
    ends the string. *)
Definition match_anchored (r : regex) (s : string) : bool :=
  fullmatch r s ||
  match ends_with_newline s with
  | Some t => fullmatch r t
  | None => false
  end.

End Re.

(* ================================================================== *)
(** * Exceptions ([app/exceptions.py] and the store's own) *)
(* ================================================================== *)

(** A value that reaches a validator: the validators test [isinstance(_, str)]
    and so are defined on non-strings too. *)
Inductive pyobj : Type :=
| PyNone : pyobj
| PyStr (s : string) : pyobj
| PyInt (z : Z) : pyobj.

(** [str(v)]. *)
Definition py_str (v : pyobj) : string :=
  match v with
  | PyNone => "None"
  | PyStr s => s
  | PyInt z => PyStr.of_Z z
  end.

(** Truth value of [v]. *)
Definition py_truthy (v : pyobj) : bool :=
  match v with
  | PyNone => false
  | PyStr s => PyStr.truthy s
  | PyInt z => negb (z =? 0)%Z
  end.

(** An optional string as a Python value. *)
Definition of_option (o : option string) : pyobj :=
  match o with Some s => PyStr s | None => PyNone end.

(** The four kinds of [MemberAPIException], and the exceptions that the
    store raises: SQLAlchemy's [IntegrityError] and any other [Exception].
    The [value] of a [MemberAlreadyExistsError] is a [pyobj] because
    [update_member] can pass [None] there. *)
Inductive exn : Type :=
| InvalidMemberDataError (field value reason : string)
| MemberAlreadyExistsError (field : string) (value : pyobj)
| MemberNotFoundError (identifier value : string)
| DatabaseOperationError (operation details : string)
| IntegrityError (msg : string)
| OtherException (msg : string).

(** [str(e)] for the store's exceptions (the only ones it is applied to). *)
Definition exn_str (e : exn) : string :=
  match e with
  | InvalidMemberDataError f _ r => "Invalid " ++ f ++ ": " ++ r
  | MemberAlreadyExistsError f v => "Member with " ++ f ++ " '" ++ py_str v ++ "' already exists"
  | MemberNotFoundError i v => "Member with " ++ i ++ " '" ++ v ++ "' not found"
  | DatabaseOperationError op _ => "Database operation failed: " ++ op
  | IntegrityError m => m
  | OtherException m => m
  end.

Inductive result (A : Type) : Type :=
| Ok (a : A) : result A
| Raise (e : exn) : result A.
Arguments Ok {A} a.
Arguments Raise {A} e.

(* ================================================================== *)
(** * Validation ([app/validation.py]) *)
(* ================================================================== *)

(** [[a-zA-Z0-9\s\-'\.]] *)
Definition name_class (c : ascii) : bool :=
  PyStr.is_ascii_lower c || PyStr.is_ascii_upper c || PyStr.is_ascii_digit c
  || PyStr.isspace c || Ascii.eqb c "-" || Ascii.eqb c "'" || Ascii.eqb c ".".

(** [^[a-zA-Z0-9\s\-'\.]+$] *)
Definition name_pattern : Re.regex := Re.Plus (Re.Class name_class).

Definition validate_name (name : pyobj) : result string :=
  match name with
  | PyStr s =>
      if negb (PyStr.truthy s) then
        Raise (InvalidMemberDataError "name" (py_str name) "Name is required")
      else
        let normalized_name := PyStr.strip s in
        if negb (PyStr.truthy normalized_name) then
          Raise (InvalidMemberDataError "name" s "Name cannot be empty or only whitespace")
        else if (PyStr.len normalized_name <? 2)%Z then
          Raise (InvalidMemberDataError "name" s "Name must be at least 2 characters long")
        else if (PyStr.len normalized_name >? 100)%Z then
          Raise (InvalidMemberDataError "name" s "Name cannot exceed 100 characters")
        else if negb (Re.match_anchored name_pattern normalized_name) then
          Raise (InvalidMemberDataError "name" s "Name contains invalid characters")
        else Ok normalized_name
  | _ => Raise (InvalidMemberDataError "name" (py_str name) "Name is required")
  end.

(** [[a-zA-Z0-9._%+-]] *)
Definition email_local_class (c : ascii) : bool :=
  PyStr.is_ascii_lower c || PyStr.is_ascii_upper c || PyStr.is_ascii_digit c
  || Ascii.eqb c "." || Ascii.eqb c "_" || Ascii.eqb c "%" || Ascii.eqb c "+"
  || Ascii.eqb c "-".

(** [[a-zA-Z0-9.-]] *)
Definition email_domain_class (c : ascii) : bool :=
  PyStr.is_ascii_lower c || PyStr.is_ascii_upper c || PyStr.is_ascii_digit c
  || Ascii.eqb c "." || Ascii.eqb c "-".

(** [^[a-zA-Z0-9._%+-]+@[a-zA-Z0-9.-]+\.[a-zA-Z]{2,}$] *)
Definition email_pattern : Re.regex :=
  Re.Cat (Re.Plus (Re.Class email_local_class))
   (Re.Cat (Re.Class (Ascii.eqb "@"))
     (Re.Cat (Re.Plus (Re.Class email_domain_class))
       (Re.Cat (Re.Class (Ascii.eqb "."))
         (Re.AtLeast2 (Re.Class PyStr.is_ascii_alpha))))).

Definition validate_email (email : pyobj) : result string :=
  match email with
  | PyStr s =>
      if negb (PyStr.truthy s) then
        Raise (InvalidMemberDataError "email" (py_str email) "Email is required")
      else
        let normalized_email := PyStr.lower (PyStr.strip s) in
        if negb (PyStr.truthy normalized_email) then
          Raise (InvalidMemberDataError "email" s "Email cannot be empty")
        else if (PyStr.len normalized_email >? 254)%Z then
          Raise (InvalidMemberDataError "email" s "Email address is too long")
        else if negb (Re.match_anchored email_pattern normalized_email) then
          Raise (InvalidMemberDataError "email" s "Invalid email format")
        else if PyStr.contains ".." normalized_email then
          Raise (InvalidMemberDataError "email" s "Email cannot contain consecutive dots")
        else if PyStr.startswith "." normalized_email
                || PyStr.endswith "." normalized_email then
          Raise (InvalidMemberDataError "email" s "Email cannot start or end with a dot")
        else Ok normalized_email
  | _ => Raise (InvalidMemberDataError "email" (py_str email) "Email is required")
  end.

(** [[\s\-\(\)\+\.]] *)
Definition phone_format_class (c : ascii) : bool :=
  PyStr.isspace c || Ascii.eqb c "-" || Ascii.eqb c "(" || Ascii.eqb c ")"
  || Ascii.eqb c "+" || Ascii.eqb c ".".

(** [re.sub(r'[\s\-\(\)\+\.]', '', s)] *)
Definition clean_phone_of (s : string) : string :=
  PyStr.filter (fun c => negb (phone_format_class c)) s.

Definition validate_phone (phone : pyobj) : result (option string) :=
  match phone with
  | PyNone => Ok None
  | PyStr s =>
      let normalized_phone := PyStr.strip s in
      if negb (PyStr.truthy normalized_phone) then Ok None
      else if (PyStr.len normalized_phone >? 20)%Z then
        Raise (InvalidMemberDataError "phone" s "Phone number is too long")
      else
        let clean_phone := clean_phone_of normalized_phone in
        if negb (PyStr.isdigit clean_phone) then
          Raise (InvalidMemberDataError "phone" s "Phone number contains invalid characters")
        else if (PyStr.len clean_phone <? 8)%Z then
          Raise (InvalidMemberDataError "phone" s "Phone number is too short")
        else if (PyStr.len clean_phone >? 15)%Z then
          Raise (InvalidMemberDataError "phone" s "Phone number is too long")
        else Ok (Some normalized_phone)
  | _ => Raise (InvalidMemberDataError "phone" (py_str phone) "Phone must be a string")
  end.

Definition validate_member_data (name email phone : pyobj)
  : result (string * string * option string) :=
  match validate_name name with
  | Raise e => Raise e
  | Ok validated_name =>
      match validate_email email with
      | Raise e => Raise e
      | Ok validated_email =>
          match validate_phone phone with
          | Raise e => Raise e
          | Ok validated_phone =>
              Ok (validated_name, validated_email, validated_phone)
          end
      end
  end.

(* ================================================================== *)
(** * Data model ([app/models.py]) *)
(* ================================================================== *)

Module Member.

(** A row of the [members] table; [id] is absent until the row is
    persisted. *)
Record t : Type := make
  { id : option Z; name : string; email : string; phone : option string }.

Definition set_id (k : option Z) (m : t) : t :=
  make k (name m) (email m) (phone m).

Definition set_name (v : string) (m : t) : t :=
  make (id m) v (email m) (phone m).
Definition set_email (v : string) (m : t) : t :=
  make (id m) (name m) v (phone m).
Definition set_phone (v : option string) (m : t) : t :=
  make (id m) (name m) (email m) v.

Definition has_id (i : Z) (m : t) : bool :=
  match id m with Some j => (j =? i)%Z | None => false end.
Definition has_email (e : string) (m : t) : bool := (email m =? e)%string.
Definition has_phone (p : string) (m : t) : bool :=
  match phone m with Some q => (q =? p)%string | None => false end.

End Member.

Module MemberCreate.

Record t : Type := make
  { name : string; email : string; phone : option string }.

End MemberCreate.

Module MemberUpdate.

(** Every field is optional; [None] means "not supplied". *)
Record t : Type := make
  { name : option string; email : option string; phone : option string }.

End MemberUpdate.

(* ================================================================== *)
(** * The store: a SQLAlchemy session over the [members] table *)
(* ================================================================== *)

(** The calls that [crud.py] makes on its session. *)
Inductive call : Type :=
| CallExecByEmail (e : string)
| CallExecByPhone (p : string)
| CallExecAll (skip limit : Z)
| CallGet (member_id : Z)
| CallAdd (m : Member.t)
| CallDelete (m : Member.t)
| CallCommit
| CallRefresh (m : Member.t)
| CallRollback.

(** A change recorded in the unit of work, written at the next commit. *)
Inductive change : Type :=
| Insert (m : Member.t)
| Update (member_id : Z) (m : Member.t)
| Delete (member_id : Z).

Record Session : Type := mkSession
  { rows : list Member.t;      (** committed rows, in rowid order *)
    pending : list change;     (** unit of work of the open transaction *)
    log : list call;           (** calls made so far, oldest first *)
    raises : list call -> call -> option exn
                               (** the exception, if any, that the store
                                   raises on a call made after a history *)
  }.

Definition with_rows (r : list Member.t) (s : Session) : Session :=
  mkSession r (pending s) (log s) (raises s).

Definition with_pending (p : list change) (s : Session) : Session :=
  mkSession (rows s) p (log s) (raises s).

Definition logged (c : call) (s : Session) : Session :=
  mkSession (rows s) (pending s) (log s ++ [c])%list (raises s).

(** ** The table and its constraints *)

(** The first row with an e-mail, a phone, a key. *)
Definition find_by_email (e : string) (tbl : list Member.t) : option Member.t :=
  find (Member.has_email e) tbl.

Definition find_by_phone (p : string) (tbl : list Member.t) : option Member.t :=
  find (Member.has_phone p) tbl.

Definition find_by_id (i : Z) (tbl : list Member.t) : option Member.t :=
  find (Member.has_id i) tbl.

(** The rowid that SQLite gives to the next inserted row: one more than the
    largest in the table. *)
Definition next_rowid (tbl : list Member.t) : Z :=
  1 + fold_right (fun m acc => match Member.id m with
                               | Some i => Z.max i acc
                               | None => acc
                               end) 0%Z tbl.

(** ** What the store says when it refuses a statement *)

Definition newline : string := String (ascii_of_nat 10) EmptyString.

(** [repr] of a bound parameter, as SQLAlchemy prints it: cut in the middle
    when it is longer than 300 characters. *)
Definition repr_param (v : pyobj) : string :=
  let rep := match v with
             | PyNone => "None"
             | PyStr s => PyStr.repr s
             | PyInt z => PyStr.of_Z z
             end in
  let lenrep := String.length rep in
  if (300 <? lenrep)%nat then
    substring 0 150 rep
    ++ " ... (" ++ PyStr.of_Z (Z.of_nat (lenrep - 300))
    ++ " characters truncated) ... "
    ++ substring (lenrep - 150) 150 rep
  else rep.

(** The tuple of the parameters of a statement. *)
Definition repr_params (params : list pyobj) : string :=
  "(" ++ PyStr.join ", " (map repr_param params)
  ++ match params with [_] => "," | _ => "" end ++ ")".

(** SQLAlchemy's [IntegrityError] for a statement that SQLite refused: its
    [str] is the message of SQLite, then the statement, its parameters and
    a link. *)
Definition integrity_text (message statement : string) (params : list pyobj)
  : string :=
  "(sqlite3.IntegrityError) " ++ message ++ newline
  ++ "[SQL: " ++ statement ++ "]" ++ newline
  ++ "[parameters: " ++ repr_params params ++ "]" ++ newline
  ++ "(Background on this error at: https://sqlalche.me/e/20/gkpj)".

Definition integrity_error (message statement : string) (params : list pyobj)
  : exn :=
  IntegrityError (integrity_text message statement params).

(** The [INSERT] of a new row: every column but the key, which SQLite
    gives. *)
Definition insert_statement (m : Member.t) : string :=
  match Member.id m with
  | None => "INSERT INTO members (name, email, phone) VALUES (?, ?, ?)"
  | Some _ => "INSERT INTO members (name, email, phone, id) VALUES (?, ?, ?, ?)"
  end.

Definition insert_params (m : Member.t) : list pyobj :=
  [PyStr (Member.name m); PyStr (Member.email m); of_option (Member.phone m)]
  ++ match Member.id m with Some i => [PyInt i] | None => [] end.

(** The columns in which [m] differs from the row [old] that was loaded,
    with their new values: the [UPDATE] sets these, and no statement is
    sent when there is none. *)
Definition changed_columns (old m : Member.t) : list (string * pyobj) :=
  (if (Member.name old =? Member.name m)%string then []
   else [("name", PyStr (Member.name m))])
  ++ (if (Member.email old =? Member.email m)%string then []
      else [("email", PyStr (Member.email m))])
  ++ (match Member.phone old, Member.phone m with
      | Some p, Some q =>
          if (p =? q)%string then [] else [("phone", PyStr q)]
      | None, None => []
      | _, _ => [("phone", of_option (Member.phone m))]
      end).

Definition update_statement (columns : list (string * pyobj)) : string :=
  "UPDATE members SET "
  ++ PyStr.join ", " (map (fun c => fst c ++ "=?") columns)
  ++ " WHERE members.id = ?".

Definition update_params (columns : list (string * pyobj)) (i : Z)
  : list pyobj :=
  map snd columns ++ [PyInt i].

(** ** The table and its constraints, continued *)

(** Another row than [i] holds the e-mail, or the phone, of [m]: the unique
    indexes declared on [Member.email] and [Member.phone].  SQL [NULL]
    phones never collide. *)
Definition other_row (i : Z) (m : Member.t) : bool := negb (Member.has_id i m).

Definition email_taken (i : Z) (m : Member.t) (tbl : list Member.t) : bool :=
  existsb (fun r => other_row i r && Member.has_email (Member.email m) r) tbl.

Definition phone_taken (i : Z) (m : Member.t) (tbl : list Member.t) : bool :=
  match Member.phone m with
  | Some p => existsb (fun r => other_row i r && Member.has_phone p r) tbl
  | None => false
  end.

(** The unique indexes, checked for the row [m] of key [i] that a statement
    writes.  (SQLite checks the indexes of the columns that the statement
    sets; in a table whose indexes hold, a column that is not set cannot
    collide, so the whole row is checked.) *)
Definition check_unique (i : Z) (m : Member.t) (tbl : list Member.t)
  (statement : string) (params : list pyobj) : result unit :=
  if email_taken i m tbl then
    Raise (integrity_error "UNIQUE constraint failed: members.email"
             statement params)
  else if phone_taken i m tbl then
    Raise (integrity_error "UNIQUE constraint failed: members.phone"
             statement params)
  else Ok tt.

(** The table after an [UPDATE] of row [i]. *)
Definition replace_row (i : Z) (m : Member.t) (tbl : list Member.t) :=
  map (fun r => if Member.has_id i r then m else r) tbl.

(** Writing one change; the second component is the key given to an inserted
    row. *)
Definition apply_change (ch : change) (tbl : list Member.t)
  : result (list Member.t * option Z) :=
  match ch with
  | Insert m =>
      let i := match Member.id m with Some i => i | None => next_rowid tbl end in
      if existsb (Member.has_id i) tbl then
        Raise (integrity_error "UNIQUE constraint failed: members.id"
                 (insert_statement m) (insert_params m))
      else
        match check_unique i m tbl (insert_statement m) (insert_params m) with
        | Raise e => Raise e
        | Ok _ => Ok ((tbl ++ [Member.set_id (Some i) m])%list, Some i)
        end
  | Update i m =>
      match find_by_id i tbl with
      | None =>
          Raise (OtherException
                   "UPDATE statement on table 'members' expected to update 1 row(s); 0 were matched.")
      | Some old =>
          match changed_columns old m with
          | [] => Ok (tbl, None)
          | columns =>
              match check_unique i m tbl (update_statement columns)
                      (update_params columns i) with
              | Raise e => Raise e
              | Ok _ => Ok (replace_row i m tbl, None)
              end
          end
      end
  | Delete i => Ok (List.filter (fun r => negb (Member.has_id i r)) tbl, None)
  end.

Fixpoint apply_changes (chs : list change) (tbl : list Member.t) (key : option Z)
  : result (list Member.t * option Z) :=
  match chs with
  | [] => Ok (tbl, key)
  | ch :: rest =>
      match apply_change ch tbl with
      | Raise e => Raise e
      | Ok (tbl', k) =>
          apply_changes rest tbl' (match k with Some _ => k | None => key end)
      end
  end.

(** ** The monad of session operations *)

Definition M (A : Type) : Type := Session -> result A * Session.

Definition ret {A} (a : A) : M A := fun s => (Ok a, s).

Definition raise {A} (e : exn) : M A := fun s => (Raise e, s).

Definition bind {A B} (m : M A) (k : A -> M B) : M B :=
  fun s => match m s with
           | (Ok a, s') => k a s'
           | (Raise e, s') => (Raise e, s')
           end.

(** [try: body except Exception as e: handler(e)] *)
Definition try_except {A} (body : M A) (handler : exn -> M A) : M A :=
  fun s => match body s with
           | (Ok a, s') => (Ok a, s')
           | (Raise e, s') => handler e s'
           end.

(** A function that raises or returns without a call on the session. *)
Definition lift {A} (r : result A) : M A := fun s => (r, s).

Notation "x <- m ;; k" := (bind m (fun x => k))
  (at level 61, m at next level, right associativity).
Notation "m ;;; k" := (bind m (fun _ => k))
  (at level 61, right associativity).

(** A call that reaches the store: it is logged, and either raises what the
    oracle says or behaves as [normal]. *)
Definition store_call {A} (c : call) (normal : M A) : M A :=
  fun s => match raises s (log s) c with
           | Some e => (Raise e, logged c s)
           | None => normal (logged c s)
           end.

(** [session.exec(select(Member).where(Member.email == e)).first()] *)
Definition session_exec_by_email (e : string) : M (option Member.t) :=
  store_call (CallExecByEmail e) (fun s => (Ok (find_by_email e (rows s)), s)).

(** [session.exec(select(Member).where(Member.phone == p)).first()] *)
Definition session_exec_by_phone (p : string) : M (option Member.t) :=
  store_call (CallExecByPhone p) (fun s => (Ok (find_by_phone p (rows s)), s)).

(** [session.get(Member, member_id)].  A key that does not fit the 64-bit
    integers of SQLite makes the call raise; that failure is one of those
    that the oracle decides, and a store that answers such a call has no
    counterpart. *)
Definition session_get (member_id : Z) : M (option Member.t) :=
  store_call (CallGet member_id) (fun s => (Ok (find_by_id member_id (rows s)), s)).

(** [session.exec(select(Member).offset(skip).limit(limit)).all()]; SQLite
    reads a negative [OFFSET] as zero and a negative [LIMIT] as no limit. *)
Definition session_exec_all (skip limit : Z) : M (list Member.t) :=
  store_call (CallExecAll skip limit)
    (fun s => let rest := skipn (Z.to_nat skip) (rows s) in
              (Ok (if (limit <? 0)%Z then rest else firstn (Z.to_nat limit) rest), s)).

(** [session.add(m)]: a transient object is inserted at the next commit, a
    persistent one is updated. *)
Definition session_add (m : Member.t) : M unit :=
  store_call (CallAdd m)
    (fun s => (Ok tt,
               with_pending (pending s ++ [match Member.id m with
                                           | None => Insert m
                                           | Some i => Update i m
                                           end])%list s)).

(** [session.delete(m)] *)
Definition session_delete (m : Member.t) : M unit :=
  store_call (CallDelete m)
    (fun s => (Ok tt,
               with_pending (pending s ++ match Member.id m with
                                          | None => []
                                          | Some i => [Delete i]
                                          end)%list s)).

(** [session.commit()]: all pending changes are written, or none is.  The
    value is the primary key given to the inserted row, which SQLAlchemy
    stores into the object that was added. *)
Definition session_commit : M (option Z) :=
  store_call CallCommit
    (fun s => match apply_changes (pending s) (rows s) None with
              | Raise e => (Raise e, s)
              | Ok (tbl, key) => (Ok key, with_pending [] (with_rows tbl s))
              end).

(** [session.refresh(m)]: the row of [m] is read again. *)
Definition session_refresh (m : Member.t) : M Member.t :=
  store_call (CallRefresh m)
    (fun s => match Member.id m with
              | None =>
                  (Raise (OtherException
                            "Instance is not persistent within this Session"), s)
              | Some i =>
                  match find_by_id i (rows s) with
                  | Some r => (Ok r, s)
                  | None =>
                      (Raise (OtherException "Could not refresh instance"), s)
                  end
              end).

(** [session.rollback()]: the unit of work is dropped; the committed rows
    are untouched.  Like every call, it can raise. *)
Definition session_rollback : M unit :=
  store_call CallRollback (fun s => (Ok tt, with_pending [] s)).

(* ================================================================== *)
(** * CRUD operations ([app/crud.py]) *)
(* ================================================================== *)

Definition get_member_by_email (email : string) : M (option Member.t) :=
  try_except
    (session_exec_by_email (PyStr.lower email))
    (fun e => raise (DatabaseOperationError "get_member_by_email" (exn_str e))).

Definition get_member_by_phone (phone : string) : M (option Member.t) :=
  try_except
    (session_exec_by_phone phone)
    (fun e => raise (DatabaseOperationError "get_member_by_phone" (exn_str e))).

Definition get_member_by_id (member_id : Z) : M (option Member.t) :=
  try_except
    (session_get member_id)
    (fun e => raise (DatabaseOperationError "get_member_by_id" (exn_str e))).

Definition get_all_members (skip limit : Z) : M (list Member.t) :=
  try_except
    (session_exec_all skip limit)
    (fun e => raise (DatabaseOperationError "get_all_members" (exn_str e))).

(** A name read in a handler before the [try] body assigned it. *)
Definition unbound_local (x : string) : exn :=
  OtherException
    ("cannot access local variable '" ++ x
     ++ "' where it is not associated with a value").

(** The [except] clauses of [create_member].  [validated] holds the locals
    [validated_email] and [validated_phone] once the body has assigned
    them. *)
Definition create_member_except {A}
  (validated : option (string * option string)) (e : exn) : M A :=
  match e with
  | InvalidMemberDataError _ _ _ | MemberAlreadyExistsError _ _ =>
      session_rollback ;;; raise e
  | IntegrityError _ =>
      session_rollback ;;;
      if PyStr.contains "email" (PyStr.lower (exn_str e)) then
        match validated with
        | Some (validated_email, _) =>
            raise (MemberAlreadyExistsError "email" (PyStr validated_email))
        | None => raise (unbound_local "validated_email")
        end
      else if PyStr.contains "phone" (PyStr.lower (exn_str e)) then
        match validated with
        | Some (_, validated_phone) =>
            raise (MemberAlreadyExistsError "phone"
                     (PyStr (match validated_phone with
                             | Some p => if PyStr.truthy p then p else ""
                             | None => ""
                             end)))
        | None => raise (unbound_local "validated_phone")
        end
      else raise (DatabaseOperationError "create_member" "Constraint violation")
  | _ =>
      session_rollback ;;;
      raise (DatabaseOperationError "create_member" (exn_str e))
  end.

(** The body of the one [try] statement of the source is run in two parts,
    up to the assignment of the validated values and after it, each under
    the same [except] clauses: the clauses read [validated_email] and
    [validated_phone], which only the second part has bound. *)
Definition create_member (member_data : MemberCreate.t) : M Member.t :=
  (* Step 1: validate input data *)
  v <- try_except
         (lift (validate_member_data
                  (PyStr (MemberCreate.name member_data))
                  (PyStr (MemberCreate.email member_data))
                  (of_option (MemberCreate.phone member_data))))
         (create_member_except None) ;;
  let '(validated_name, validated_email, validated_phone) := v in
  try_except
    ((* Step 2: check email uniqueness *)
     existing_member_by_email <- get_member_by_email validated_email ;;
     match existing_member_by_email with
     | Some _ => raise (MemberAlreadyExistsError "email" (PyStr validated_email))
     | None => ret tt
     end ;;;
     (* Step 3: check phone uniqueness (if provided) *)
     match validated_phone with
     | Some p =>
         if PyStr.truthy p then
           existing_member_by_phone <- get_member_by_phone p ;;
           match existing_member_by_phone with
           | Some _ => raise (MemberAlreadyExistsError "phone" (PyStr p))
           | None => ret tt
           end
         else ret tt
     | None => ret tt
     end ;;;
     (* Step 4: create new member with validated data *)
     let new_member :=
       Member.make None validated_name validated_email validated_phone in
     session_add new_member ;;;
     key <- session_commit ;;
     session_refresh (Member.set_id key new_member))
    (create_member_except (Some (validated_email, validated_phone))).

(** The dictionary [update_data] of [update_member]: a key is absent, or
    bound to a validated value ([None] is a value for ["phone"]). *)
Module UpdateData.

Record t : Type := make
  { name : option string; email : option string; phone : option (option string) }.

Definition empty : t := make None None None.
Definition set_name (v : string) (d : t) : t := make (Some v) (email d) (phone d).
Definition set_email (v : string) (d : t) : t := make (name d) (Some v) (phone d).
Definition set_phone (v : option string) (d : t) : t := make (name d) (email d) (Some v).

(** [update_data.get("email", "")] and [update_data.get("phone", "")] *)
Definition get_email (d : t) : pyobj :=
  match email d with Some v => PyStr v | None => PyStr "" end.
Definition get_phone (d : t) : pyobj :=
  match phone d with Some v => of_option v | None => PyStr "" end.

(** [for field, value in update_data.items(): setattr(m, field, value)] *)
Definition apply (d : t) (m : Member.t) : Member.t :=
  let m1 := match name d with Some v => Member.set_name v m | None => m end in
  let m2 := match email d with Some v => Member.set_email v m1 | None => m1 end in
  match phone d with Some v => Member.set_phone v m2 | None => m2 end.

End UpdateData.

(** The [except] clauses of [update_member]; [update_data] is the dictionary
    as it stands when the exception is raised, if it is bound yet. *)
Definition update_member_except {A}
  (update_data : option UpdateData.t) (e : exn) : M A :=
  match e with
  | InvalidMemberDataError _ _ _ | MemberAlreadyExistsError _ _
  | MemberNotFoundError _ _ =>
      session_rollback ;;; raise e
  | IntegrityError _ =>
      session_rollback ;;;
      if PyStr.contains "email" (PyStr.lower (exn_str e)) then
        match update_data with
        | Some d => raise (MemberAlreadyExistsError "email" (UpdateData.get_email d))
        | None => raise (unbound_local "update_data")
        end
      else if PyStr.contains "phone" (PyStr.lower (exn_str e)) then
        match update_data with
        | Some d => raise (MemberAlreadyExistsError "phone" (UpdateData.get_phone d))
        | None => raise (unbound_local "update_data")
        end
      else raise (DatabaseOperationError "update_member" "Constraint violation")
  | _ =>
      session_rollback ;;;
      raise (DatabaseOperationError "update_member" (exn_str e))
  end.

(** The body of the one [try] statement of the source is run in five parts,
    one for each state of [update_data] that the [except] clauses can read:
    not bound yet, then after the entry of each field, then complete. *)
Definition update_member (member_id : Z) (member_data : MemberUpdate.t)
  : M Member.t :=
  (* Get existing member *)
  existing_member <-
    try_except
      (existing_member <- get_member_by_id member_id ;;
       match existing_member with
       | None => raise (MemberNotFoundError "id" (PyStr.of_Z member_id))
       | Some m => ret m
       end)
      (update_member_except None) ;;
  (* Validate and update fields that are provided *)
  let update_data := UpdateData.empty in
  update_data <-
    try_except
      (match MemberUpdate.name member_data with
       | Some name =>
           v <- lift (validate_member_data
                        (PyStr name) (PyStr "dummy@example.com") PyNone) ;;
           ret (UpdateData.set_name (fst (fst v)) update_data)
       | None => ret update_data
       end)
      (update_member_except (Some update_data)) ;;
  update_data <-
    try_except
      (match MemberUpdate.email member_data with
       | Some email =>
           v <- lift (validate_member_data
                        (PyStr "Dummy") (PyStr email) PyNone) ;;
           let validated_email := snd (fst v) in
           (* Check email uniqueness (exclude current member) *)
           existing_email_member <- get_member_by_email validated_email ;;
           match existing_email_member with
           | Some other =>
               if negb (Member.has_id member_id other) then
                 raise (MemberAlreadyExistsError "email" (PyStr validated_email))
               else ret tt
           | None => ret tt
           end ;;;
           ret (UpdateData.set_email validated_email update_data)
       | None => ret update_data
       end)
      (update_member_except (Some update_data)) ;;
  update_data <-
    try_except
      (match MemberUpdate.phone member_data with
       | Some phone =>
           v <- lift (validate_member_data
                        (PyStr "Dummy") (PyStr "dummy@example.com") (PyStr phone)) ;;
           let validated_phone := snd v in
           match validated_phone with
           | Some p =>
               if PyStr.truthy p then
                 (* Check phone uniqueness (exclude current member) *)
                 existing_phone_member <- get_member_by_phone p ;;
                 match existing_phone_member with
                 | Some other =>
                     if negb (Member.has_id member_id other) then
                       raise (MemberAlreadyExistsError "phone" (PyStr p))
                     else ret tt
                 | None => ret tt
                 end
               else ret tt
           | None => ret tt
           end ;;;
           ret (UpdateData.set_phone validated_phone update_data)
       | None => ret update_data
       end)
      (update_member_except (Some update_data)) ;;
  try_except
    ((* Apply updates *)
     let existing_member := UpdateData.apply update_data existing_member in
     session_add existing_member ;;;
     _ <- session_commit ;;
     session_refresh existing_member)
    (update_member_except (Some update_data)).

(** The [except] clauses of [delete_member]. *)
Definition delete_member_except {A} (e : exn) : M A :=
  match e with
  | MemberNotFoundError _ _ => session_rollback ;;; raise e
  | _ =>
      session_rollback ;;;
      raise (DatabaseOperationError "delete_member" (exn_str e))
  end.

Definition delete_member (member_id : Z) : M bool :=
  try_except
    (existing_member <- get_member_by_id member_id ;;
     match existing_member with
     | None => raise (MemberNotFoundError "id" (PyStr.of_Z member_id))
     | Some m =>
         session_delete m ;;;
         _ <- session_commit ;;
         ret true
     end)
    delete_member_except.

(* ================================================================== *)
(** * Vocabulary of the specification *)
(* ================================================================== *)

(** ** Validation *)

(** The failure of a validator on a field. *)
Definition is_invalid_field (field : string) (e : exn) : Prop :=
  exists value reason, e = InvalidMemberDataError field value reason.

Definition rejected {A} (field : string) (r : result A) : Prop :=
  exists e, r = Raise e /\ is_invalid_field field e.

(** The characters that the specification allows in a name, read to the
    letter: letters, digits, the space, hyphen, apostrophe and dot. *)
Definition spec_name_char (c : ascii) : bool :=
  PyStr.is_ascii_alpha c || PyStr.is_ascii_digit c || Ascii.eqb c " "
  || Ascii.eqb c "-" || Ascii.eqb c "'" || Ascii.eqb c ".".

(** The formatting characters of a phone number as the specification lists
    them: space, hyphen, parentheses, plus and dot. *)
Definition spec_phone_format_char (c : ascii) : bool :=
  Ascii.eqb c " " || Ascii.eqb c "-" || Ascii.eqb c "(" || Ascii.eqb c ")"
  || Ascii.eqb c "+" || Ascii.eqb c ".".

(** ** The error taxonomy *)

(** The exceptions of [app/exceptions.py], as opposed to those of the
    store. *)
Definition is_member_api_exception (e : exn) : bool :=
  match e with
  | InvalidMemberDataError _ _ _ | MemberAlreadyExistsError _ _
  | MemberNotFoundError _ _ | DatabaseOperationError _ _ => true
  | IntegrityError _ | OtherException _ => false
  end.

(** A result that lets no exception of the store escape. *)
Definition contained {A} (r : result A) : Prop :=
  match r with
  | Ok _ => True
  | Raise e => is_member_api_exception e = true
  end.

Definition api_exn (e : exn) : Prop := is_member_api_exception e = true.

(** No condition on the exception that is raised. *)
Definition any_exn : exn -> Prop := fun _ => True.

(** A store whose rollback does not fail. *)
Definition calm (s : Session) : Prop :=
  forall h, raises s h CallRollback = None.

(** ** Invariants of the session *)

(** From a session that satisfies [I], the operation leaves a session that
    satisfies [I]; a value that it returns satisfies [Q], an exception that
    it raises satisfies [E]. *)
Definition triple {A} (I : Session -> Prop) (m : M A)
  (Q : A -> Prop) (E : exn -> Prop) : Prop :=
  forall s r s', I s -> m s = (r, s') ->
    I s' /\ match r with Ok a => Q a | Raise e => E e end.

(** The operation does not touch the oracle. *)
Definition steady {A} (m : M A) : Prop :=
  forall s, raises (snd (m s)) = raises s.

(** ** Outcomes of an operation *)

(** The outcome of an operation run on [s]: its result, the calls it added
    to the log, and the table it left. *)
Definition outcome {A} (s : Session) (x : result A * Session)
  (r : result A) (calls : list call) (tbl : list Member.t) : Prop :=
  fst x = r /\ log (snd x) = (log s ++ calls)%list /\ rows (snd x) = tbl.

(** The session after an operation that added [calls] to the log and left
    the table [tbl], with an empty unit of work. *)
Definition after (s : Session) (calls : list call) (tbl : list Member.t) : Session :=
  mkSession tbl [] (log s ++ calls)%list (raises s).

(** The session [s'] holds the same table and store as [s], with the unit of
    work untouched ([quiet]) or whatever a rollback left of it
    ([rolled_back]). *)
Definition quiet (s s' : Session) : Prop :=
  rows s' = rows s /\ pending s' = pending s /\ raises s' = raises s.

Definition rolled_back (s s' : Session) : Prop :=
  rows s' = rows s /\ raises s' = raises s.

(** The session after [session.rollback()] was called on [s]: the unit of
    work is dropped unless the call raised. *)
Definition after_rollback (s : Session) : Session :=
  match raises s (log s) CallRollback with
  | Some _ => logged CallRollback s
  | None => with_pending [] (logged CallRollback s)
  end.

(** A computation that only reads a table [tbl]: the session is left
    [quiet], and a value that is returned satisfies [post]. *)
Definition reads {A} (tbl : list Member.t) (m : M A) (post : A -> Prop) : Prop :=
  forall s r s', rows s = tbl -> m s = (r, s') ->
    quiet s s' /\ match r with Ok a => post a | Raise _ => True end.

(** A [try] block that only reads: as [reads], but the handler has rolled
    back when an exception is raised. *)
Definition block {A} (tbl : list Member.t) (m : M A) (post : A -> Prop) : Prop :=
  forall s r s', rows s = tbl -> m s = (r, s') ->
    match r with
    | Ok a => quiet s s' /\ post a
    | Raise _ => rolled_back s s'
    end.

(** A handler that calls for a rollback and raises. *)
Definition rolls_back {A} (h : exn -> M A) : Prop :=
  forall e s, exists e', h e s = (Raise e', after_rollback s).

(** When the operation raises, the last thing done to the session was a
    call for a rollback. *)
Definition guarded {A} (m : M A) : Prop :=
  forall s e s', m s = (Raise e, s') -> exists s0, s' = after_rollback s0.

(** What a write does to the table: it leaves it alone and fails, or it
    makes the table and the value that [written] describes and returns the
    value, unless reading the row again failed. *)
Definition write_effect {A} (s : Session) (r : result A) (s' : Session)
  (written : list Member.t -> A -> Prop) : Prop :=
  raises s' = raises s
  /\ ((exists e, r = Raise e /\ rows s' = rows s)
      \/ exists a, written (rows s') a
           /\ (r = Ok a
               \/ exists e x h m, r = Raise e
                                  /\ raises s h (CallRefresh m) = Some x)).

(** The operation keeps a property of the table. *)
Definition preserves {A} (P : list Member.t -> Prop) (m : M A) : Prop :=
  forall s r s', P (rows s) -> m s = (r, s') -> P (rows s').

(** ** The table *)

(** The table after the [UPDATE], if one is sent, that turns the row [old]
    of key [i] into [m]. *)
Definition update_rows (i : Z) (old m : Member.t) (tbl : list Member.t)
  : list Member.t :=
  match changed_columns old m with
  | [] => tbl
  | _ => replace_row i m tbl
  end.

(** No row but that of key [i] holds the e-mail [e], or the phone [p]. *)
Definition email_held_by (i : Z) (e : string) (tbl : list Member.t) : Prop :=
  forall r, In r tbl -> Member.email r = e -> Member.id r = Some i.

Definition phone_held_by (i : Z) (p : option string) (tbl : list Member.t) : Prop :=
  forall q r, p = Some q -> In r tbl -> Member.phone r = Some q ->
              Member.id r = Some i.

(** The unique indexes of the table hold: two rows with the same e-mail, or
    with the same phone, are one row. *)
Definition unique_indexes (tbl : list Member.t) : Prop :=
  forall r r', In r tbl -> In r' tbl ->
    (Member.email r = Member.email r'
     \/ exists p, Member.phone r = Some p /\ Member.phone r' = Some p) ->
    Member.id r = Member.id r'.

(** ** [create_member] *)

(** The calls that step 2 and step 3 of [create_member] make. *)
Definition create_lookups (ve : string) (vp : option string) : list call :=
  CallExecByEmail ve ::
  match vp with Some p => [CallExecByPhone p] | None => [] end.

(** ** [update_member] *)

(** The five [try] blocks of [update_member]: the lookup of the member, the
    three fields of the payload, and the write. *)
Definition update_find (member_id : Z) : M Member.t :=
  try_except
    (existing_member <- get_member_by_id member_id ;;
     match existing_member with
     | None => raise (MemberNotFoundError "id" (PyStr.of_Z member_id))
     | Some m => ret m
     end)
    (update_member_except None).

Definition update_name (member_data : MemberUpdate.t)
  (update_data : UpdateData.t) : M UpdateData.t :=
  try_except
    (match MemberUpdate.name member_data with
     | Some name =>
         v <- lift (validate_member_data
                      (PyStr name) (PyStr "dummy@example.com") PyNone) ;;
         ret (UpdateData.set_name (fst (fst v)) update_data)
     | None => ret update_data
     end)
    (update_member_except (Some update_data)).

Definition update_email (member_id : Z) (member_data : MemberUpdate.t)
  (update_data : UpdateData.t) : M UpdateData.t :=
  try_except
    (match MemberUpdate.email member_data with
     | Some email =>
         v <- lift (validate_member_data
                      (PyStr "Dummy") (PyStr email) PyNone) ;;
         let validated_email := snd (fst v) in
         existing_email_member <- get_member_by_email validated_email ;;
         match existing_email_member with
         | Some other =>
             if negb (Member.has_id member_id other) then
               raise (MemberAlreadyExistsError "email" (PyStr validated_email))
             else ret tt
         | None => ret tt
         end ;;;
         ret (UpdateData.set_email validated_email update_data)
     | None => ret update_data
     end)
    (update_member_except (Some update_data)).

Definition update_phone (member_id : Z) (member_data : MemberUpdate.t)
  (update_data : UpdateData.t) : M UpdateData.t :=
  try_except
    (match MemberUpdate.phone member_data with
     | Some phone =>
         v <- lift (validate_member_data
                      (PyStr "Dummy") (PyStr "dummy@example.com") (PyStr phone)) ;;
         let validated_phone := snd v in
         match validated_phone with
         | Some p =>
             if PyStr.truthy p then
               existing_phone_member <- get_member_by_phone p ;;
               match existing_phone_member with
               | Some other =>
                   if negb (Member.has_id member_id other) then
                     raise (MemberAlreadyExistsError "phone" (PyStr p))
                   else ret tt
               | None => ret tt
               end
             else ret tt
         | None => ret tt
         end ;;;
         ret (UpdateData.set_phone validated_phone update_data)
     | None => ret update_data
     end)
    (update_member_except (Some update_data)).

Definition update_write (update_data : UpdateData.t)
  (existing_member : Member.t) : M Member.t :=
  try_except
    (let existing_member := UpdateData.apply update_data existing_member in
     session_add existing_member ;;;
     _ <- session_commit ;;
     session_refresh existing_member)
    (update_member_except (Some update_data)).

(** The entry of [update_data] for a field: absent if the field is not
    supplied, the validated value if it is. *)
Definition name_entry (d : MemberUpdate.t) (ud ud' : UpdateData.t) : Prop :=
  match MemberUpdate.name d with
  | None => ud' = ud
  | Some n =>
      exists v, validate_name (PyStr n) = Ok v /\ ud' = UpdateData.set_name v ud
  end.

Definition email_entry (d : MemberUpdate.t) (ud ud' : UpdateData.t) : Prop :=
  match MemberUpdate.email d with
  | None => ud' = ud
  | Some x =>
      exists v, validate_email (PyStr x) = Ok v /\ ud' = UpdateData.set_email v ud
  end.

Definition phone_entry (d : MemberUpdate.t) (ud ud' : UpdateData.t) : Prop :=
  match MemberUpdate.phone d with
  | None => ud' = ud
  | Some w =>
      exists v, validate_phone (PyStr w) = Ok v /\ ud' = UpdateData.set_phone v ud
  end.

(** [update_data] as [update_member] builds it from a payload whose supplied
    fields all pass validation. *)
Definition validated_update (d : MemberUpdate.t) (ud : UpdateData.t) : Prop :=
  exists ud1 ud2,
    name_entry d UpdateData.empty ud1 /\ email_entry d ud1 ud2
    /\ phone_entry d ud2 ud.

(** The validated value of a field of the payload, if it is supplied and
    valid. *)
Definition validated_field {A} (validate : pyobj -> result A)
  (x : option string) : option A :=
  match x with
  | None => None
  | Some v => match validate (PyStr v) with Ok a => Some a | Raise _ => None end
  end.

Definition field_valid {A} (validate : pyobj -> result A)
  (x : option string) : Prop :=
  match x with
  | None => True
  | Some v => exists a, validate (PyStr v) = Ok a
  end.

(** Every supplied field passes its validator. *)
Definition payload_valid (d : MemberUpdate.t) : Prop :=
  field_valid validate_name (MemberUpdate.name d)
  /\ field_valid validate_email (MemberUpdate.email d)
  /\ field_valid validate_phone (MemberUpdate.phone d).

Definition update_data_of (d : MemberUpdate.t) : UpdateData.t :=
  UpdateData.make
    (validated_field validate_name (MemberUpdate.name d))
    (validated_field validate_email (MemberUpdate.email d))
    (validated_field validate_phone (MemberUpdate.phone d)).

(** The row [m] once a valid payload [d] is applied to it. *)
Definition updated (d : MemberUpdate.t) (m : Member.t) : Member.t :=
  UpdateData.apply (update_data_of d) m.

(** What [update_member] does to the table: it leaves it alone and fails,
    or the payload is valid and it writes the updated row; in the latter
    case it returns that row unless reading it again failed. *)
Definition update_effect (s : Session) (i : Z) (d : MemberUpdate.t)
  (m : Member.t) (r : result Member.t) (s' : Session) : Prop :=
  raises s' = raises s
  /\ ((exists e, r = Raise e /\ rows s' = rows s)
      \/ (payload_valid d
          /\ rows s' = update_rows i m (updated d m) (rows s)
          /\ (r = Ok (updated d m)
              \/ exists e x h,
                   r = Raise e
                   /\ raises s h (CallRefresh (updated d m)) = Some x))).

(** ** Sessions, members and payloads of the examples *)

(** A store that never fails, and a fresh session on it. *)
Definition no_faults : list call -> call -> option exn := fun _ _ => None.

Definition open_session (tbl : list Member.t) : Session :=
  mkSession tbl [] [] no_faults.

(** A store that refuses every commit with the given exception. *)
Definition commit_raises (e : exn) : list call -> call -> option exn :=
  fun _ c => match c with CallCommit => Some e | _ => None end.

(** A store on which reading a row again after a commit fails. *)
Definition refresh_raises (e : exn) : list call -> call -> option exn :=
  fun _ c => match c with CallRefresh _ => Some e | _ => None end.

Definition john : MemberCreate.t :=
  MemberCreate.make "John Doe" "JOHN@EXAMPLE.COM" (Some "+1-234-567-8901").

Definition john_row : Member.t :=
  Member.make (Some 1%Z) "John Doe" "john@example.com" (Some "+1-234-567-8901").

Definition jane_row : Member.t :=
  Member.make (Some 2%Z) "Jane Smith" "jane@example.com" None.

(** The session that [create_member john] leaves on an empty table. *)
Definition john_session : Session :=
  snd (create_member john (open_session [])).

(** A table with two members and a store that answers. *)
Definition two_members : Session := open_session [john_row; jane_row].

(** What SQLAlchemy raises when SQLite refuses the row of [john] because
    another row holds his phone. *)
Definition phone_conflict : exn :=
  integrity_error "UNIQUE constraint failed: members.phone"
    "INSERT INTO members (name, email, phone) VALUES (?, ?, ?)"
    [PyStr "John Doe"; PyStr "john@example.com"; PyStr "+1-234-567-8901"].

(** An empty table whose store reports a conflict on the phone index at
    commit time, as when a concurrent writer took the phone after the
    pre-check. *)
Definition racing_session : Session :=
  mkSession [] [] [] (commit_raises phone_conflict).

(** What SQLAlchemy raises when the connection to the database is lost. *)
Definition lost_connection : exn :=
  OtherException
    ("(sqlite3.OperationalError) disk I/O error" ++ newline
     ++ "(Background on this error at: https://sqlalche.me/e/20/e3q8)").

(** A store that lost its connection: the commit fails, and so does the
    rollback that follows. *)
Definition connection_lost : list call -> call -> option exn :=
  fun _ c =>
    match c with
    | CallCommit | CallRollback => Some lost_connection
    | _ => None
    end.

Definition broken_session (tbl : list Member.t) : Session :=
  mkSession tbl [] [] connection_lost.

(** A table on a store that cannot read a row again once it is committed,
    as when a concurrent writer deleted it or the connection dropped. *)
Definition refresh_fails (tbl : list Member.t) : Session :=
  mkSession tbl [] [] (refresh_raises (OtherException "Could not refresh instance")).

(** The input of [john] with white space around the e-mail. *)
Definition padded_john : MemberCreate.t :=
  MemberCreate.make "John Doe" "  JOHN@EXAMPLE.COM  " (Some "+1-234-567-8901").

(** A payload that supplies a name only. *)
Definition rename_only : MemberUpdate.t :=
  MemberUpdate.make (Some "Johnny Doe") None None.

(** A payload that supplies again the e-mail and the phone of [john_row]. *)
Definition same_contact : MemberUpdate.t :=
  MemberUpdate.make None (Some " John@Example.COM") (Some "+1-234-567-8901").

(** A payload that supplies a phone only. *)
Definition phone_only (w : string) : MemberUpdate.t :=
  MemberUpdate.make None None (Some w).

(* ================================================================== *)
(** * HTTP layer ([app/main.py]) *)
(* ================================================================== *)

(** The endpoint functions and the exception handlers that [app/main.py]
    registers.  An endpoint is modelled from the point where FastAPI calls
    it with the arguments it parsed from the request: the refusal of a
    request that does not parse, and the clean-up of the session by the
    dependency of [app/database.py] after the endpoint returned, are not
    part of the model. *)

Module MemberResponse.

Record t : Type := make
  { name : string; email : string; phone : option string; id : Z }.

End MemberResponse.

(** The content of a response: nothing, a JSON object, an array of JSON
    objects, or plain text.  The values of the objects are scalars. *)
Inductive scalar : Type :=
| JNull : scalar
| JStr (s : string) : scalar
| JInt (z : Z) : scalar.

Inductive json : Type :=
| NoContent : json
| JObj (fields : list (string * scalar)) : json
| JList (items : list (list (string * scalar))) : json
| PlainText (s : string) : json.

Record Response : Type := mkResponse { status_code : Z; content : json }.

Definition HTTP_200_OK : Z := 200.
Definition HTTP_201_CREATED : Z := 201.
Definition HTTP_204_NO_CONTENT : Z := 204.
Definition HTTP_400_BAD_REQUEST : Z := 400.
Definition HTTP_404_NOT_FOUND : Z := 404.
Definition HTTP_409_CONFLICT : Z := 409.
Definition HTTP_500_INTERNAL_SERVER_ERROR : Z := 500.

(** The attributes [detail] and [field] that the constructors of
    [app/exceptions.py] set.  The exceptions of the store have neither; the
    handlers below are not applied to them. *)
Definition exn_detail (exc : exn) : string :=
  match exc with
  | MemberAlreadyExistsError field _ =>
      "A member with this " ++ field ++ " is already registered"
  | MemberNotFoundError _ _ => "The requested member does not exist"
  | InvalidMemberDataError field _ _ => "The provided " ++ field ++ " is not valid"
  | DatabaseOperationError _ _ =>
      "An internal error occurred while processing your request"
  | IntegrityError _ | OtherException _ => ""
  end.

Definition exn_field (exc : exn) : string :=
  match exc with
  | MemberAlreadyExistsError field _ | InvalidMemberDataError field _ _ => field
  | _ => ""
  end.

(** ** Exception handlers *)

Definition member_already_exists_handler (exc : exn) : Response :=
  mkResponse HTTP_409_CONFLICT
    (JObj [("detail", JStr (exn_detail exc));
           ("field", JStr (exn_field exc));
           ("error_type", JStr "conflict")]).

Definition member_not_found_handler (exc : exn) : Response :=
  mkResponse HTTP_404_NOT_FOUND
    (JObj [("detail", JStr (exn_detail exc));
           ("error_type", JStr "not_found")]).

Definition invalid_member_data_handler (exc : exn) : Response :=
  mkResponse HTTP_400_BAD_REQUEST
    (JObj [("detail", JStr (exn_detail exc));
           ("field", JStr (exn_field exc));
           ("error_type", JStr "validation_error")]).

Definition database_operation_handler (exc : exn) : Response :=
  mkResponse HTTP_500_INTERNAL_SERVER_ERROR
    (JObj [("detail", JStr (exn_detail exc));
           ("error_type", JStr "internal_error")]).

(** What an endpoint raises: an exception of the application or of the
    store, or FastAPI's [HTTPException]. *)
Inductive raised : Type :=
| AppException (exc : exn)
| HTTPException (status_code : Z) (detail : string).

Inductive reply (A : Type) : Type :=
| Return (a : A) : reply A
| Raised (x : raised) : reply A.
Arguments Return {A} a.
Arguments Raised {A} x.

(** The classes that the [except (...): raise] clause of an endpoint
    names. *)
Definition is_already_exists (e : exn) : bool :=
  match e with MemberAlreadyExistsError _ _ => true | _ => false end.
Definition is_not_found (e : exn) : bool :=
  match e with MemberNotFoundError _ _ => true | _ => false end.
Definition is_invalid_data (e : exn) : bool :=
  match e with InvalidMemberDataError _ _ _ => true | _ => false end.
Definition is_database_operation (e : exn) : bool :=
  match e with DatabaseOperationError _ _ => true | _ => false end.

(** [try: body except (classes): raise except Exception: raise
    HTTPException(500, detail)] *)
Definition endpoint_try {A} (body : M A) (reraised : exn -> bool)
  (detail : string) : Session -> reply A * Session :=
  fun s => match body s with
           | (Ok a, s') => (Return a, s')
           | (Raise e, s') =>
               (Raised (if reraised e then AppException e
                        else HTTPException HTTP_500_INTERNAL_SERVER_ERROR detail),
                s')
           end.

(** The response for what an endpoint returned or raised: the status of the
    decorator with the returned value, the registered handler of the class
    of the exception, FastAPI's own handler for [HTTPException], and the
    plain response of the server for an exception without a handler. *)
Definition respond {A} (success : Z) (body : A -> json) (r : reply A)
  : Response :=
  match r with
  | Return a => mkResponse success (body a)
  | Raised (HTTPException code detail) =>
      mkResponse code (JObj [("detail", JStr detail)])
  | Raised (AppException exc) =>
      match exc with
      | MemberAlreadyExistsError _ _ => member_already_exists_handler exc
      | MemberNotFoundError _ _ => member_not_found_handler exc
      | InvalidMemberDataError _ _ _ => invalid_member_data_handler exc
      | DatabaseOperationError _ _ => database_operation_handler exc
      | IntegrityError _ | OtherException _ =>
          mkResponse HTTP_500_INTERNAL_SERVER_ERROR (PlainText "Internal Server Error")
      end
  end.

Definition member_fields (r : MemberResponse.t) : list (string * scalar) :=
  [("name", JStr (MemberResponse.name r));
   ("email", JStr (MemberResponse.email r));
   ("phone", match MemberResponse.phone r with
             | Some p => JStr p
             | None => JNull
             end);
   ("id", JInt (MemberResponse.id r))].

Definition member_json (r : MemberResponse.t) : json := JObj (member_fields r).

(** ** Endpoints *)

Section Endpoints.

(** [MemberResponse.from_orm], which belongs to the libraries: it returns a
    response model or raises an exception that is not one of the
    application ([None]). *)
Variable from_orm : Member.t -> option MemberResponse.t.

Definition serialize (m : Member.t) : M MemberResponse.t :=
  lift (match from_orm m with
        | Some r => Ok r
        | None => Raise (OtherException "ValidationError")
        end).

(** [[MemberResponse.from_orm(member) for member in members]] *)
Fixpoint serialize_all (members : list Member.t) : M (list MemberResponse.t) :=
  match members with
  | [] => ret []
  | member :: rest =>
      r <- serialize member ;;
      rs <- serialize_all rest ;;
      ret (r :: rs)
  end.

(** [POST /members/] *)
Definition create_member_endpoint (member_data : MemberCreate.t)
  : Session -> reply MemberResponse.t * Session :=
  endpoint_try
    (new_member <- create_member member_data ;;
     serialize new_member)
    (fun e => is_already_exists e || is_not_found e || is_invalid_data e
              || is_database_operation e)
    "An unexpected error occurred while creating the member".

(** [GET /members/] *)
Definition list_members_endpoint (skip limit : Z)
  : Session -> reply (list MemberResponse.t) * Session :=
  endpoint_try
    (let limit := Z.min limit 100 in
     members <- get_all_members skip limit ;;
     serialize_all members)
    is_database_operation
    "An unexpected error occurred while retrieving members".

(** [GET /members/{member_id}] *)
Definition get_member_endpoint (member_id : Z)
  : Session -> reply MemberResponse.t * Session :=
  endpoint_try
    (member <- get_member_by_id member_id ;;
     match member with
     | None => raise (MemberNotFoundError "id" (PyStr.of_Z member_id))
     | Some m => serialize m
     end)
    (fun e => is_not_found e || is_database_operation e)
    "An unexpected error occurred while retrieving the member".

(** [PUT /members/{member_id}] *)
Definition update_member_endpoint (member_id : Z) (member_data : MemberUpdate.t)
  : Session -> reply MemberResponse.t * Session :=
  endpoint_try
    (updated_member <- update_member member_id member_data ;;
     serialize updated_member)
    (fun e => is_not_found e || is_invalid_data e || is_already_exists e
              || is_database_operation e)
    "An unexpected error occurred while updating the member".

(** [DELETE /members/{member_id}] *)
Definition delete_member_endpoint (member_id : Z)
  : Session -> reply unit * Session :=
  endpoint_try
    (delete_member member_id ;;; ret tt)
    (fun e => is_not_found e || is_database_operation e)
    "An unexpected error occurred while deleting the member".

(** The responses of the five endpoints, with the success status that each
    decorator declares. *)
Definition post_members (member_data : MemberCreate.t) (s : Session) : Response :=
  respond HTTP_201_CREATED member_json (fst (create_member_endpoint member_data s)).

Definition get_members (skip limit : Z) (s : Session) : Response :=
  respond HTTP_200_OK (fun l => JList (map member_fields l))
    (fst (list_members_endpoint skip limit s)).

Definition get_member (member_id : Z) (s : Session) : Response :=
  respond HTTP_200_OK member_json (fst (get_member_endpoint member_id s)).

Definition put_member (member_id : Z) (member_data : MemberUpdate.t)
  (s : Session) : Response :=
  respond HTTP_200_OK member_json
    (fst (update_member_endpoint member_id member_data s)).

Definition delete_member_route (member_id : Z) (s : Session) : Response :=
  respond HTTP_204_NO_CONTENT (fun _ => NoContent)
    (fst (delete_member_endpoint member_id s)).

End Endpoints.

(** Two exceptions of the same class that name the same field. *)
Definition same_class_and_field (e1 e2 : exn) : Prop :=
  match e1, e2 with
  | InvalidMemberDataError f1 _ _, InvalidMemberDataError f2 _ _ => f1 = f2
  | MemberAlreadyExistsError f1 _, MemberAlreadyExistsError f2 _ => f1 = f2
  | MemberNotFoundError _ _, MemberNotFoundError _ _ => True
  | DatabaseOperationError _ _, DatabaseOperationError _ _ => True
  | IntegrityError _, IntegrityError _ => True
  | OtherException _, OtherException _ => True
  | _, _ => False
  end.

(** A [from_orm] that copies the four attributes of a persisted row. *)
Definition copy_attributes (m : Member.t) : option MemberResponse.t :=
  match Member.id m with
  | Some i => Some (MemberResponse.make (Member.name m) (Member.email m)
                      (Member.phone m) i)
  | None => None
  end.

(** The response to [MemberNotFoundError]. *)
Definition not_found_response : Response :=
  mkResponse 404
    (JObj [("detail", JStr "The requested member does not exist");
           ("error_type", JStr "not_found")]).

(* ================================================================== *)
(** * Seeding script ([scripts/initial_data.py]) *)
(* ================================================================== *)

Definition SAMPLE_MEMBERS : list MemberCreate.t :=
  [ MemberCreate.make "Andi Pratama" "andi.pratama@jogja.dev" (Some "+62812345671");
    MemberCreate.make "Siti Nurhaliza" "siti.nurhaliza@python-jogja.org"
      (Some "+62812345672");
    MemberCreate.make "Budi Santoso" "budi.santoso@gmail.com" (Some "+62812345673");
    MemberCreate.make "Maya Sari" "maya.sari@yahoo.com" None;
    MemberCreate.make "Rizki Ramadhan" "rizki.ramadhan@outlook.com"
      (Some "+62812345674");
    MemberCreate.make "Indira Kusuma" "indira.kusuma@python.id" None;
    MemberCreate.make "Fajar Nugroho" "fajar.nugroho@dev.co.id" (Some "+62812345675");
    MemberCreate.make "Dewi Lestari" "dewi.lestari@jogja.ac.id" (Some "+62812345676");
    MemberCreate.make "Agus Wijaya" "agus.wijaya@tech.com" (Some "+62812345677");
    MemberCreate.make "Rina Amelia" "rina.amelia@startup.id" None ].

(** The loop of [create_sample_members] over the members that are left,
    with the two counters of the summary that the script prints: a member
    is created, or skipped because it exists already, or reported as an
    error. *)
Fixpoint create_samples (samples : list MemberCreate.t)
  (created_count skipped_count : nat) (s : Session) : (nat * nat) * Session :=
  match samples with
  | [] => ((created_count, skipped_count), s)
  | member_data :: rest =>
      match create_member member_data s with
      | (Ok _, s') => create_samples rest (created_count + 1) skipped_count s'
      | (Raise (MemberAlreadyExistsError _ _), s') =>
          create_samples rest created_count (skipped_count + 1) s'
      | (Raise _, s') => create_samples rest created_count skipped_count s'
      end
  end.

Definition create_sample_members (s : Session) : (nat * nat) * Session :=
  create_samples SAMPLE_MEMBERS 0 0 s.

(** The loop of [clear_all_members], with its counter.  A row that was read
    from the table has a key.  For a row without one, [crud.delete_member]
    is called with [None]: it finds no member, rolls back and raises; the
    lookup of the key [None] is not among the calls that the model logs. *)
Fixpoint delete_members (members : list Member.t) (deleted_count : nat)
  : M nat :=
  match members with
  | [] => ret deleted_count
  | member :: rest =>
      match Member.id member with
      | Some member_id => delete_member member_id
      | None => session_rollback ;;; raise (MemberNotFoundError "id" "None")
      end ;;;
      delete_members rest (deleted_count + 1)
  end.

(** [clear_all_members]: the number of members that it reports as deleted,
    or [None] when it reports an error.  [crud.get_all_members] is called
    with its default arguments, [skip=0] and [limit=100]. *)
Definition clear_all_members (s : Session) : option nat * Session :=
  match (members <- get_all_members 0 100 ;; delete_members members 0) s with
  | (Ok deleted_count, s') => (Some deleted_count, s')
  | (Raise _, s') => (None, s')
  end.

(** ** Vocabulary of the script's properties *)

(** The e-mail or the phone of a valid input is that of a row of the
    table. *)
Definition taken (d : MemberCreate.t) (tbl : list Member.t) : Prop :=
  exists vn ve vp,
    validate_member_data (PyStr (MemberCreate.name d))
      (PyStr (MemberCreate.email d)) (of_option (MemberCreate.phone d))
    = Ok (vn, ve, vp)
    /\ (find_by_email ve tbl <> None
        \/ exists p, vp = Some p /\ find_by_phone p tbl <> None).

(** Every row has a key, and no two rows have the same. *)
Definition keyed (tbl : list Member.t) : Prop :=
  Forall (fun m => Member.id m <> None) tbl /\ NoDup (map Member.id tbl).

(* ================================================================== *)
(** * Vocabulary of the further properties *)
(* ================================================================== *)

(** ** Shape of the validated values *)

(** The characters of a validated e-mail address besides [@]: the local
    part, the domain, the top-level domain. *)
Definition local_char (c : ascii) : bool :=
  PyStr.is_ascii_lower c || PyStr.is_ascii_digit c
  || Ascii.eqb c "." || Ascii.eqb c "_" || Ascii.eqb c "%" || Ascii.eqb c "+"
  || Ascii.eqb c "-".

Definition domain_char (c : ascii) : bool :=
  PyStr.is_ascii_lower c || PyStr.is_ascii_digit c
  || Ascii.eqb c "." || Ascii.eqb c "-".

(** [local@domain.tld] *)
Definition address_shape (y : string) : Prop :=
  exists l d a,
    y = l ++ "@" ++ d ++ "." ++ a
    /\ PyStr.truthy l = true /\ PyStr.forallb local_char l = true
    /\ PyStr.truthy d = true /\ PyStr.forallb domain_char d = true
    /\ (2 <= PyStr.len a)%Z /\ PyStr.forallb PyStr.is_ascii_lower a = true.

(** The characters of a validated phone number. *)
Definition phone_char (c : ascii) : bool :=
  PyStr.isdigit_char c || phone_format_class c.

(** ** Validated rows *)

(** A row that holds validated values: [validate_member_data] returns them
    as they are. *)
Definition row_valid (m : Member.t) : Prop :=
  validate_member_data (PyStr (Member.name m)) (PyStr (Member.email m))
    (of_option (Member.phone m))
  = Ok (Member.name m, Member.email m, Member.phone m).

Definition change_valid (ch : change) : Prop :=
  match ch with
  | Insert m | Update _ m => row_valid m
  | Delete _ => True
  end.

(** Every row of the table, and every row that waits in the unit of work,
    holds validated values. *)
Definition store_valid (s : Session) : Prop :=
  Forall row_valid (rows s) /\ Forall change_valid (pending s).

(** The entries of [update_data] are validated values. *)
Definition update_data_valid (d : UpdateData.t) : Prop :=
  (forall v, UpdateData.name d = Some v -> validate_name (PyStr v) = Ok v)
  /\ (forall v, UpdateData.email d = Some v -> validate_email (PyStr v) = Ok v)
  /\ (forall v, UpdateData.phone d = Some v -> validate_phone (of_option v) = Ok v).

(** A row that a lookup found, if any, holds validated values. *)
Definition found_valid (r : option Member.t) : Prop :=
  forall m, r = Some m -> row_valid m.

(** ** Classes of failures *)

(** The store raises nothing but its own exceptions. *)
Definition honest (s : Session) : Prop :=
  forall h c e, raises s h c = Some e -> is_member_api_exception e = false.

Definition store_exn (e : exn) : Prop := is_member_api_exception e = false.

Definition member_field (f : string) : Prop :=
  f = "name" \/ f = "email" \/ f = "phone".

Definition unique_field (f : string) : Prop := f = "email" \/ f = "phone".

(** The failures that the operations of [app/crud.py] report. *)
Definition invalid_data (e : exn) : Prop :=
  exists f v r, e = InvalidMemberDataError f v r /\ member_field f.

Definition already_exists (e : exn) : Prop :=
  exists f v, e = MemberAlreadyExistsError f v /\ unique_field f.

Definition not_found (member_id : Z) (e : exn) : Prop :=
  e = MemberNotFoundError "id" (PyStr.of_Z member_id).

Definition operation_failed (operation : string) (e : exn) : Prop :=
  exists details, e = DatabaseOperationError operation details.

(** What each write may raise. *)
Definition create_errors (e : exn) : Prop :=
  invalid_data e \/ already_exists e \/ operation_failed "create_member" e.

Definition update_errors (member_id : Z) (e : exn) : Prop :=
  invalid_data e \/ already_exists e \/ not_found member_id e
  \/ operation_failed "update_member" e.

Definition delete_errors (member_id : Z) (e : exn) : Prop :=
  not_found member_id e \/ operation_failed "delete_member" e.

(** What the body of a [try] block of a write on member [member_id] may
    raise, before the [except] clauses see it. *)
Definition body_exn (member_id : Z) (e : exn) : Prop :=
  store_exn e \/ invalid_data e \/ already_exists e \/ not_found member_id e
  \/ exists operation, operation_failed operation e.

(* ================================================================== *)
(** * Facts about strings and patterns *)
(* ================================================================== *)

Module PyStrFacts.
Import PyStr.

(** A property of one character is checked on the 256 of them. *)
Ltac by_cases_on_char c :=
  destruct c as [[] [] [] [] [] [] [] []]; vm_compute; reflexivity.

Lemma isspace_lower_char (c : ascii) : isspace (lower_char c) = isspace c.
Proof. by_cases_on_char c. Qed.

Lemma lower_char_idem (c : ascii) : lower_char (lower_char c) = lower_char c.
Proof. by_cases_on_char c. Qed.

Lemma lower_idem (s : string) : lower (lower s) = lower s.
Proof.
  induction s as [|c t IH]; simpl; [reflexivity|].
  now rewrite lower_char_idem, IH.
Qed.

Lemma truthy_lower (s : string) : truthy (lower s) = truthy s.
Proof. now destruct s. Qed.

Lemma lstrip_lower (s : string) : lstrip (lower s) = lower (lstrip s).
Proof.
  induction s as [|c t IH]; simpl; [reflexivity|].
  rewrite isspace_lower_char. now destruct (isspace c).
Qed.

Lemma rstrip_lower (s : string) : rstrip (lower s) = lower (rstrip s).
Proof.
  induction s as [|c t IH]; simpl; [reflexivity|].
  rewrite IH, isspace_lower_char.
  destruct (rstrip t); simpl; [now destruct (isspace c)|reflexivity].
Qed.

Lemma strip_lower (s : string) : strip (lower s) = lower (strip s).
Proof. unfold strip. now rewrite lstrip_lower, rstrip_lower. Qed.

Lemma rstrip_idem (s : string) : rstrip (rstrip s) = rstrip s.
Proof.
  induction s as [|c t IH]; simpl; [reflexivity|].
  destruct (rstrip t) as [|a r] eqn:E.
  - destruct (isspace c) eqn:Ec; simpl; [reflexivity|now rewrite Ec].
  - change (rstrip (String c (String a r))) with
      (match rstrip (String a r) with
       | EmptyString => if isspace c then EmptyString else String c EmptyString
       | r' => String c r'
       end).
    now rewrite IH.
Qed.

(** What [lstrip] returns does not start with white space. *)
Lemma lstrip_head (s : string) :
  match lstrip s with
  | EmptyString => True
  | String c _ => isspace c = false
  end.
Proof.
  induction s as [|c t IH]; simpl; [exact I|].
  destruct (isspace c) eqn:E; [exact IH|exact E].
Qed.

Lemma lstrip_rstrip_head (s : string) :
  match s with
  | EmptyString => True
  | String c _ => isspace c = false
  end -> lstrip (rstrip s) = rstrip s.
Proof.
  destruct s as [|c t]; simpl; [reflexivity|]. intros Hc.
  destruct (rstrip t); rewrite ?Hc; simpl; now rewrite Hc.
Qed.

Lemma strip_idem (s : string) : strip (strip s) = strip s.
Proof.
  unfold strip.
  rewrite (lstrip_rstrip_head (lstrip s) (lstrip_head s)).
  apply rstrip_idem.
Qed.

(** White space only is stripped to nothing, and nothing else is. *)
Lemma lstrip_blank (s : string) :
  lstrip s = EmptyString <-> forallb isspace s = true.
Proof.
  induction s as [|c t IH]; simpl; [tauto|].
  destruct (isspace c); simpl; [exact IH|].
  split; discriminate.
Qed.

Lemma rstrip_blank (s : string) :
  rstrip s = EmptyString <-> forallb isspace s = true.
Proof.
  induction s as [|c t IH]; simpl; [tauto|].
  destruct (rstrip t) as [|a r] eqn:E.
  - destruct (isspace c); simpl.
    + split; [intros _; now apply IH|reflexivity].
    + split; discriminate.
  - split; [discriminate|].
    intros H. apply andb_true_iff in H. destruct H as [_ H].
    apply IH in H. discriminate.
Qed.

Lemma forallb_lstrip (p : ascii -> bool) (s : string) :
  forallb p s = true -> forallb p (lstrip s) = true.
Proof.
  induction s as [|c t IH]; simpl; [trivial|].
  intros H. destruct (isspace c); [|exact H].
  apply andb_true_iff in H. now apply IH.
Qed.

Lemma strip_blank (s : string) :
  strip s = EmptyString <-> forallb isspace s = true.
Proof.
  unfold strip. rewrite rstrip_blank. split.
  - induction s as [|c t IH]; simpl; [trivial|].
    destruct (isspace c) eqn:E; simpl; [exact IH|].
    now rewrite E.
  - apply forallb_lstrip.
Qed.

End PyStrFacts.

Module ReFacts.
Import Re.

Lemma fullmatch_Null (s : string) : fullmatch Null s = false.
Proof. induction s; simpl; auto. Qed.

Lemma fullmatch_Cat_Null (r : regex) (s : string) :
  fullmatch (Cat Null r) s = false.
Proof. induction s; simpl; auto. Qed.

Lemma fullmatch_Alt (r1 r2 : regex) (s : string) :
  fullmatch (Alt r1 r2) s = fullmatch r1 s || fullmatch r2 s.
Proof. revert r1 r2. induction s as [|c t IH]; intros; simpl; auto. Qed.

(** [[p]*] after an empty prefix: every character is in the class. *)
Lemma fullmatch_star_class (p : ascii -> bool) (s : string) :
  fullmatch (Cat Eps (Star (Class p))) s = PyStr.forallb p s.
Proof.
  induction s as [|c t IH]; simpl; [reflexivity|].
  rewrite fullmatch_Alt, fullmatch_Cat_Null. simpl.
  destruct (p c); simpl; [exact IH|apply fullmatch_Cat_Null].
Qed.

(** [[p]+]: at least one character, and every character in the class. *)
Lemma fullmatch_plus_class (p : ascii -> bool) (s : string) :
  fullmatch (Plus (Class p)) s = PyStr.truthy s && PyStr.forallb p s.
Proof.
  destruct s as [|c t]; simpl; [reflexivity|].
  destruct (p c); simpl; [apply fullmatch_star_class|apply fullmatch_Cat_Null].
Qed.

Lemma forallb_ends_with_newline (p : ascii -> bool) (s t : string) :
  ends_with_newline s = Some t -> PyStr.forallb p t = true ->
  p (ascii_of_nat 10) = true -> PyStr.forallb p s = true.
Proof.
  revert t. induction s as [|c u IH]; intros t; simpl; [discriminate|].
  destruct u as [|d u'].
  - destruct (PyStr.code c =? 10)%N eqn:E; [|discriminate].
    intros _ _ Hn. apply N.eqb_eq in E.
    assert (c = ascii_of_nat 10) as ->.
    { unfold PyStr.code in E. rewrite <- (ascii_N_embedding c), E. reflexivity. }
    now rewrite Hn.
  - destruct (ends_with_newline (String d u')) as [w|] eqn:E; [|discriminate].
    simpl. intros [= <-] H Hn. simpl in H.
    apply andb_true_iff in H. destruct H as [Hc Hw].
    rewrite Hc. simpl. exact (IH w eq_refl Hw Hn).
Qed.

(** A class that holds the newline makes the [$] anchor immaterial. *)
Lemma match_anchored_plus_class (p : ascii -> bool) (s : string) :
  p (ascii_of_nat 10) = true ->
  match_anchored (Plus (Class p)) s = PyStr.truthy s && PyStr.forallb p s.
Proof.
  intros Hn. unfold match_anchored. rewrite fullmatch_plus_class.
  destruct (ends_with_newline s) as [t|] eqn:E; [|apply orb_false_r].
  rewrite fullmatch_plus_class.
  destruct (PyStr.truthy t && PyStr.forallb p t) eqn:Et; [|apply orb_false_r].
  apply andb_true_iff in Et. destruct Et as [_ Et].
  rewrite (forallb_ends_with_newline p s t E Et Hn).
  destruct s; [discriminate|reflexivity].
Qed.

End ReFacts.

(* ================================================================== *)
(** * Properties of the validators *)
(* ================================================================== *)

Section Validators.
Import PyStr PyStrFacts.

Lemma rejected_intro {A} (field value reason : string) :
  @rejected A field (Raise (InvalidMemberDataError field value reason)).
Proof. eexists; split; [reflexivity|]. now exists value, reason. Qed.

Lemma Z_gtb_ltb (a b : Z) : (a >? b)%Z = (b <? a)%Z.
Proof. apply Z.gtb_ltb. Qed.

Lemma name_class_newline : name_class (ascii_of_nat 10) = true.
Proof. reflexivity. Qed.

Lemma validate_name_raises (v : pyobj) (e : exn) :
  validate_name v = Raise e -> is_invalid_field "name" e.
Proof.
  unfold validate_name, is_invalid_field.
  destruct v; repeat match goal with
    | |- context [if ?b then _ else _] => destruct b
    end; intros [= <-]; eauto.
Qed.

Lemma validate_email_raises (v : pyobj) (e : exn) :
  validate_email v = Raise e -> is_invalid_field "email" e.
Proof.
  unfold validate_email, is_invalid_field.
  destruct v; repeat match goal with
    | |- context [if ?b then _ else _] => destruct b
    end; intros [= <-]; eauto.
Qed.

Lemma validate_phone_raises (v : pyobj) (e : exn) :
  validate_phone v = Raise e -> is_invalid_field "phone" e.
Proof.
  unfold validate_phone, is_invalid_field.
  destruct v; repeat match goal with
    | |- context [if ?b then _ else _] => destruct b
    end; intros [= <-]; eauto.
Qed.

Lemma validate_member_data_raises (n e p : pyobj) (x : exn) :
  validate_member_data n e p = Raise x ->
  exists field, is_invalid_field field x.
Proof.
  unfold validate_member_data.
  destruct (validate_name n) eqn:En.
  - destruct (validate_email e) eqn:Ee.
    + destruct (validate_phone p) eqn:Ep; [discriminate|].
      intros [= <-]. eauto using validate_phone_raises.
    + intros [= <-]. eauto using validate_email_raises.
  - intros [= <-]. eauto using validate_name_raises.
Qed.

(** The normal form of an e-mail address is a fixed point of the
    normalisation. *)
Lemma normalized_email_fixed (s : string) :
  lower (strip (lower (strip s))) = lower (strip s).
Proof. now rewrite strip_lower, strip_idem, lower_idem. Qed.

(** What [validate_email] returns is the trimmed, lower-cased input. *)
Lemma validate_email_Ok (s y : string) :
  validate_email (PyStr s) = Ok y -> y = lower (strip s).
Proof.
  unfold validate_email.
  repeat match goal with
    | |- context [if ?b then _ else _] => destruct b
    end; now intros [= <-].
Qed.

Lemma validate_email_not_str (v : pyobj) (y : string) :
  validate_email v = Ok y -> exists s, v = PyStr s.
Proof. destruct v; try discriminate. eauto. Qed.

(** C9.  [validate_email] is idempotent on the inputs it accepts: applied to
    its own result it returns that result again,
    [validate_email(validate_email(x)) == validate_email(x)]. *)
Theorem validate_email_idempotent (x : pyobj) (y : string) :
  validate_email x = Ok y ->
  validate_email (PyStr y) = validate_email x.
Proof.
  intros H. destruct (validate_email_not_str _ _ H) as [s ->].
  pose proof (validate_email_Ok _ _ H) as ->.
  rewrite H. revert H. unfold validate_email.
  rewrite normalized_email_fixed.
  destruct (truthy s); simpl; [|discriminate].
  destruct (truthy (lower (strip s))); simpl; [|discriminate].
  repeat match goal with
    | |- context [if ?b then _ else _] => destruct b
    end; try discriminate; reflexivity.
Qed.

Lemma validate_email_idempotent_witness :
  validate_email (PyStr "  JOHN.DOE@EXAMPLE.COM ") = Ok "john.doe@example.com"
  /\ validate_email (PyStr "john.doe@example.com")
     = validate_email (PyStr "  JOHN.DOE@EXAMPLE.COM ").
Proof.
  split; [reflexivity|].
  apply (validate_email_idempotent (PyStr "  JOHN.DOE@EXAMPLE.COM ")
           "john.doe@example.com").
  reflexivity.
Defined.

(** C8, as amended.  [validate_name] fails with [InvalidMemberDataError] on
    field [name] if the input is not a string or is empty, or if the trimmed
    input is empty, has fewer than 2 or more than 100 characters, or holds a
    character that is not an ASCII letter, an ASCII digit, a white-space
    character (the class [\s]: space, tab, newline, ...), a hyphen, an
    apostrophe or a dot; in every other case it returns the trimmed input. *)
Theorem validate_name_characterised (v : pyobj) :
  match v with
  | PyStr s =>
      let t := strip s in
      if negb (truthy s) || negb (truthy t)
         || (len t <? 2)%Z || (100 <? len t)%Z || negb (forallb name_class t)
      then rejected "name" (validate_name v)
      else validate_name v = Ok t
  | _ => rejected "name" (validate_name v)
  end.
Proof.
  destruct v as [|s|z]; try apply rejected_intro.
  unfold validate_name. cbv zeta.
  rewrite Z_gtb_ltb, (ReFacts.match_anchored_plus_class _ _ name_class_newline).
  destruct (truthy s); simpl; [|apply rejected_intro].
  destruct (truthy (strip s)); simpl; [|apply rejected_intro].
  destruct (len (strip s) <? 2)%Z; simpl; [apply rejected_intro|].
  destruct (100 <? len (strip s))%Z; simpl; [apply rejected_intro|].
  destruct (forallb name_class (strip s)); simpl;
    [reflexivity|apply rejected_intro].
Qed.

(** C8, as first stated, fails on a name with a tab inside: the tab is not
    one of "letters, digits, space, hyphen, apostrophe, dot", and the name is
    accepted. *)
Lemma validate_name_accepts_tab :
  let s := "John" ++ String (ascii_of_nat 9) "Doe" in
  forallb spec_name_char (strip s) = false
  /\ validate_name (PyStr s) = Ok s.
Proof. split; reflexivity. Qed.

(** C7, as amended.  [validate_phone] returns "absent" for [None] and for a
    string that is empty or white space only.  Otherwise, with [t] the
    trimmed input and [digits] what is left of [t] once white-space
    characters (the class [\s]), hyphens, parentheses, pluses and dots are
    removed, it fails with [InvalidMemberDataError] on field [phone] if [t]
    has more than 20 characters, if [digits] holds a character that
    [str.isdigit] does not accept, or if [digits] has fewer than 8 or more
    than 15 characters; in every other case it returns [t], formatting
    kept. *)
Theorem validate_phone_characterised (v : pyobj) :
  match v with
  | PyNone => validate_phone v = Ok None
  | PyStr s =>
      let t := strip s in
      if negb (truthy t) then validate_phone v = Ok None
      else
        let digits := clean_phone_of t in
        if (20 <? len t)%Z || negb (forallb isdigit_char digits)
           || (len digits <? 8)%Z || (15 <? len digits)%Z
        then rejected "phone" (validate_phone v)
        else validate_phone v = Ok (Some t)
  | PyInt _ => rejected "phone" (validate_phone v)
  end.
Proof.
  destruct v as [|s|z]; [reflexivity| |apply rejected_intro].
  unfold validate_phone, isdigit. cbv zeta. rewrite !Z_gtb_ltb.
  destruct (truthy (strip s)); simpl; [|reflexivity].
  destruct (20 <? len (strip s))%Z; simpl; [apply rejected_intro|].
  destruct (clean_phone_of (strip s)) as [|c d] eqn:E.
  - simpl. apply rejected_intro.
  - destruct (forallb isdigit_char (String c d)); simpl; [|apply rejected_intro].
    destruct (len (String c d) <? 8)%Z; simpl; [apply rejected_intro|].
    destruct (15 <? len (String c d))%Z; simpl;
      [apply rejected_intro|reflexivity].
Qed.

(** C7, as first stated, fails on a number with a tab inside: removing
    space, hyphen, parentheses, plus and dot leaves the tab, which is no
    digit, and the number is accepted. *)
Lemma validate_phone_accepts_tab :
  let s := "1234" ++ String (ascii_of_nat 9) "5678" in
  forallb isdigit_char
    (filter (fun c => negb (spec_phone_format_char c)) (strip s)) = false
  /\ validate_phone (PyStr s) = Ok (Some s).
Proof. split; reflexivity. Qed.

End Validators.

(* ================================================================== *)
(** * Reasoning about session operations *)
(* ================================================================== *)

Lemma bind_inv {A B} (m : M A) (k : A -> M B) s r s' :
  bind m k s = (r, s') ->
  (exists a s1, m s = (Ok a, s1) /\ k a s1 = (r, s'))
  \/ (exists e, m s = (Raise e, s') /\ r = Raise e).
Proof.
  unfold bind. destruct (m s) as [[a|e] s1]; intros H.
  - left. eauto.
  - right. injection H as <- <-. eauto.
Qed.

Lemma try_except_inv {A} (b : M A) (h : exn -> M A) s r s' :
  try_except b h s = (r, s') ->
  (exists a, b s = (Ok a, s') /\ r = Ok a)
  \/ (exists e s1, b s = (Raise e, s1) /\ h e s1 = (r, s')).
Proof.
  unfold try_except. destruct (b s) as [[a|e] s1]; intros H.
  - left. injection H as <- <-. eauto.
  - right. eauto.
Qed.

Lemma store_call_run {A} (c : call) (normal : M A) (s : Session) :
  store_call c normal s =
  match raises s (log s) c with
  | Some e => (Raise e, logged c s)
  | None => normal (logged c s)
  end.
Proof. reflexivity. Qed.

(** A handler's rollback, then its [raise]. *)
Lemma rollback_raise_run {A} (e : exn) (s : Session) :
  (session_rollback ;;; @raise A e) s
  = (Raise (match raises s (log s) CallRollback with
            | Some x => x
            | None => e
            end), after_rollback s).
Proof.
  unfold bind, session_rollback, after_rollback. rewrite store_call_run.
  now destruct (raises s (log s) CallRollback).
Qed.

(** ** Triples *)

Lemma triple_ret {A} I (a : A) (Q : A -> Prop) E :
  Q a -> triple I (ret a) Q E.
Proof. intros Ha s r s' Hs [= <- <-]. auto. Qed.

Lemma triple_raise {A} I (e : exn) (Q : A -> Prop) (E : exn -> Prop) :
  E e -> triple I (raise e) Q E.
Proof. intros He s r s' Hs [= <- <-]. auto. Qed.

Lemma triple_lift {A} I (x : result A) (Q : A -> Prop) (E : exn -> Prop) :
  (forall a, x = Ok a -> Q a) -> (forall e, x = Raise e -> E e) ->
  triple I (lift x) Q E.
Proof. intros Ha He s r s' Hs [= <- <-]. destruct x; auto. Qed.

Lemma triple_bind {A B} I (m : M A) (k : A -> M B) Qa (Q : B -> Prop) E :
  triple I m Qa E -> (forall a, Qa a -> triple I (k a) Q E) ->
  triple I (bind m k) Q E.
Proof.
  intros Hm Hk s r s' Hs H. apply bind_inv in H.
  destruct H as [(a & s1 & H1 & H)|(e & H1 & ->)].
  - destruct (Hm _ _ _ Hs H1) as [Hs1 Ha]. exact (Hk a Ha _ _ _ Hs1 H).
  - exact (Hm _ _ _ Hs H1).
Qed.

Lemma triple_try_except {A} I (b : M A) (h : exn -> M A) (Q : A -> Prop) Eb E :
  triple I b Q Eb -> (forall e, Eb e -> triple I (h e) Q E) ->
  triple I (try_except b h) Q E.
Proof.
  intros Hb Hh s r s' Hs H. apply try_except_inv in H.
  destruct H as [(a & H1 & ->)|(e & s1 & H1 & H)].
  - exact (Hb _ _ _ Hs H1).
  - destruct (Hb _ _ _ Hs H1) as [Hs1 He]. exact (Hh e He _ _ _ Hs1 H).
Qed.

Lemma triple_weaken {A} I (m : M A) (Q Q' : A -> Prop) (E E' : exn -> Prop) :
  triple I m Q E -> (forall a, Q a -> Q' a) -> (forall e, E e -> E' e) ->
  triple I m Q' E'.
Proof.
  intros Hm HQ HE s r s' Hs H. destruct (Hm _ _ _ Hs H) as [Hs' Hr].
  split; [exact Hs'|]. destruct r; auto.
Qed.

Lemma triple_store_call {A} I (c : call) (normal : M A) (Q : A -> Prop) E :
  (forall s, I s -> I (logged c s)) ->
  (forall s e, I s -> raises s (log s) c = Some e -> E e) ->
  triple I normal Q E ->
  triple I (store_call c normal) Q E.
Proof.
  intros Hlog Hexn Hn s r s' Hs. rewrite store_call_run.
  destruct (raises s (log s) c) as [e|] eqn:Ee.
  - intros [= <- <-]. split; [auto|]. exact (Hexn s e Hs Ee).
  - intros H. exact (Hn _ _ _ (Hlog s Hs) H).
Qed.

Lemma triple_run {A} (I : Session -> Prop) (m : M A) Q E (s : Session) :
  triple I m Q E -> I s ->
  I (snd (m s)) /\ (forall a, fst (m s) = Ok a -> Q a)
  /\ (forall e, fst (m s) = Raise e -> E e).
Proof.
  intros Hm Hs. destruct (m s) as [r s'] eqn:Em.
  destruct (Hm _ _ _ Hs Em) as [Hs' Hr].
  split; [exact Hs'|]. cbn. split; intros ? ->; exact Hr.
Qed.

(** ** The oracle is never touched *)

Lemma steady_ret {A} (a : A) : steady (ret a).
Proof. now intros s. Qed.

Lemma steady_raise {A} (e : exn) : steady (@raise A e).
Proof. now intros s. Qed.

Lemma steady_lift {A} (x : result A) : steady (lift x).
Proof. now intros s. Qed.

Lemma steady_bind {A B} (m : M A) (k : A -> M B) :
  steady m -> (forall a, steady (k a)) -> steady (bind m k).
Proof.
  intros Hm Hk s. unfold bind. specialize (Hm s).
  destruct (m s) as [[a|e] s1]; cbn in *; [|exact Hm].
  now rewrite Hk.
Qed.

Lemma steady_try_except {A} (b : M A) (h : exn -> M A) :
  steady b -> (forall e, steady (h e)) -> steady (try_except b h).
Proof.
  intros Hb Hh s. unfold try_except. specialize (Hb s).
  destruct (b s) as [[a|e] s1]; cbn in *; [exact Hb|].
  now rewrite Hh.
Qed.

Lemma steady_store_call {A} (c : call) (normal : M A) :
  steady normal -> steady (store_call c normal).
Proof.
  intros Hn s. rewrite store_call_run.
  destruct (raises s (log s) c); [reflexivity|]. now rewrite Hn.
Qed.

Ltac steady_session_call :=
  apply steady_store_call; intros s; cbn;
  repeat match goal with
         | |- context [match ?x with _ => _ end] => destruct x
         end; reflexivity.

Lemma steady_exec_by_email e : steady (session_exec_by_email e).
Proof. steady_session_call. Qed.

Lemma steady_exec_by_phone p : steady (session_exec_by_phone p).
Proof. steady_session_call. Qed.

Lemma steady_get i : steady (session_get i).
Proof. steady_session_call. Qed.

Lemma steady_exec_all skip limit : steady (session_exec_all skip limit).
Proof. steady_session_call. Qed.

Lemma steady_add m : steady (session_add m).
Proof. steady_session_call. Qed.

Lemma steady_delete m : steady (session_delete m).
Proof. steady_session_call. Qed.

Lemma steady_commit : steady session_commit.
Proof. steady_session_call. Qed.

Lemma steady_refresh m : steady (session_refresh m).
Proof. steady_session_call. Qed.

Lemma steady_rollback : steady session_rollback.
Proof. steady_session_call. Qed.

Ltac steady_step :=
  first
    [ apply steady_ret | apply steady_raise | apply steady_lift
    | apply steady_exec_by_email | apply steady_exec_by_phone
    | apply steady_get | apply steady_exec_all | apply steady_add
    | apply steady_delete | apply steady_commit | apply steady_refresh
    | apply steady_rollback
    | apply steady_bind; [|intros ?]
    | apply steady_try_except; [|intros ?]
    | match goal with
      | |- steady (match ?x with _ => _ end) => destruct x
      | |- steady (if ?x then _ else _) => destruct x
      | |- steady (let '(_, _) := ?x in _) => destruct x
      end ].

Lemma steady_get_member_by_email q : steady (get_member_by_email q).
Proof. unfold get_member_by_email. repeat steady_step. Qed.

Lemma steady_get_member_by_phone p : steady (get_member_by_phone p).
Proof. unfold get_member_by_phone. repeat steady_step. Qed.

Lemma steady_get_member_by_id i : steady (get_member_by_id i).
Proof. unfold get_member_by_id. repeat steady_step. Qed.

Lemma steady_get_all_members skip limit : steady (get_all_members skip limit).
Proof. unfold get_all_members. repeat steady_step. Qed.

Lemma steady_create_member_except {A} v e : steady (@create_member_except A v e).
Proof. unfold create_member_except. repeat steady_step. Qed.

Lemma steady_update_member_except {A} ud e : steady (@update_member_except A ud e).
Proof. unfold update_member_except. repeat steady_step. Qed.

Lemma steady_delete_member_except {A} e : steady (@delete_member_except A e).
Proof. unfold delete_member_except. repeat steady_step. Qed.

Lemma steady_create_member d : steady (create_member d).
Proof.
  unfold create_member, get_member_by_email, get_member_by_phone.
  repeat first [apply steady_create_member_except | steady_step].
Qed.

Lemma steady_update_member i d : steady (update_member i d).
Proof.
  unfold update_member, get_member_by_email, get_member_by_phone,
    get_member_by_id.
  repeat first [apply steady_update_member_except | steady_step].
Qed.

Lemma steady_delete_member i : steady (delete_member i).
Proof.
  unfold delete_member, get_member_by_id.
  repeat first [apply steady_delete_member_except | steady_step].
Qed.

(** ** The error taxonomy *)

(** On a store whose rollback does not fail, an operation that does not
    touch the oracle keeps such a store. *)
Lemma calm_steady {A} (m : M A) :
  steady m -> triple calm m (fun _ => True) any_exn.
Proof.
  intros Hm s r s' Hs H. split; [|now destruct r].
  intros h. pose proof (Hm s) as Hr. rewrite H in Hr. cbn in Hr.
  rewrite Hr. apply Hs.
Qed.

Lemma calm_rollback_raise {A} (e : exn) (Q : A -> Prop) (E : exn -> Prop) :
  E e -> triple calm (session_rollback ;;; raise e) Q E.
Proof.
  intros He s r s' Hs. unfold bind, session_rollback.
  rewrite store_call_run, Hs. intros [= <- <-]. split; [exact Hs|exact He].
Qed.

Lemma is_invalid_field_api (f : string) (e : exn) :
  is_invalid_field f e -> api_exn e.
Proof. intros (v & r & ->). reflexivity. Qed.

Lemma contained_create_member_except {A} validated (e : exn) (Q : A -> Prop) :
  (validated = None -> api_exn e) ->
  triple calm (create_member_except validated e) Q api_exn.
Proof.
  intros H. unfold create_member_except.
  destruct e; try (now apply calm_rollback_raise).
  destruct validated as [[ve vp]|]; [|now specialize (H eq_refl)].
  repeat match goal with
    | |- context [if ?b then _ else _] => destruct b
    end; now apply calm_rollback_raise.
Qed.

Lemma contained_update_member_except {A} update_data (e : exn) (Q : A -> Prop) :
  (update_data = None -> api_exn e) ->
  triple calm (update_member_except update_data e) Q api_exn.
Proof.
  intros H. unfold update_member_except.
  destruct e; try (now apply calm_rollback_raise).
  destruct update_data as [d|]; [|now specialize (H eq_refl)].
  repeat match goal with
    | |- context [if ?b then _ else _] => destruct b
    end; now apply calm_rollback_raise.
Qed.

Lemma contained_delete_member_except {A} (e : exn) (Q : A -> Prop) :
  triple calm (delete_member_except e) Q api_exn.
Proof.
  unfold delete_member_except. destruct e; now apply calm_rollback_raise.
Qed.

Lemma contained_lookup {A} (b : M A) (operation : string) :
  steady b ->
  triple calm
    (try_except b
       (fun e => raise (DatabaseOperationError operation (exn_str e))))
    (fun _ => True) api_exn.
Proof.
  intros Hb. eapply triple_try_except; [apply calm_steady, Hb|].
  intros e _. now apply triple_raise.
Qed.

Lemma contained_create_member d :
  triple calm (create_member d) (fun _ => True) api_exn.
Proof.
  unfold create_member. eapply triple_bind with (Qa := fun _ => True).
  - eapply triple_try_except with (Eb := api_exn).
    + apply triple_lift; [now intros|].
      intros e H. destruct (validate_member_data_raises _ _ _ _ H) as [f Hf].
      exact (is_invalid_field_api _ _ Hf).
    + intros e He. now apply contained_create_member_except.
  - intros [[vn ve] vp] _. eapply triple_try_except.
    + apply calm_steady.
      unfold get_member_by_email, get_member_by_phone. repeat steady_step.
    + intros e _. now apply contained_create_member_except.
Qed.

Lemma contained_update_member i d :
  triple calm (update_member i d) (fun _ => True) api_exn.
Proof.
  unfold update_member. eapply triple_bind with (Qa := fun _ => True).
  - eapply triple_try_except with (Eb := api_exn).
    + eapply triple_bind with (Qa := fun _ => True).
      * apply contained_lookup, steady_get.
      * intros [m|] _; [now apply triple_ret|now apply triple_raise].
    + intros e He. now apply contained_update_member_except.
  - intros m _.
    repeat (eapply triple_bind with (Qa := fun _ => True);
            [eapply triple_try_except;
             [apply calm_steady;
              unfold get_member_by_email, get_member_by_phone;
              repeat steady_step
             |intros e _; now apply contained_update_member_except]
            |intros ? _]).
    eapply triple_try_except.
    + apply calm_steady. repeat steady_step.
    + intros e _. now apply contained_update_member_except.
Qed.

Lemma contained_delete_member i :
  triple calm (delete_member i) (fun _ => True) api_exn.
Proof.
  unfold delete_member. eapply triple_try_except.
  - apply calm_steady. unfold get_member_by_id. repeat steady_step.
  - intros e _. apply contained_delete_member_except.
Qed.

(** The part of C5 that holds: the reads let no exception of the store
    escape, and neither do the writes as long as the rollback itself does
    not fail. *)
Lemma failures_contained_while_rollback_works (s : Session) :
  (forall i, contained (fst (get_member_by_id i s)))
  /\ (forall q, contained (fst (get_member_by_email q s)))
  /\ (forall p, contained (fst (get_member_by_phone p s)))
  /\ (forall skip limit, contained (fst (get_all_members skip limit s)))
  /\ (calm s ->
      (forall d, contained (fst (create_member d s)))
      /\ (forall i d, contained (fst (update_member i d s)))
      /\ (forall i, contained (fst (delete_member i s)))).
Proof.
  assert (lookup : forall A (b : M A) op,
            contained (fst (try_except b
              (fun e => raise (DatabaseOperationError op (exn_str e))) s))).
  { intros A b op. unfold try_except. now destruct (b s) as [[a|e] s1]. }
  split; [intros; apply lookup|]. split; [intros; apply lookup|].
  split; [intros; apply lookup|]. split; [intros; apply lookup|].
  intros Hs.
  assert (run : forall A (m : M A),
            triple calm m (fun _ => True) api_exn -> contained (fst (m s))).
  { intros A m Hm. destruct (m s) as [r s'] eqn:E.
    destruct (Hm _ _ _ Hs E) as [_ Hr]. now destruct r. }
  split; [intros; apply run, contained_create_member|].
  split; [intros; apply run, contained_update_member|].
  intros; apply run, contained_delete_member.
Qed.

(** C5, at the input where the code departs from it.  Every handler of the
    three writes calls [session.rollback()] before it raises its own
    exception, and nothing guards that call: on a store that lost its
    connection, where the commit fails and then the rollback fails too,
    [create_member], [update_member] and [delete_member] let the exception
    of the rollback escape, which is none of the four kinds. *)
Theorem raw_exception_escapes_when_rollback_fails :
  let lost := lost_connection in
  is_member_api_exception lost = false
  /\ outcome (broken_session []) (create_member john (broken_session []))
       (Raise lost)
       [CallExecByEmail "john@example.com";
        CallExecByPhone "+1-234-567-8901";
        CallAdd (Member.make None "John Doe" "john@example.com"
                   (Some "+1-234-567-8901"));
        CallCommit; CallRollback]
       []
  /\ outcome (broken_session [john_row])
       (update_member 1 rename_only (broken_session [john_row]))
       (Raise lost)
       [CallGet 1;
        CallAdd (Member.set_name "Johnny Doe" john_row);
        CallCommit; CallRollback]
       [john_row]
  /\ outcome (broken_session [john_row])
       (delete_member 1 (broken_session [john_row]))
       (Raise lost)
       [CallGet 1; CallDelete john_row; CallCommit; CallRollback]
       [john_row].
Proof. cbv zeta. repeat split; vm_compute; reflexivity. Qed.

(* ================================================================== *)
(** * The table: lookups, keys and the unique indexes *)
(* ================================================================== *)

Section Table.

Lemma has_id_inv (i : Z) (m : Member.t) :
  Member.has_id i m = true -> Member.id m = Some i.
Proof.
  unfold Member.has_id. destruct (Member.id m) as [j|]; [|discriminate].
  intros H. apply Z.eqb_eq in H. now subst.
Qed.

Lemma has_id_intro (i : Z) (m : Member.t) :
  Member.id m = Some i -> Member.has_id i m = true.
Proof. unfold Member.has_id. intros ->. apply Z.eqb_refl. Qed.

Lemma has_email_inv (e : string) (m : Member.t) :
  Member.has_email e m = true -> Member.email m = e.
Proof. apply String.eqb_eq. Qed.

Lemma has_phone_inv (p : string) (m : Member.t) :
  Member.has_phone p m = true -> Member.phone m = Some p.
Proof.
  unfold Member.has_phone. destruct (Member.phone m) as [q|]; [|discriminate].
  intros H. apply String.eqb_eq in H. now subst.
Qed.

Lemma find_by_id_Some (i : Z) (tbl : list Member.t) (m : Member.t) :
  find_by_id i tbl = Some m -> In m tbl /\ Member.id m = Some i.
Proof.
  intros H. apply find_some in H. destruct H as [Hin H].
  split; [exact Hin|now apply has_id_inv].
Qed.

Lemma find_by_id_exists (i : Z) (tbl : list Member.t) (m : Member.t) :
  find_by_id i tbl = Some m -> existsb (Member.has_id i) tbl = true.
Proof.
  intros H. apply find_some in H. apply existsb_exists. eauto.
Qed.

Lemma find_by_id_None (i : Z) (tbl : list Member.t) :
  find_by_id i tbl = None -> existsb (Member.has_id i) tbl = false.
Proof.
  intros H. apply not_true_is_false. intros E.
  apply existsb_exists in E. destruct E as (r & Hin & Hr).
  now rewrite (find_none _ _ H r Hin) in Hr.
Qed.

(** Every key of the table lies below the next rowid. *)
Lemma next_rowid_above (tbl : list Member.t) (m : Member.t) (i : Z) :
  In m tbl -> Member.id m = Some i -> (i < next_rowid tbl)%Z.
Proof.
  unfold next_rowid. induction tbl as [|r tbl IH]; cbn [fold_right In]; [tauto|].
  intros [->|Hin] Hi.
  - rewrite Hi. lia.
  - specialize (IH Hin Hi). destruct (Member.id r); lia.
Qed.

Lemma next_rowid_fresh (tbl : list Member.t) :
  existsb (Member.has_id (next_rowid tbl)) tbl = false.
Proof.
  apply not_true_is_false. intros E.
  apply existsb_exists in E. destruct E as (r & Hin & Hr).
  apply has_id_inv in Hr. pose proof (next_rowid_above _ _ _ Hin Hr). lia.
Qed.

Lemma find_by_id_replace_row (i : Z) (m m' : Member.t) (tbl : list Member.t) :
  find_by_id i tbl = Some m -> Member.has_id i m' = true ->
  find_by_id i (replace_row i m' tbl) = Some m'.
Proof.
  unfold find_by_id, replace_row. intros H Hm'.
  induction tbl as [|r tbl IH]; simpl in *; [discriminate|].
  destruct (Member.has_id i r) eqn:E.
  - now rewrite Hm'.
  - rewrite E. now apply IH.
Qed.

Lemma find_app_new {A} (p : A -> bool) (l : list A) (a : A) :
  existsb p l = false -> p a = true -> find p (l ++ [a]) = Some a.
Proof.
  induction l as [|x l IH]; simpl; intros H Ha.
  - now rewrite Ha.
  - apply orb_false_iff in H. destruct H as [Hx Hl].
    rewrite Hx. now apply IH.
Qed.

Lemma find_None_existsb {A} (p : A -> bool) (l : list A) :
  find p l = None -> existsb p l = false.
Proof.
  induction l as [|x l IH]; simpl; [reflexivity|].
  destruct (p x); [discriminate|exact IH].
Qed.

Lemma existsb_weaken {A} (p q : A -> bool) (l : list A) :
  existsb q l = false -> existsb (fun x => p x && q x) l = false.
Proof.
  induction l as [|x l IH]; simpl; [reflexivity|].
  intros H. apply orb_false_iff in H. destruct H as [Hx Hl].
  rewrite Hx, (IH Hl). now rewrite andb_false_r.
Qed.

(** No row at all holds the e-mail and the phone of [m]: the unique indexes
    accept it. *)
Lemma check_unique_free (i : Z) (m : Member.t) (tbl : list Member.t)
  (statement : string) (params : list pyobj) :
  find_by_email (Member.email m) tbl = None ->
  match Member.phone m with
  | Some p => find_by_phone p tbl = None
  | None => True
  end ->
  check_unique i m tbl statement params = Ok tt.
Proof.
  intros He Hp. unfold check_unique, email_taken, phone_taken.
  rewrite (existsb_weaken _ _ _ (find_None_existsb _ _ He)).
  destruct (Member.phone m) as [p|]; [|reflexivity].
  now rewrite (existsb_weaken _ _ _ (find_None_existsb _ _ Hp)).
Qed.

End Table.

(* ================================================================== *)
(** * Properties of the CRUD operations *)
(* ================================================================== *)

Ltac break_if :=
  match goal with
  | |- context [if ?b then _ else _] => destruct b eqn:?
  end.

Ltac break_match :=
  match goal with
  | |- context [match ?x with _ => _ end] => destruct x eqn:?
  end.

Lemma validate_member_data_Ok n e p vn ve vp :
  validate_member_data n e p = Ok (vn, ve, vp) ->
  validate_name n = Ok vn /\ validate_email e = Ok ve /\ validate_phone p = Ok vp.
Proof.
  unfold validate_member_data.
  destruct (validate_name n); [|discriminate].
  destruct (validate_email e); [|discriminate].
  destruct (validate_phone p); [|discriminate].
  now intros [= -> -> ->].
Qed.

Lemma validated_email_lower (v : pyobj) (ve : string) :
  validate_email v = Ok ve -> PyStr.lower ve = ve.
Proof.
  intros H. destruct (validate_email_not_str _ _ H) as [s ->].
  rewrite (validate_email_Ok _ _ H). apply PyStrFacts.lower_idem.
Qed.

Lemma validated_phone_truthy (v : pyobj) (p : string) :
  validate_phone v = Ok (Some p) -> PyStr.truthy p = true.
Proof.
  unfold validate_phone. destruct v; try discriminate.
  destruct (PyStr.truthy (PyStr.strip s)) eqn:E; simpl; [|discriminate].
  repeat break_if; try discriminate. now intros [= <-].
Qed.

(** ** Running the session calls *)

Lemma get_member_by_email_run (q : string) (s : Session) :
  get_member_by_email q s =
  (match raises s (log s) (CallExecByEmail (PyStr.lower q)) with
   | Some e => Raise (DatabaseOperationError "get_member_by_email" (exn_str e))
   | None => Ok (find_by_email (PyStr.lower q) (rows s))
   end, logged (CallExecByEmail (PyStr.lower q)) s).
Proof.
  unfold get_member_by_email, try_except, session_exec_by_email, store_call.
  now destruct (raises s (log s) _).
Qed.

Lemma get_member_by_phone_run (p : string) (s : Session) :
  get_member_by_phone p s =
  (match raises s (log s) (CallExecByPhone p) with
   | Some e => Raise (DatabaseOperationError "get_member_by_phone" (exn_str e))
   | None => Ok (find_by_phone p (rows s))
   end, logged (CallExecByPhone p) s).
Proof.
  unfold get_member_by_phone, try_except, session_exec_by_phone, store_call.
  now destruct (raises s (log s) _).
Qed.

Lemma get_member_by_id_run (i : Z) (s : Session) :
  get_member_by_id i s =
  (match raises s (log s) (CallGet i) with
   | Some e => Raise (DatabaseOperationError "get_member_by_id" (exn_str e))
   | None => Ok (find_by_id i (rows s))
   end, logged (CallGet i) s).
Proof.
  unfold get_member_by_id, try_except, session_get, store_call.
  now destruct (raises s (log s) _).
Qed.

Lemma outcome_intro {A} (s s' : Session) (r : result A) calls tbl :
  log s' = (log s ++ calls)%list -> rows s' = tbl ->
  outcome s (r, s') r calls tbl.
Proof. now repeat split. Qed.

Ltac norm_session :=
  unfold logged, with_pending, with_rows;
  cbn [rows pending log raises];
  rewrite <- ?app_assoc; cbn [app].

Lemma create_write_run (s : Session) (vn ve : string) (vp : option string)
  (Hclean : pending s = [])
  (Hadd : forall m, raises s (log s) (CallAdd m) = None)
  (Hrefresh : forall h m, raises s h (CallRefresh m) = None)
  (He : find_by_email ve (rows s) = None)
  (Hp : match vp with Some p => find_by_phone p (rows s) = None | None => True end) :
  let new_member := Member.make None vn ve vp in
  let m := Member.set_id (Some (next_rowid (rows s))) new_member in
  (session_add new_member ;;;
   key <- session_commit ;;
   session_refresh (Member.set_id key new_member)) s =
  match raises s (log s ++ [CallAdd new_member])%list CallCommit with
  | Some e =>
      (Raise e,
       mkSession (rows s) [Insert new_member]
         (log s ++ [CallAdd new_member; CallCommit])%list (raises s))
  | None =>
      (Ok m,
       mkSession (rows s ++ [m])%list []
         (log s ++ [CallAdd new_member; CallCommit; CallRefresh m])%list
         (raises s))
  end.
Proof.
  cbv zeta. unfold bind, session_add, session_commit, session_refresh.
  rewrite store_call_run, Hadd. cbn -[next_rowid apply_changes].
  rewrite Hclean, store_call_run. cbn -[next_rowid].
  destruct (raises s _ CallCommit) as [e|]; [now norm_session|].
  rewrite next_rowid_fresh, check_unique_free by assumption.
  cbn -[next_rowid]. rewrite store_call_run. cbn -[next_rowid]. rewrite Hrefresh.
  unfold find_by_id. rewrite find_app_new;
    [|apply next_rowid_fresh|apply has_id_intro; reflexivity].
  now norm_session.
Qed.

Lemma create_member_run (s : Session) (d : MemberCreate.t)
  (Hclean : pending s = [])
  (Hstore : forall h c, c <> CallCommit -> raises s h c = None) :
  create_member d s =
  match validate_member_data (PyStr (MemberCreate.name d))
          (PyStr (MemberCreate.email d)) (of_option (MemberCreate.phone d)) with
  | Raise e => (Raise e, after s [CallRollback] (rows s))
  | Ok (vn, ve, vp) =>
      match find_by_email ve (rows s) with
      | Some _ =>
          (Raise (MemberAlreadyExistsError "email" (PyStr ve)),
           after s [CallExecByEmail ve; CallRollback] (rows s))
      | None =>
          match match vp with
                | Some p => find_by_phone p (rows s)
                | None => None
                end with
          | Some _ =>
              (Raise (MemberAlreadyExistsError "phone" (of_option vp)),
               after s (create_lookups ve vp ++ [CallRollback]) (rows s))
          | None =>
              let new_member := Member.make None vn ve vp in
              let writes :=
                (create_lookups ve vp ++ [CallAdd new_member; CallCommit])%list in
              match raises s (log s ++ create_lookups ve vp ++ [CallAdd new_member])%list
                      CallCommit with
              | Some e =>
                  create_member_except (Some (ve, vp)) e
                    (mkSession (rows s) [Insert new_member]
                       (log s ++ writes)%list (raises s))
              | None =>
                  let m := Member.set_id (Some (next_rowid (rows s))) new_member in
                  (Ok m, after s (writes ++ [CallRefresh m]) (rows s ++ [m]))
              end
          end
      end
  end.
Proof.
  cbv zeta. unfold create_member, after.
  unfold bind at 1. unfold try_except at 1. unfold lift.
  destruct (validate_member_data _ _ _) as [[[vn ve] vp]|e] eqn:Ev.
  2:{ destruct (validate_member_data_raises _ _ _ _ Ev) as (f & v & rs & ->).
      cbn [create_member_except]. rewrite rollback_raise_run.
      unfold after_rollback. rewrite Hstore by congruence. now norm_session. }
  apply validate_member_data_Ok in Ev. destruct Ev as (_ & Hve & Hvp).
  pose proof (validated_email_lower _ _ Hve) as Hlow.
  unfold try_except. unfold bind at 1. unfold bind at 1.
  rewrite get_member_by_email_run, Hlow, Hstore by congruence.
  destruct (find_by_email ve (rows s)) as [m0|] eqn:Ee.
  { unfold raise at 1. cbn [create_member_except]. rewrite rollback_raise_run.
    unfold after_rollback. cbn [logged log raises rows pending].
    rewrite !Hstore by congruence. now norm_session. }
  unfold ret at 1. unfold bind at 1.
  assert (Hphone :
    (match vp with
     | Some p =>
         if PyStr.truthy p then
           existing_member_by_phone <- get_member_by_phone p ;;
           match existing_member_by_phone with
           | Some _ => raise (MemberAlreadyExistsError "phone" (PyStr p))
           | None => ret tt
           end
         else ret tt
     | None => ret tt
     end) (logged (CallExecByEmail ve) s)
    = (match match vp with Some p => find_by_phone p (rows s) | None => None end with
       | Some _ => Raise (MemberAlreadyExistsError "phone" (of_option vp))
       | None => Ok tt
       end,
       mkSession (rows s) (pending s) (log s ++ create_lookups ve vp)%list (raises s))).
  { destruct vp as [p|]; [|reflexivity].
    rewrite (validated_phone_truthy _ _ Hvp).
    unfold bind. rewrite get_member_by_phone_run.
    cbn [logged rows pending log raises]. rewrite Hstore by congruence.
    cbn. destruct (find_by_phone p (rows s)); unfold raise, ret; now norm_session. }
  rewrite Hphone. clear Hphone.
  destruct (match vp with Some p => find_by_phone p (rows s) | None => None end) eqn:Ep.
  { cbn [create_member_except]. rewrite rollback_raise_run.
    unfold after_rollback. cbn [logged log raises rows pending].
    rewrite !Hstore by congruence. now norm_session. }
  rewrite create_write_run; cbn [rows pending log raises]; auto;
    try (intros; apply Hstore; congruence).
  2:{ destruct vp; [exact Ep|exact I]. }
  rewrite <- app_assoc.
  destruct (raises s _ CallCommit) as [e|]; now norm_session.
Qed.

Lemma commit_raises_only_commit (e : exn) (h : list call) (c : call) :
  c <> CallCommit -> commit_raises e h c = None.
Proof. destruct c; try reflexivity. intros H. now elim H. Qed.

(** ** The field of a conflict at commit time *)

Lemma prefix_app (n a b : string) :
  String.prefix n a = true -> String.prefix n (a ++ b) = true.
Proof.
  revert a. induction n as [|c n IH]; intros a; [now destruct (a ++ b)|].
  destruct a as [|x a]; cbn; [discriminate|].
  destruct (ascii_dec c x); [apply IH|discriminate].
Qed.

Lemma contains_app_l (n a b : string) :
  PyStr.contains n a = true -> PyStr.contains n (a ++ b) = true.
Proof.
  induction a as [|x a IH]; cbn [PyStr.contains append].
  - rewrite orb_false_r. intros H. destruct n; [|discriminate].
    now destruct b.
  - intros H. apply orb_true_iff in H. apply orb_true_iff.
    destruct H as [H|H]; [left|right; now apply IH].
    exact (prefix_app n (String x a) b H).
Qed.

Lemma contains_app_r (n a b : string) :
  PyStr.contains n b = true -> PyStr.contains n (a ++ b) = true.
Proof.
  intros H. induction a as [|x a IH]; [exact H|].
  cbn [PyStr.contains append]. rewrite IH. apply orb_true_r.
Qed.

Lemma lower_app (a b : string) :
  PyStr.lower (a ++ b) = PyStr.lower a ++ PyStr.lower b.
Proof. induction a as [|x a IH]; cbn; [reflexivity|]. now rewrite IH. Qed.

(** The text of an [IntegrityError] on the [INSERT] of a new member names
    the column [email], whatever SQLite complains about. *)
Lemma insert_error_names_email (message : string) (m : Member.t) :
  Member.id m = None ->
  PyStr.contains "email"
    (PyStr.lower (integrity_text message (insert_statement m) (insert_params m)))
  = true.
Proof.
  unfold integrity_text, insert_statement. intros ->.
  rewrite !lower_app.
  apply contains_app_r, contains_app_r, contains_app_r, contains_app_r.
  apply contains_app_l. reflexivity.
Qed.

(** However the commit of a new member is refused by the unique indexes,
    [create_member] reports the e-mail: on a session without uncommitted
    work and a store on which only the commit can fail, for a valid input
    whose e-mail and phone are free at the pre-checks. *)
Lemma commit_conflict_reported_on_email (s : Session) (d : MemberCreate.t)
  (vn ve : string) (vp : option string) (message : string)
  (Hclean : pending s = [])
  (Hstore : forall h c, c <> CallCommit -> raises s h c = None) :
  let new_member := Member.make None vn ve vp in
  validate_member_data (PyStr (MemberCreate.name d))
    (PyStr (MemberCreate.email d)) (of_option (MemberCreate.phone d))
  = Ok (vn, ve, vp) ->
  find_by_email ve (rows s) = None ->
  match vp with Some p => find_by_phone p (rows s) | None => None end = None ->
  raises s (log s ++ create_lookups ve vp ++ [CallAdd new_member])%list CallCommit
  = Some (integrity_error message (insert_statement new_member)
            (insert_params new_member)) ->
  fst (create_member d s)
  = Raise (MemberAlreadyExistsError "email" (PyStr ve))
  /\ rows (snd (create_member d s)) = rows s.
Proof.
  cbv zeta. intros Hv He Hp Hc.
  rewrite (create_member_run s d Hclean Hstore), Hv, He, Hp. cbv zeta.
  rewrite Hc. unfold integrity_error.
  cbn [create_member_except exn_str].
  rewrite insert_error_names_email by reflexivity.
  rewrite rollback_raise_run.
  cbn [log raises]. rewrite Hstore by congruence.
  unfold after_rollback. cbn [log raises]. rewrite Hstore by congruence.
  split; reflexivity.
Qed.

(** C1, at the input where the code departs from it.  Steps 1 to 4 are as
    the claim says ([create_member_run]).  At step 5 the handler looks for
    the word [email], then for the word [phone], in the text of the store's
    error; that text holds the statement, which names both columns.  So
    when a concurrent writer takes the phone of [john] between the
    pre-check and the commit, and the store refuses the commit for the
    phone, [create_member] rolls back and reports that the e-mail already
    exists, although no row holds it. *)
Theorem create_reports_email_for_phone_conflict :
  raises racing_session
    [CallExecByEmail "john@example.com"; CallExecByPhone "+1-234-567-8901";
     CallAdd (Member.make None "John Doe" "john@example.com"
                (Some "+1-234-567-8901"))]
    CallCommit
  = Some phone_conflict
  /\ PyStr.startswith
       "(sqlite3.IntegrityError) UNIQUE constraint failed: members.phone"
       (exn_str phone_conflict) = true
  /\ PyStr.contains "members.email" (exn_str phone_conflict) = false
  /\ find_by_email "john@example.com" (rows racing_session) = None
  /\ outcome racing_session (create_member john racing_session)
       (Raise (MemberAlreadyExistsError "email" (PyStr "john@example.com")))
       [CallExecByEmail "john@example.com";
        CallExecByPhone "+1-234-567-8901";
        CallAdd (Member.make None "John Doe" "john@example.com"
                   (Some "+1-234-567-8901"));
        CallCommit; CallRollback]
       [].
Proof. repeat split; vm_compute; reflexivity. Qed.

(** ** A member that was created *)

Lemma truthy_normalized (s : string) :
  PyStr.truthy (PyStr.lower (PyStr.strip s)) = true -> PyStr.truthy s = true.
Proof. now destruct s. Qed.

(** Two inputs with the same normal form are accepted alike. *)
Lemma validate_email_same_normal (a b n : string) :
  validate_email (PyStr a) = Ok n ->
  PyStr.lower (PyStr.strip b) = n ->
  validate_email (PyStr b) = Ok n.
Proof.
  intros Ha Hb. pose proof (validate_email_Ok _ _ Ha) as Hn.
  revert Ha. unfold validate_email. rewrite Hb, <- Hn.
  destruct (PyStr.truthy a); simpl; [|discriminate].
  destruct (PyStr.truthy n) eqn:Et; simpl; [|discriminate].
  rewrite <- Hb in Et. rewrite (truthy_normalized _ Et). cbn [negb].
  repeat break_if; try discriminate; reflexivity.
Qed.

Lemma fault_free_only_commit (s : Session) :
  (forall h c, raises s h c = None) ->
  forall h c, c <> CallCommit -> raises s h c = None.
Proof. auto. Qed.

(** C3, as amended.  After [create_member] succeeded on a session without
    uncommitted work and a store that answers: the stored e-mail is the
    trimmed, lower-cased input; [get_member_by_email] returns the created
    member for the stored e-mail in any letter case; and a second
    [create_member] whose e-mail is the stored one once trimmed and
    lower-cased, and whose name and phone pass validation, fails with
    [MemberAlreadyExistsError] on [email]. *)
Theorem created_member_found_and_email_taken
  (s s1 : Session) (d : MemberCreate.t) (m : Member.t)
  (Hclean : pending s = [])
  (Hstore : forall h c, raises s h c = None)
  (Hcreate : create_member d s = (Ok m, s1)) :
  Member.email m = PyStr.lower (PyStr.strip (MemberCreate.email d))
  /\ (forall q, PyStr.lower q = Member.email m ->
        fst (get_member_by_email q s1) = Ok (Some m))
  /\ (forall d2,
        PyStr.lower (PyStr.strip (MemberCreate.email d2)) = Member.email m ->
        (exists vn, validate_name (PyStr (MemberCreate.name d2)) = Ok vn) ->
        (exists vp, validate_phone (of_option (MemberCreate.phone d2)) = Ok vp) ->
        fst (create_member d2 s1)
        = Raise (MemberAlreadyExistsError "email" (PyStr (Member.email m)))).
Proof.
  rewrite (create_member_run s d Hclean (fault_free_only_commit s Hstore))
    in Hcreate.
  destruct (validate_member_data _ _ _) as [[[vn ve] vp]|e] eqn:Ev;
    [|discriminate].
  destruct (find_by_email ve (rows s)) eqn:Ee; [discriminate|].
  destruct (match vp with Some p => find_by_phone p (rows s) | None => None end);
    [discriminate|].
  cbv zeta in Hcreate. rewrite Hstore in Hcreate.
  injection Hcreate as <- <-.
  apply validate_member_data_Ok in Ev. destruct Ev as (_ & Hve & _).
  assert (Hfound : find_by_email ve
            (rows s ++ [Member.set_id (Some (next_rowid (rows s)))
                          (Member.make None vn ve vp)])
          = Some (Member.set_id (Some (next_rowid (rows s)))
                    (Member.make None vn ve vp))).
  { apply find_app_new; [now apply find_None_existsb|apply String.eqb_refl]. }
  cbn [Member.email Member.set_id]. split; [|split].
  - exact (validate_email_Ok _ _ Hve).
  - intros q Hq. rewrite get_member_by_email_run. cbn [fst after raises rows].
    now rewrite Hstore, Hq, Hfound.
  - intros d2 Hd2 [vn2 Hn2] [vp2 Hp2].
    rewrite create_member_run; [|reflexivity|intros; apply Hstore].
    unfold validate_member_data.
    rewrite Hn2, (validate_email_same_normal _ _ _ Hve Hd2), Hp2.
    cbn [after rows]. now rewrite Hfound.
Qed.

Lemma created_member_found_and_email_taken_witness :
  pending (open_session []) = []
  /\ (forall h c, raises (open_session []) h c = None)
  /\ create_member john (open_session []) = (Ok john_row, john_session)
  /\ Member.email john_row = PyStr.lower (PyStr.strip (MemberCreate.email john))
  /\ fst (get_member_by_email "John@Example.COM" john_session) = Ok (Some john_row)
  /\ fst (create_member (MemberCreate.make "Jane Smith" " john@EXAMPLE.com " None)
            john_session)
     = Raise (MemberAlreadyExistsError "email" (PyStr "john@example.com")).
Proof.
  assert (Hrun : create_member john (open_session []) = (Ok john_row, john_session))
    by reflexivity.
  destruct (created_member_found_and_email_taken (open_session []) john_session
              john john_row eq_refl (fun _ _ => eq_refl) Hrun)
    as (Hemail & Hfind & Hagain).
  split; [reflexivity|]. split; [reflexivity|]. split; [exact Hrun|].
  split; [exact Hemail|]. split.
  - apply Hfind. reflexivity.
  - apply (Hagain (MemberCreate.make "Jane Smith" " john@EXAMPLE.com " None)).
    + reflexivity.
    + eexists. reflexivity.
    + eexists. reflexivity.
Defined.

(** C3, as first stated, fails in two ways.  A second [create_member] with
    the same e-mail and a name of one character fails with
    [InvalidMemberDataError] on [name]: the name is validated before the
    e-mail is looked up.  And for an input e-mail with white space around
    it, the stored e-mail is not the lower-cased input, and
    [get_member_by_email] of the input finds nothing: the stored form is
    trimmed, the lookup only lower-cases. *)
Lemma created_member_claim_fails :
  (create_member john (open_session []) = (Ok john_row, john_session)
   /\ PyStr.lower (PyStr.strip "john@example.com") = Member.email john_row
   /\ fst (create_member (MemberCreate.make "A" "john@example.com" None)
             john_session)
      = Raise (InvalidMemberDataError "name" "A"
                 "Name must be at least 2 characters long"))
  /\ (create_member padded_john (open_session []) = (Ok john_row, john_session)
      /\ Member.email john_row <> PyStr.lower (MemberCreate.email padded_john)
      /\ fst (get_member_by_email (MemberCreate.email padded_john) john_session)
         = Ok None).
Proof. repeat split. discriminate. Qed.

(** ** The blocks of [update_member] *)

Lemma update_member_blocks (member_id : Z) (member_data : MemberUpdate.t) :
  update_member member_id member_data =
  (existing_member <- update_find member_id ;;
   update_data <- update_name member_data UpdateData.empty ;;
   update_data <- update_email member_id member_data update_data ;;
   update_data <- update_phone member_id member_data update_data ;;
   update_write update_data existing_member).
Proof. reflexivity. Qed.

Lemma quiet_refl s : quiet s s.
Proof. now repeat split. Qed.

Lemma quiet_logged c s : quiet s (logged c s).
Proof. now repeat split. Qed.

Lemma quiet_trans s1 s2 s3 : quiet s1 s2 -> quiet s2 s3 -> quiet s1 s3.
Proof. unfold quiet. intuition congruence. Qed.

Lemma quiet_rolled_back s1 s2 s3 :
  quiet s1 s2 -> rolled_back s2 s3 -> rolled_back s1 s3.
Proof. unfold quiet, rolled_back. intuition congruence. Qed.

(** Every handler calls for a rollback and raises. *)
Lemma update_member_except_run {A} ud (e : exn) (s : Session) :
  exists e', @update_member_except A ud e s = (Raise e', after_rollback s).
Proof.
  unfold update_member_except.
  destruct e; repeat break_if; try destruct ud;
    rewrite rollback_raise_run; eexists; reflexivity.
Qed.

Lemma create_member_except_run {A} v (e : exn) (s : Session) :
  exists e', @create_member_except A v e s = (Raise e', after_rollback s).
Proof.
  unfold create_member_except.
  destruct e; repeat break_if; try destruct v as [[? ?]|];
    rewrite rollback_raise_run; eexists; reflexivity.
Qed.

Lemma delete_member_except_run {A} (e : exn) (s : Session) :
  exists e', @delete_member_except A e s = (Raise e', after_rollback s).
Proof.
  unfold delete_member_except.
  destruct e; rewrite rollback_raise_run; eexists; reflexivity.
Qed.

Lemma rolled_back_rollback s : rolled_back s (after_rollback s).
Proof.
  unfold after_rollback. now destruct (raises s (log s) CallRollback).
Qed.

Lemma after_rollback_rows s : rows (after_rollback s) = rows s.
Proof. apply rolled_back_rollback. Qed.

Lemma after_rollback_raises s : raises (after_rollback s) = raises s.
Proof. apply rolled_back_rollback. Qed.

Lemma block_try_except {A} tbl (b : M A) ud post :
  reads tbl b post -> block tbl (try_except b (update_member_except ud)) post.
Proof.
  intros Hb s r s' Hs H. apply try_except_inv in H.
  destruct H as [(a & H & ->)|(e & s1 & H & Hh)].
  - exact (Hb _ _ _ Hs H).
  - destruct (Hb _ _ _ Hs H) as [Hq _].
    destruct (update_member_except_run (A:=A) ud e s1) as [e' He'].
    rewrite He' in Hh. injection Hh as <- <-.
    eapply quiet_rolled_back; [exact Hq|apply rolled_back_rollback].
Qed.

Lemma reads_ret {A} tbl (a : A) (post : A -> Prop) :
  post a -> reads tbl (ret a) post.
Proof. intros H s r s' _ [= <- <-]. split; [apply quiet_refl|apply H]. Qed.

Lemma reads_raise {A} tbl (e : exn) (post : A -> Prop) :
  reads tbl (raise e) post.
Proof. intros s r s' _ [= <- <-]. split; [apply quiet_refl|exact I]. Qed.

Lemma reads_lift {A} tbl (x : result A) :
  reads tbl (lift x) (fun a => x = Ok a).
Proof.
  intros s r s' _ [= <- <-]. split; [apply quiet_refl|]. now destruct x.
Qed.

Lemma reads_bind {A B} tbl (m : M A) (k : A -> M B) pa (pb : B -> Prop) :
  reads tbl m pa -> (forall a, pa a -> reads tbl (k a) pb) ->
  reads tbl (bind m k) pb.
Proof.
  intros Hm Hk s r s' Hs H. apply bind_inv in H.
  destruct H as [(a & s1 & H1 & H2)|(e & H1 & ->)].
  - destruct (Hm _ _ _ Hs H1) as [Hq Hpa].
    assert (Hs1 : rows s1 = tbl) by (destruct Hq as [-> _]; exact Hs).
    destruct (Hk a Hpa _ _ _ Hs1 H2) as [Hq' Hpb].
    split; [eapply quiet_trans; eassumption|exact Hpb].
  - destruct (Hm _ _ _ Hs H1) as [Hq _]. now split.
Qed.

Lemma reads_get_member_by_id tbl i :
  reads tbl (get_member_by_id i) (fun r => r = find_by_id i tbl).
Proof.
  intros s r s' <-. rewrite get_member_by_id_run.
  destruct (raises s (log s) _); intros [= <- <-]; split;
    auto using quiet_logged.
Qed.

Lemma reads_get_member_by_email tbl q :
  reads tbl (get_member_by_email q)
        (fun r => r = find_by_email (PyStr.lower q) tbl).
Proof.
  intros s r s' <-. rewrite get_member_by_email_run.
  destruct (raises s (log s) _); intros [= <- <-]; split;
    auto using quiet_logged.
Qed.

Lemma reads_get_member_by_phone tbl p :
  reads tbl (get_member_by_phone p) (fun r => r = find_by_phone p tbl).
Proof.
  intros s r s' <-. rewrite get_member_by_phone_run.
  destruct (raises s (log s) _); intros [= <- <-]; split;
    auto using quiet_logged.
Qed.

Lemma block_update_find tbl i :
  block tbl (update_find i) (fun m => find_by_id i tbl = Some m).
Proof.
  apply block_try_except.
  eapply reads_bind; [apply reads_get_member_by_id|].
  intros a ->. destruct (find_by_id i tbl);
    [now apply reads_ret|apply reads_raise].
Qed.

Lemma block_update_name tbl d ud :
  block tbl (update_name d ud) (name_entry d ud).
Proof.
  apply block_try_except. unfold name_entry.
  destruct (MemberUpdate.name d) as [n|]; [|now apply reads_ret].
  eapply reads_bind; [apply reads_lift|].
  intros [[vn ve] vp] Hv.
  apply validate_member_data_Ok in Hv. destruct Hv as (Hn & _ & _).
  apply reads_ret. cbn. eauto.
Qed.

Lemma block_update_email tbl i d ud :
  block tbl (update_email i d ud) (email_entry d ud).
Proof.
  apply block_try_except. unfold email_entry.
  destruct (MemberUpdate.email d) as [x|]; [|now apply reads_ret].
  eapply reads_bind; [apply reads_lift|].
  intros [[vn ve] vp] Hv. cbn [fst snd].
  apply validate_member_data_Ok in Hv. destruct Hv as (_ & He & _).
  eapply reads_bind; [apply reads_get_member_by_email|]. intros a _.
  eapply reads_bind with (pa := fun _ => True).
  - destruct a as [other|]; [|now apply reads_ret].
    destruct (negb (Member.has_id i other)); [apply reads_raise|now apply reads_ret].
  - intros _ _. apply reads_ret. eauto.
Qed.

Lemma block_update_phone tbl i d ud :
  block tbl (update_phone i d ud) (phone_entry d ud).
Proof.
  apply block_try_except. unfold phone_entry.
  destruct (MemberUpdate.phone d) as [w|]; [|now apply reads_ret].
  eapply reads_bind; [apply reads_lift|].
  intros [[vn ve] vp] Hv. cbn [fst snd].
  apply validate_member_data_Ok in Hv. destruct Hv as (_ & _ & Hp).
  eapply reads_bind with (pa := fun _ => True).
  - destruct vp as [p|]; [|now apply reads_ret].
    destruct (PyStr.truthy p); [|now apply reads_ret].
    eapply reads_bind; [apply reads_get_member_by_phone|]. intros a _.
    destruct a as [other|]; [|now apply reads_ret].
    destruct (negb (Member.has_id i other)); [apply reads_raise|now apply reads_ret].
  - intros _ _. apply reads_ret. eauto.
Qed.

Ltac break_match_in H :=
  match type of H with
  | context [match ?x with _ => _ end] => destruct x eqn:?
  end.

Lemma apply_id (ud : UpdateData.t) (m : Member.t) :
  Member.id (UpdateData.apply ud m) = Member.id m.
Proof.
  unfold UpdateData.apply.
  destruct (UpdateData.name ud), (UpdateData.email ud), (UpdateData.phone ud);
    reflexivity.
Qed.

(** A row that differs from the loaded one in no column is that row. *)
Lemma changed_columns_nil (old m : Member.t) :
  changed_columns old m = [] -> Member.id m = Member.id old -> m = old.
Proof.
  unfold changed_columns. destruct old as [i n e p], m as [i' n' e' p']. cbn.
  destruct (n =? n')%string eqn:En; [|discriminate].
  destruct (e =? e')%string eqn:Ee; [|discriminate].
  apply String.eqb_eq in En, Ee. subst. cbn.
  destruct p as [p|], p' as [p'|]; try discriminate.
  - destruct (p =? p')%string eqn:Ep; [|discriminate].
    apply String.eqb_eq in Ep. now intros _ ->; subst.
  - now intros _ ->.
Qed.

Lemma find_by_id_update_rows (i : Z) (m m' : Member.t) (tbl : list Member.t) :
  find_by_id i tbl = Some m -> Member.id m' = Some i ->
  find_by_id i (update_rows i m m' tbl) = Some m'.
Proof.
  intros Hm Hid. unfold update_rows.
  destruct (changed_columns m m') eqn:E.
  - rewrite (changed_columns_nil m m' E); [exact Hm|].
    apply find_by_id_Some in Hm. destruct Hm as [_ Hm]. congruence.
  - exact (find_by_id_replace_row i m m' _ Hm (has_id_intro _ _ Hid)).
Qed.

(** The [UPDATE] of a row that is in the table. *)
Lemma apply_change_update (i : Z) (m m' : Member.t) (tbl tbl' : list Member.t) k :
  find_by_id i tbl = Some m ->
  apply_change (Update i m') tbl = Ok (tbl', k) ->
  tbl' = update_rows i m m' tbl.
Proof.
  intros Hm. cbn [apply_change]. rewrite Hm. unfold update_rows.
  destruct (changed_columns m m') as [|c cs]; [now intros [= <- _]|].
  destruct (check_unique _ _ _ _ _); [|discriminate]. now intros [= <- _].
Qed.

(** The write step of [update_member] for the row [m'] of key [i], on a
    session without uncommitted work. *)
Lemma update_write_body_run (s : Session) (i : Z) (m m' : Member.t)
  (Hclean : pending s = [])
  (Hm : find_by_id i (rows s) = Some m)
  (Hid : Member.id m' = Some i) :
  (session_add m' ;;; _ <- session_commit ;; session_refresh m') s =
  match raises s (log s) (CallAdd m') with
  | Some e => (Raise e, logged (CallAdd m') s)
  | None =>
      let failed :=
        mkSession (rows s) [Update i m']
          (log s ++ [CallAdd m'; CallCommit])%list (raises s) in
      match raises s (log s ++ [CallAdd m'])%list CallCommit with
      | Some e => (Raise e, failed)
      | None =>
          match apply_change (Update i m') (rows s) with
          | Raise e => (Raise e, failed)
          | Ok _ =>
              let s' := mkSession (update_rows i m m' (rows s)) []
                          (log s ++ [CallAdd m'; CallCommit; CallRefresh m'])%list
                          (raises s) in
              match raises s (log s ++ [CallAdd m'; CallCommit])%list
                      (CallRefresh m') with
              | Some e => (Raise e, s')
              | None => (Ok m', s')
              end
          end
      end
  end.
Proof.
  cbv zeta. unfold bind, session_add, session_commit, session_refresh.
  rewrite store_call_run.
  destruct (raises s (log s) (CallAdd m')); [reflexivity|].
  rewrite Hid, store_call_run.
  cbn [app logged with_pending log raises rows pending]. rewrite Hclean.
  cbn [app].
  destruct (raises s _ CallCommit) as [e|]; [now norm_session|].
  cbn [apply_changes].
  destruct (apply_change (Update i m') (rows s)) as [[tbl k]|e] eqn:Ec;
    [|now norm_session].
  rewrite (apply_change_update i m m' _ _ _ Hm Ec).
  rewrite store_call_run. norm_session.
  destruct (raises s _ (CallRefresh m')) as [e|]; [reflexivity|].
  rewrite (find_by_id_update_rows i m m' _ Hm Hid).
  reflexivity.
Qed.

(** What an [update_member] whose lookup succeeded does to the table: it
    leaves it alone and fails, or it writes the row; in the latter case it
    returns the row unless reading it again failed. *)
Lemma update_write_effect (s : Session) (i : Z) (m : Member.t)
  (ud : UpdateData.t) r s'
  (Hclean : pending s = [])
  (Hm : find_by_id i (rows s) = Some m) :
  update_write ud m s = (r, s') ->
  let m' := UpdateData.apply ud m in
  raises s' = raises s
  /\ ((exists e, r = Raise e /\ rows s' = rows s)
      \/ (rows s' = update_rows i m m' (rows s)
          /\ (r = Ok m'
              \/ exists e x h, r = Raise e
                               /\ raises s h (CallRefresh m') = Some x))).
Proof.
  intros H. cbv zeta. unfold update_write in H. cbv zeta in H.
  assert (Hid : Member.id (UpdateData.apply ud m) = Some i).
  { rewrite apply_id. now apply find_by_id_Some in Hm. }
  apply try_except_inv in H.
  rewrite (update_write_body_run s i m _ Hclean Hm Hid) in H.
  cbv zeta in H.
  destruct H as [(a & H & ->)|(e & s1 & H & Hh)].
  - repeat break_match_in H; try discriminate.
    injection H as <- <-. cbn. auto 6.
  - destruct (update_member_except_run (A:=Member.t) (Some ud) e s1) as [e' He'].
    rewrite He' in Hh. injection Hh as <- <-.
    rewrite after_rollback_rows, after_rollback_raises.
    repeat break_match_in H; try discriminate; injection H as <- <-; cbn;
      repeat split; eauto 10.
Qed.

Lemma validated_update_inv (d : MemberUpdate.t) (ud : UpdateData.t) :
  validated_update d ud -> payload_valid d /\ ud = update_data_of d.
Proof.
  unfold validated_update, name_entry, email_entry, phone_entry,
    payload_valid, update_data_of, validated_field, field_valid.
  intros (ud1 & ud2 & Hn & He & Hp).
  destruct (MemberUpdate.name d) as [n|];
    [destruct Hn as (vn & Hn & ->); rewrite Hn|subst ud1];
  (destruct (MemberUpdate.email d) as [x|];
    [destruct He as (ve & He & ->); rewrite He|subst ud2]);
  (destruct (MemberUpdate.phone d) as [w|];
    [destruct Hp as (vp & Hp & ->); rewrite Hp|subst ud]);
  repeat split; eauto.
Qed.

Lemma update_member_effect (s : Session) (i : Z) (d : MemberUpdate.t)
  (m : Member.t) r s'
  (Hclean : pending s = [])
  (Hm : find_by_id i (rows s) = Some m) :
  update_member i d s = (r, s') -> update_effect s i d m r s'.
Proof.
  rewrite update_member_blocks. intros H.
  assert (Hfail : forall s0 s1 e, quiet s s0 -> rolled_back s0 s1 ->
            update_effect s i d m (Raise e) s1).
  { intros s0 s1 e Hq Hr.
    destruct (quiet_rolled_back _ _ _ Hq Hr) as (Hrows & Hrs).
    repeat split; eauto. }
  apply bind_inv in H. destruct H as [(m0 & s0 & H0 & H)|(e & H0 & ->)].
  2:{ apply (block_update_find (rows s)) in H0; [|reflexivity].
      exact (Hfail _ _ e (quiet_refl s) H0). }
  apply (block_update_find (rows s)) in H0; [|reflexivity].
  destruct H0 as [Hq0 Hm0]. rewrite Hm in Hm0. injection Hm0 as <-.
  apply bind_inv in H. destruct H as [(ud1 & s1 & H1 & H)|(e & H1 & ->)].
  2:{ apply (block_update_name (rows s0)) in H1; [|reflexivity].
      exact (Hfail _ _ e Hq0 H1). }
  apply (block_update_name (rows s0)) in H1; [|reflexivity].
  destruct H1 as [Hq1 Hn]. pose proof (quiet_trans _ _ _ Hq0 Hq1) as Hq01.
  apply bind_inv in H. destruct H as [(ud2 & s2 & H2 & H)|(e & H2 & ->)].
  2:{ apply (block_update_email (rows s1)) in H2; [|reflexivity].
      exact (Hfail _ _ e Hq01 H2). }
  apply (block_update_email (rows s1)) in H2; [|reflexivity].
  destruct H2 as [Hq2 He]. pose proof (quiet_trans _ _ _ Hq01 Hq2) as Hq02.
  apply bind_inv in H. destruct H as [(ud3 & s3 & H3 & H)|(e & H3 & ->)].
  2:{ apply (block_update_phone (rows s2)) in H3; [|reflexivity].
      exact (Hfail _ _ e Hq02 H3). }
  apply (block_update_phone (rows s2)) in H3; [|reflexivity].
  destruct H3 as [Hq3 Hp]. pose proof (quiet_trans _ _ _ Hq02 Hq3) as Hq03.
  destruct Hq03 as (Hrows & Hpend & Hrs).
  apply (update_write_effect s3 i m ud3) in H;
    [|congruence|now rewrite Hrows].
  cbv zeta in H. rewrite Hrows, Hrs in H.
  destruct H as (Hr' & [(e & -> & Ht)|(Ht & Hres)]).
  - repeat split; eauto.
  - destruct (validated_update_inv d ud3) as [Hv ->];
      [now exists ud1, ud2|].
    repeat split; auto.
Qed.

Lemma updated_id d m : Member.id (updated d m) = Member.id m.
Proof. apply apply_id. Qed.

Lemma updated_name_kept d m :
  MemberUpdate.name d = None -> Member.name (updated d m) = Member.name m.
Proof.
  unfold updated, update_data_of, UpdateData.apply. cbn. intros ->. cbn.
  now destruct (validated_field _ (MemberUpdate.email d)),
               (validated_field _ (MemberUpdate.phone d)).
Qed.

Lemma updated_email_kept d m :
  MemberUpdate.email d = None -> Member.email (updated d m) = Member.email m.
Proof.
  unfold updated, update_data_of, UpdateData.apply. cbn. intros ->. cbn.
  now destruct (validated_field _ (MemberUpdate.name d)),
               (validated_field _ (MemberUpdate.phone d)).
Qed.

Lemma updated_phone_kept d m :
  MemberUpdate.phone d = None -> Member.phone (updated d m) = Member.phone m.
Proof.
  unfold updated, update_data_of, UpdateData.apply. cbn. intros ->. cbn.
  now destruct (validated_field _ (MemberUpdate.name d)),
               (validated_field _ (MemberUpdate.email d)).
Qed.

Lemma updated_phone_supplied d m w v :
  MemberUpdate.phone d = Some w -> validate_phone (PyStr w) = Ok v ->
  Member.phone (updated d m) = v.
Proof.
  unfold updated, update_data_of, UpdateData.apply. cbn. intros -> Hv. cbn.
  rewrite Hv.
  now destruct (validated_field _ (MemberUpdate.name d)),
               (validated_field _ (MemberUpdate.email d)).
Qed.

(** C4.  For every existing member and every [update_member] call, whatever
    the store does and whether the call succeeds or fails, the fields that
    the payload does not supply keep their values: the row of that id is
    still there with the same id, a name, e-mail or phone that was not
    supplied is the one from before the call, a member that is returned is
    that row, and a subsequent [get_member_by_id] that answers returns it.
    In particular an update that supplies only a name leaves e-mail and
    phone unchanged. *)
Theorem update_keeps_unsupplied_fields (s : Session) (i : Z)
  (d : MemberUpdate.t) (m : Member.t)
  (Hclean : pending s = [])
  (Hm : find_by_id i (rows s) = Some m) :
  let r := fst (update_member i d s) in
  let s' := snd (update_member i d s) in
  exists m',
    find_by_id i (rows s') = Some m'
    /\ Member.id m' = Member.id m
    /\ (MemberUpdate.name d = None -> Member.name m' = Member.name m)
    /\ (MemberUpdate.email d = None -> Member.email m' = Member.email m)
    /\ (MemberUpdate.phone d = None -> Member.phone m' = Member.phone m)
    /\ (forall ret, r = Ok ret -> ret = m')
    /\ (forall found s'', get_member_by_id i s' = (Ok found, s'') ->
          found = Some m').
Proof.
  cbv zeta. destruct (update_member i d s) as [r s'] eqn:E. cbn [fst snd].
  assert (Hget : forall m', find_by_id i (rows s') = Some m' ->
            forall found s'', get_member_by_id i s' = (Ok found, s'') ->
            found = Some m').
  { intros m' Hm' found s''. rewrite get_member_by_id_run, Hm'.
    destruct (raises s' _ _); [discriminate|]. now intros [= <- _]. }
  destruct (update_member_effect s i d m r s' Hclean Hm E)
    as (_ & [(e & -> & Hrows)|(_ & Hrows & Hres)]).
  - assert (Hfound : find_by_id i (rows s') = Some m) by now rewrite Hrows.
    exists m. repeat split; auto; [discriminate|now apply Hget].
  - assert (Hfound : find_by_id i (rows s') = Some (updated d m)).
    { rewrite Hrows. apply (find_by_id_update_rows i m); [exact Hm|].
      rewrite updated_id. now apply find_by_id_Some in Hm. }
    exists (updated d m). split; [exact Hfound|].
    split; [apply updated_id|].
    split; [apply updated_name_kept|].
    split; [apply updated_email_kept|].
    split; [apply updated_phone_kept|].
    split; [|now apply Hget].
    destruct Hres as [->|(e & _ & _ & -> & _)]; [now intros ret [= <-]|discriminate].
Qed.

Lemma update_keeps_unsupplied_fields_witness :
  pending two_members = []
  /\ find_by_id 1 (rows two_members) = Some john_row
  /\ exists m',
       find_by_id 1 (rows (snd (update_member 1 rename_only two_members))) = Some m'
       /\ Member.id m' = Member.id john_row
       /\ (MemberUpdate.name rename_only = None ->
           Member.name m' = Member.name john_row)
       /\ (MemberUpdate.email rename_only = None ->
           Member.email m' = Member.email john_row)
       /\ (MemberUpdate.phone rename_only = None ->
           Member.phone m' = Member.phone john_row)
       /\ (forall ret, fst (update_member 1 rename_only two_members) = Ok ret ->
           ret = m')
       /\ (forall found s'',
             get_member_by_id 1 (snd (update_member 1 rename_only two_members))
             = (Ok found, s'') -> found = Some m').
Proof.
  split; [reflexivity|]. split; [reflexivity|].
  exact (update_keeps_unsupplied_fields two_members 1 rename_only john_row
           eq_refl eq_refl).
Defined.

(** ** An update that succeeds *)

Lemma check_unique_held_by (i : Z) (m : Member.t) (tbl : list Member.t)
  (statement : string) (params : list pyobj) :
  email_held_by i (Member.email m) tbl ->
  phone_held_by i (Member.phone m) tbl ->
  check_unique i m tbl statement params = Ok tt.
Proof.
  intros He Hp. unfold check_unique.
  assert (E1 : email_taken i m tbl = false).
  { apply not_true_is_false. intros H. apply existsb_exists in H.
    destruct H as (r & Hin & H). apply andb_true_iff in H. destruct H as [Ho Hr].
    apply has_email_inv in Hr. unfold other_row in Ho.
    now rewrite (has_id_intro _ _ (He r Hin Hr)) in Ho. }
  assert (E2 : phone_taken i m tbl = false).
  { unfold phone_taken. destruct (Member.phone m) as [p|] eqn:Em; [|reflexivity].
    apply not_true_is_false. intros H. apply existsb_exists in H.
    destruct H as (r & Hin & H). apply andb_true_iff in H. destruct H as [Ho Hr].
    apply has_phone_inv in Hr. unfold other_row in Ho.
    now rewrite (has_id_intro _ _ (Hp p r eq_refl Hin Hr)) in Ho. }
  now rewrite E1, E2.
Qed.

Lemma validate_dummy_name : validate_name (PyStr "Dummy") = Ok "Dummy".
Proof. reflexivity. Qed.

Lemma validate_dummy_email :
  validate_email (PyStr "dummy@example.com") = Ok "dummy@example.com".
Proof. reflexivity. Qed.

Lemma update_find_ok (s : Session) (i : Z) (m : Member.t) :
  (forall h c, raises s h c = None) ->
  find_by_id i (rows s) = Some m ->
  exists s1, update_find i s = (Ok m, s1) /\ quiet s s1.
Proof.
  intros Hstore Hm. unfold update_find, try_except, bind.
  rewrite get_member_by_id_run, Hstore, Hm.
  eexists. split; [reflexivity|apply quiet_logged].
Qed.

Lemma update_name_ok (s : Session) (d : MemberUpdate.t) (ud : UpdateData.t) :
  field_valid validate_name (MemberUpdate.name d) ->
  update_name d ud s =
  (Ok (match validated_field validate_name (MemberUpdate.name d) with
       | Some v => UpdateData.set_name v ud
       | None => ud
       end), s).
Proof.
  unfold update_name, field_valid, validated_field.
  destruct (MemberUpdate.name d) as [n|]; [|reflexivity].
  intros [v Hv]. unfold try_except, bind, lift, validate_member_data.
  now rewrite Hv, validate_dummy_email.
Qed.

Lemma update_email_ok (s : Session) (i : Z) (d : MemberUpdate.t)
  (ud : UpdateData.t) :
  (forall h c, raises s h c = None) ->
  field_valid validate_email (MemberUpdate.email d) ->
  (forall v, validated_field validate_email (MemberUpdate.email d) = Some v ->
             email_held_by i v (rows s)) ->
  exists s1,
    update_email i d ud s =
    (Ok (match validated_field validate_email (MemberUpdate.email d) with
         | Some v => UpdateData.set_email v ud
         | None => ud
         end), s1)
    /\ quiet s s1.
Proof.
  unfold update_email, field_valid, validated_field. intros Hstore.
  destruct (MemberUpdate.email d) as [x|];
    [|intros _ _; eexists; split; [reflexivity|apply quiet_refl]].
  intros [v Hv] Hheld. rewrite Hv in *. specialize (Hheld v eq_refl).
  unfold try_except, bind, lift, validate_member_data.
  rewrite validate_dummy_name, Hv. cbn [fst snd validate_phone].
  rewrite get_member_by_email_run, Hstore, (validated_email_lower _ _ Hv).
  destruct (find_by_email v (rows s)) as [other|] eqn:E.
  - apply find_some in E. destruct E as [Hin E]. apply has_email_inv in E.
    rewrite (has_id_intro _ _ (Hheld other Hin E)). cbn.
    eexists. split; [reflexivity|apply quiet_logged].
  - cbn. eexists. split; [reflexivity|apply quiet_logged].
Qed.

Lemma update_phone_ok (s : Session) (i : Z) (d : MemberUpdate.t)
  (ud : UpdateData.t) :
  (forall h c, raises s h c = None) ->
  field_valid validate_phone (MemberUpdate.phone d) ->
  (forall v, validated_field validate_phone (MemberUpdate.phone d) = Some v ->
             phone_held_by i v (rows s)) ->
  exists s1,
    update_phone i d ud s =
    (Ok (match validated_field validate_phone (MemberUpdate.phone d) with
         | Some v => UpdateData.set_phone v ud
         | None => ud
         end), s1)
    /\ quiet s s1.
Proof.
  unfold update_phone, field_valid, validated_field. intros Hstore.
  destruct (MemberUpdate.phone d) as [w|];
    [|intros _ _; eexists; split; [reflexivity|apply quiet_refl]].
  intros [v Hv] Hheld. rewrite Hv in *. specialize (Hheld v eq_refl).
  unfold try_except, bind, lift, validate_member_data.
  rewrite validate_dummy_name, validate_dummy_email, Hv. cbn [fst snd].
  destruct v as [p|]; [|cbn; eexists; split; [reflexivity|apply quiet_refl]].
  rewrite (validated_phone_truthy _ _ Hv).
  rewrite get_member_by_phone_run, Hstore.
  destruct (find_by_phone p (rows s)) as [other|] eqn:E.
  - apply find_some in E. destruct E as [Hin E]. apply has_phone_inv in E.
    rewrite (has_id_intro _ _ (Hheld p other eq_refl Hin E)). cbn.
    eexists. split; [reflexivity|apply quiet_logged].
  - cbn. eexists. split; [reflexivity|apply quiet_logged].
Qed.

Lemma update_write_ok (s : Session) (i : Z) (m : Member.t) (ud : UpdateData.t) :
  (forall h c, raises s h c = None) ->
  pending s = [] ->
  find_by_id i (rows s) = Some m ->
  (forall statement params,
     check_unique i (UpdateData.apply ud m) (rows s) statement params = Ok tt) ->
  exists s',
    update_write ud m s = (Ok (UpdateData.apply ud m), s')
    /\ rows s' = update_rows i m (UpdateData.apply ud m) (rows s)
    /\ pending s' = [] /\ raises s' = raises s.
Proof.
  intros Hstore Hclean Hm Hu. unfold update_write, try_except. cbv zeta.
  assert (Hid : Member.id (UpdateData.apply ud m) = Some i).
  { rewrite apply_id. now apply find_by_id_Some in Hm. }
  rewrite (update_write_body_run s i m _ Hclean Hm Hid), !Hstore.
  cbv zeta. cbn [apply_change]. rewrite Hm.
  destruct (changed_columns m (UpdateData.apply ud m)); [|rewrite Hu];
    (eexists; split; [reflexivity|]; now repeat split).
Qed.

Lemma update_data_of_steps (d : MemberUpdate.t) :
  match validated_field validate_phone (MemberUpdate.phone d) with
  | Some v =>
      UpdateData.set_phone v
        match validated_field validate_email (MemberUpdate.email d) with
        | Some v0 =>
            UpdateData.set_email v0
              match validated_field validate_name (MemberUpdate.name d) with
              | Some v1 => UpdateData.set_name v1 UpdateData.empty
              | None => UpdateData.empty
              end
        | None =>
            match validated_field validate_name (MemberUpdate.name d) with
            | Some v1 => UpdateData.set_name v1 UpdateData.empty
            | None => UpdateData.empty
            end
        end
  | None =>
      match validated_field validate_email (MemberUpdate.email d) with
      | Some v0 =>
          UpdateData.set_email v0
            match validated_field validate_name (MemberUpdate.name d) with
            | Some v1 => UpdateData.set_name v1 UpdateData.empty
            | None => UpdateData.empty
            end
      | None =>
          match validated_field validate_name (MemberUpdate.name d) with
          | Some v1 => UpdateData.set_name v1 UpdateData.empty
          | None => UpdateData.empty
          end
      end
  end = update_data_of d.
Proof.
  unfold update_data_of.
  now destruct (validated_field validate_phone _),
               (validated_field validate_email _),
               (validated_field validate_name _).
Qed.

(** On a store that answers, a valid payload whose e-mail and phone no other
    row holds is written. *)
Lemma update_member_ok (s : Session) (i : Z) (d : MemberUpdate.t) (m : Member.t)
  (Hclean : pending s = [])
  (Hstore : forall h c, raises s h c = None)
  (Hm : find_by_id i (rows s) = Some m)
  (Hvalid : payload_valid d)
  (Hemail : email_held_by i (Member.email (updated d m)) (rows s))
  (Hphone : phone_held_by i (Member.phone (updated d m)) (rows s)) :
  exists s',
    update_member i d s = (Ok (updated d m), s')
    /\ rows s' = update_rows i m (updated d m) (rows s).
Proof.
  destruct Hvalid as (Hvn & Hve & Hvp).
  rewrite update_member_blocks. unfold bind at 1.
  destruct (update_find_ok s i m Hstore Hm) as (s0 & -> & Hr0 & Hp0 & Hs0).
  unfold bind at 1. rewrite (update_name_ok s0 d _ Hvn).
  unfold bind at 1.
  destruct (update_email_ok s0 i d
              (match validated_field validate_name (MemberUpdate.name d) with
               | Some v => UpdateData.set_name v UpdateData.empty
               | None => UpdateData.empty
               end)) as (s1 & -> & Hr1 & Hp1 & Hs1); auto.
  { intros; rewrite Hs0; apply Hstore. }
  { intros v Hv. rewrite Hr0.
    replace v with (Member.email (updated d m)); [exact Hemail|].
    unfold updated, update_data_of, UpdateData.apply. cbn. rewrite Hv.
    now destruct (validated_field validate_name _),
                 (validated_field validate_phone _). }
  unfold bind at 1.
  destruct (update_phone_ok s1 i d
              (match validated_field validate_email (MemberUpdate.email d) with
               | Some v => UpdateData.set_email v
                   (match validated_field validate_name (MemberUpdate.name d) with
                    | Some v => UpdateData.set_name v UpdateData.empty
                    | None => UpdateData.empty
                    end)
               | None =>
                   match validated_field validate_name (MemberUpdate.name d) with
                   | Some v => UpdateData.set_name v UpdateData.empty
                   | None => UpdateData.empty
                   end
               end)) as (s2 & -> & Hr2 & Hp2 & Hs2); auto.
  { intros; rewrite Hs1, Hs0; apply Hstore. }
  { intros v Hv. rewrite Hr1, Hr0.
    replace v with (Member.phone (updated d m)); [exact Hphone|].
    unfold updated, update_data_of, UpdateData.apply. cbn. rewrite Hv.
    now destruct (validated_field validate_name _),
                 (validated_field validate_email _). }
  rewrite update_data_of_steps. fold (updated d m).
  destruct (update_write_ok s2 i m (update_data_of d)) as (s' & Hrun & Hrows & _).
  - intros; rewrite Hs2, Hs1, Hs0; apply Hstore.
  - congruence.
  - now rewrite Hr2, Hr1, Hr0.
  - intros statement params. rewrite Hr2, Hr1, Hr0.
    now apply check_unique_held_by.
  - exists s'. split; [exact Hrun|]. now rewrite Hrows, Hr2, Hr1, Hr0.
Qed.

Lemma unique_indexes_email (tbl : list Member.t) (i : Z) (m : Member.t) :
  unique_indexes tbl -> find_by_id i tbl = Some m ->
  email_held_by i (Member.email m) tbl.
Proof.
  intros Hu Hm r Hin He. apply find_by_id_Some in Hm. destruct Hm as [Hm Hi].
  rewrite <- Hi. apply Hu; auto.
Qed.

Lemma unique_indexes_phone (tbl : list Member.t) (i : Z) (m : Member.t) :
  unique_indexes tbl -> find_by_id i tbl = Some m ->
  phone_held_by i (Member.phone m) tbl.
Proof.
  intros Hu Hm q r Hq Hin Hp. apply find_by_id_Some in Hm.
  destruct Hm as [Hm Hi]. rewrite <- Hi. apply Hu; eauto.
Qed.

Lemma updated_email_supplied d m x v :
  MemberUpdate.email d = Some x -> validate_email (PyStr x) = Ok v ->
  Member.email (updated d m) = v.
Proof.
  unfold updated, update_data_of, UpdateData.apply. cbn. intros -> Hv. cbn.
  rewrite Hv.
  now destruct (validated_field _ (MemberUpdate.name d)),
               (validated_field _ (MemberUpdate.phone d)).
Qed.

(** C6.  The uniqueness pre-check of [update_member] leaves the updated row
    out: on a session without uncommitted work, a store that answers and a
    table whose unique indexes hold, an update of the member of id [i] whose
    supplied fields are valid, and whose supplied e-mail and phone are held
    by no row other than that of [i], does not fail: it returns the row of
    [i] with the validated e-mail and phone in it, and that row is in the
    table. *)
Theorem update_accepts_values_of_own_row (s : Session) (i : Z)
  (d : MemberUpdate.t) (m : Member.t)
  (Hclean : pending s = [])
  (Hstore : forall h c, raises s h c = None)
  (Hunique : unique_indexes (rows s))
  (Hm : find_by_id i (rows s) = Some m)
  (Hvalid : payload_valid d)
  (Hemail : forall x v, MemberUpdate.email d = Some x ->
              validate_email (PyStr x) = Ok v -> email_held_by i v (rows s))
  (Hphone : forall w v, MemberUpdate.phone d = Some w ->
              validate_phone (PyStr w) = Ok v -> phone_held_by i v (rows s)) :
  exists ret s',
    update_member i d s = (Ok ret, s')
    /\ find_by_id i (rows s') = Some ret
    /\ (forall x v, MemberUpdate.email d = Some x ->
          validate_email (PyStr x) = Ok v -> Member.email ret = v)
    /\ (forall w v, MemberUpdate.phone d = Some w ->
          validate_phone (PyStr w) = Ok v -> Member.phone ret = v).
Proof.
  destruct (update_member_ok s i d m Hclean Hstore Hm Hvalid) as (s' & Hrun & Hrows).
  - destruct Hvalid as (_ & Hve & _). unfold field_valid in Hve.
    destruct (MemberUpdate.email d) as [x|] eqn:Ex.
    + destruct Hve as [v Hv].
      rewrite (updated_email_supplied d m x v Ex Hv). now apply (Hemail x).
    + rewrite (updated_email_kept d m Ex). now apply unique_indexes_email.
  - destruct Hvalid as (_ & _ & Hvp). unfold field_valid in Hvp.
    destruct (MemberUpdate.phone d) as [w|] eqn:Ew.
    + destruct Hvp as [v Hv].
      rewrite (updated_phone_supplied d m w v Ew Hv). now apply (Hphone w).
    + rewrite (updated_phone_kept d m Ew). now apply unique_indexes_phone.
  - exists (updated d m), s'. split; [exact Hrun|]. split; [|split].
    + rewrite Hrows. apply (find_by_id_update_rows i m); [exact Hm|].
      rewrite updated_id. now apply find_by_id_Some in Hm.
    + intros x v. apply updated_email_supplied.
    + intros w v. apply updated_phone_supplied.
Qed.

Lemma unique_two_members : unique_indexes (rows two_members).
Proof.
  intros r r' [<-|[<-|[]]] [<-|[<-|[]]] [H|(p & H1 & H2)];
    try reflexivity; discriminate.
Qed.

Lemma held_by_john_email :
  email_held_by 1 "john@example.com" (rows two_members).
Proof. intros r [<-|[<-|[]]]; [reflexivity|discriminate]. Qed.

Lemma held_by_john_phone :
  phone_held_by 1 (Some "+1-234-567-8901") (rows two_members).
Proof. intros q r _ [<-|[<-|[]]]; [reflexivity|discriminate]. Qed.

Lemma update_accepts_values_of_own_row_witness :
  pending two_members = []
  /\ (forall h c, raises two_members h c = None)
  /\ unique_indexes (rows two_members)
  /\ find_by_id 1 (rows two_members) = Some john_row
  /\ payload_valid same_contact
  /\ (forall x v, MemberUpdate.email same_contact = Some x ->
        validate_email (PyStr x) = Ok v -> email_held_by 1 v (rows two_members))
  /\ (forall w v, MemberUpdate.phone same_contact = Some w ->
        validate_phone (PyStr w) = Ok v -> phone_held_by 1 v (rows two_members))
  /\ exists ret s',
       update_member 1 same_contact two_members = (Ok ret, s')
       /\ find_by_id 1 (rows s') = Some ret
       /\ (forall x v, MemberUpdate.email same_contact = Some x ->
             validate_email (PyStr x) = Ok v -> Member.email ret = v)
       /\ (forall w v, MemberUpdate.phone same_contact = Some w ->
             validate_phone (PyStr w) = Ok v -> Member.phone ret = v).
Proof.
  assert (Hvalid : payload_valid same_contact).
  { split; [exact I|]. split; eexists; reflexivity. }
  split; [reflexivity|]. split; [reflexivity|].
  split; [exact unique_two_members|]. split; [reflexivity|].
  split; [exact Hvalid|].
  assert (Hemail : forall x v, MemberUpdate.email same_contact = Some x ->
            validate_email (PyStr x) = Ok v ->
            email_held_by 1 v (rows two_members)).
  { intros x v [= <-] [= <-]. exact held_by_john_email. }
  assert (Hphone : forall w v, MemberUpdate.phone same_contact = Some w ->
            validate_phone (PyStr w) = Ok v ->
            phone_held_by 1 v (rows two_members)).
  { intros w v [= <-] [= <-]. exact held_by_john_phone. }
  split; [exact Hemail|]. split; [exact Hphone|].
  exact (update_accepts_values_of_own_row two_members 1 same_contact john_row
           eq_refl (fun _ _ => eq_refl) unique_two_members eq_refl Hvalid
           Hemail Hphone).
Defined.

(** ** Clearing the phone *)

Lemma validate_phone_absent (w : string) (v : option string) :
  validate_phone (PyStr w) = Ok v ->
  (v = None <-> PyStr.strip w = "").
Proof.
  unfold validate_phone.
  destruct (PyStr.strip w) as [|c t] eqn:E; cbn [PyStr.truthy negb].
  - intros [= <-]. tauto.
  - repeat break_if; try discriminate. intros [= <-].
    split; discriminate.
Qed.

Lemma validate_phone_blank (w : string) :
  PyStr.strip w = "" -> validate_phone (PyStr w) = Ok None.
Proof. unfold validate_phone. now intros ->. Qed.

(** C10.  For the member of id [i], on a session without uncommitted work
    and whatever the store does: (1) a successful update whose payload
    supplies an empty or white-space-only phone leaves the stored phone
    absent; (2) a successful update whose payload omits the phone leaves the
    stored phone as it was; (3) if the phone was present, a successful
    update leaves it absent only if the payload supplied an empty or
    white-space-only phone; and (4) an update that supplies such a phone and
    nothing else succeeds, on a store that answers and a table whose unique
    indexes hold. *)
Theorem update_clears_phone_only_when_blank (s : Session) (i : Z) (m : Member.t)
  (Hclean : pending s = [])
  (Hm : find_by_id i (rows s) = Some m) :
  (forall d w ret s',
     MemberUpdate.phone d = Some w -> PyStr.strip w = "" ->
     update_member i d s = (Ok ret, s') ->
     Member.phone ret = None /\ find_by_id i (rows s') = Some ret)
  /\ (forall d ret s',
        MemberUpdate.phone d = None ->
        update_member i d s = (Ok ret, s') ->
        Member.phone ret = Member.phone m /\ find_by_id i (rows s') = Some ret)
  /\ (forall d ret s',
        Member.phone m <> None ->
        update_member i d s = (Ok ret, s') ->
        Member.phone ret = None ->
        exists w, MemberUpdate.phone d = Some w /\ PyStr.strip w = "")
  /\ (forall w,
        PyStr.strip w = "" ->
        (forall h c, raises s h c = None) ->
        unique_indexes (rows s) ->
        exists ret s',
          update_member i (phone_only w) s = (Ok ret, s')
          /\ Member.phone ret = None).
Proof.
  assert (Hok : forall d ret s', update_member i d s = (Ok ret, s') ->
            payload_valid d /\ ret = updated d m
            /\ find_by_id i (rows s') = Some ret).
  { intros d ret s' H.
    destruct (update_member_effect s i d m _ _ Hclean Hm H)
      as (_ & [(e & He & _)|(Hv & Hrows & Hres)]); [discriminate|].
    destruct Hres as [[= ->]|(e & _ & _ & He & _)]; [|discriminate].
    split; [exact Hv|]. split; [reflexivity|]. rewrite Hrows.
    apply (find_by_id_update_rows i m); [exact Hm|].
    rewrite updated_id. now apply find_by_id_Some in Hm. }
  split; [|split; [|split]].
  - intros d w ret s' Hw Hblank H.
    destruct (Hok d ret s' H) as (_ & -> & Hfound). split; [|exact Hfound].
    apply (updated_phone_supplied d m w None Hw), validate_phone_blank, Hblank.
  - intros d ret s' Hw H.
    destruct (Hok d ret s' H) as (_ & -> & Hfound). split; [|exact Hfound].
    now apply updated_phone_kept.
  - intros d ret s' Hpresent H Hcleared.
    destruct (Hok d ret s' H) as ((_ & _ & Hvp) & -> & _).
    unfold field_valid in Hvp.
    destruct (MemberUpdate.phone d) as [w|] eqn:Ew.
    + destruct Hvp as [v Hv]. exists w. split; [reflexivity|].
      rewrite (updated_phone_supplied d m w v Ew Hv) in Hcleared.
      now apply (validate_phone_absent w v Hv).
    + rewrite (updated_phone_kept d m Ew) in Hcleared. contradiction.
  - intros w Hblank Hstore Hunique.
    assert (Hv : payload_valid (phone_only w)).
    { split; [exact I|]. split; [exact I|].
      exists None. now apply validate_phone_blank. }
    destruct (update_member_ok s i (phone_only w) m Hclean Hstore Hm Hv)
      as (s' & Hrun & _).
    + rewrite updated_email_kept by reflexivity.
      now apply unique_indexes_email.
    + rewrite (updated_phone_supplied (phone_only w) m w None eq_refl
                 (validate_phone_blank w Hblank)).
      intros q r [=].
    + exists (updated (phone_only w) m), s'. split; [exact Hrun|].
      apply (updated_phone_supplied (phone_only w) m w None eq_refl),
        validate_phone_blank, Hblank.
Qed.

Lemma update_clears_phone_only_when_blank_witness :
  pending two_members = []
  /\ find_by_id 1 (rows two_members) = Some john_row
  /\ fst (update_member 1 (phone_only "   ") two_members)
     = Ok (Member.set_phone None john_row)
  /\ exists ret s',
       update_member 1 (phone_only "   ") two_members = (Ok ret, s')
       /\ Member.phone ret = None.
Proof.
  split; [reflexivity|]. split; [reflexivity|]. split; [reflexivity|].
  destruct (update_clears_phone_only_when_blank two_members 1 john_row
              eq_refl eq_refl) as (_ & _ & _ & Hblank).
  exact (Hblank "   " eq_refl (fun _ _ => eq_refl) unique_two_members).
Defined.

(** ** Failed writes *)

Lemma guarded_try_except {A} (b : M A) (h : exn -> M A) :
  rolls_back h -> guarded (try_except b h).
Proof.
  intros Hh s e s' H. apply try_except_inv in H.
  destruct H as [(a & _ & [=])|(e0 & s1 & _ & H)].
  destruct (Hh e0 s1) as [e' He']. rewrite He' in H.
  injection H as _ <-. eauto.
Qed.

Lemma guarded_bind {A B} (m : M A) (k : A -> M B) :
  guarded m -> (forall a, guarded (k a)) -> guarded (bind m k).
Proof.
  intros Hm Hk s e s' H. apply bind_inv in H.
  destruct H as [(a & s1 & _ & H)|(e0 & H & _)].
  - exact (Hk a s1 e s' H).
  - exact (Hm s e0 s' H).
Qed.

Lemma guarded_create_member d : guarded (create_member d).
Proof.
  unfold create_member. apply guarded_bind.
  - apply guarded_try_except. intros e s. apply create_member_except_run.
  - intros [[vn ve] vp]. apply guarded_try_except.
    intros e s. apply create_member_except_run.
Qed.

Lemma guarded_update_member i d : guarded (update_member i d).
Proof.
  unfold update_member.
  repeat (apply guarded_bind;
          [apply guarded_try_except; intros e s; apply update_member_except_run
          |intros ?]).
  apply guarded_try_except. intros e s. apply update_member_except_run.
Qed.

Lemma guarded_delete_member i : guarded (delete_member i).
Proof.
  apply guarded_try_except. intros e s. apply delete_member_except_run.
Qed.

(** The write step of [create_member], whatever the store does. *)
Lemma create_write_body_run (s : Session) (new_member : Member.t)
  (Hclean : pending s = [])
  (Hid : Member.id new_member = None) :
  (session_add new_member ;;;
   key <- session_commit ;;
   session_refresh (Member.set_id key new_member)) s =
  match raises s (log s) (CallAdd new_member) with
  | Some e => (Raise e, logged (CallAdd new_member) s)
  | None =>
      let failed :=
        mkSession (rows s) [Insert new_member]
          (log s ++ [CallAdd new_member; CallCommit])%list (raises s) in
      match raises s (log s ++ [CallAdd new_member])%list CallCommit with
      | Some e => (Raise e, failed)
      | None =>
          match check_unique (next_rowid (rows s)) new_member (rows s)
                  (insert_statement new_member) (insert_params new_member) with
          | Raise e => (Raise e, failed)
          | Ok _ =>
              let m := Member.set_id (Some (next_rowid (rows s))) new_member in
              let s' := mkSession (rows s ++ [m])%list []
                          (log s ++ [CallAdd new_member; CallCommit; CallRefresh m])%list
                          (raises s) in
              match raises s (log s ++ [CallAdd new_member; CallCommit])%list
                      (CallRefresh m) with
              | Some e => (Raise e, s')
              | None => (Ok m, s')
              end
          end
      end
  end.
Proof.
  cbv zeta. unfold bind, session_add, session_commit, session_refresh.
  rewrite store_call_run.
  destruct (raises s (log s) (CallAdd new_member)); [reflexivity|].
  rewrite Hid, store_call_run.
  cbn [app logged with_pending log raises rows pending]. rewrite Hclean.
  cbn [app].
  destruct (raises s _ CallCommit) as [e|]; [now norm_session|].
  cbn [apply_changes apply_change]. rewrite Hid, next_rowid_fresh.
  destruct (check_unique _ new_member (rows s) _ _) as [[]|e];
    [|now norm_session].
  rewrite store_call_run. norm_session.
  destruct (raises s _ (CallRefresh _)) as [e|]; [reflexivity|].
  cbn [Member.set_id Member.id].
  unfold find_by_id. rewrite find_app_new;
    [reflexivity|apply next_rowid_fresh|apply has_id_intro; reflexivity].
Qed.

Lemma create_member_effect (s : Session) (d : MemberCreate.t) r s'
  (Hclean : pending s = []) :
  create_member d s = (r, s') ->
  write_effect s r s' (fun tbl m => tbl = (rows s ++ [m])%list).
Proof.
  unfold create_member. intros H.
  assert (Hfail : forall s1 s2 e, quiet s s1 ->
            s2 = after_rollback s1 ->
            write_effect s (@Raise Member.t e) s2
              (fun tbl m => tbl = (rows s ++ [m])%list)).
  { intros s1 s2 e (Hr & Hp & Hs) ->.
    split; [now rewrite after_rollback_raises|].
    left. exists e. split; [reflexivity|]. now rewrite after_rollback_rows. }
  apply bind_inv in H. destruct H as [(v & s0 & H0 & H)|(e & H0 & ->)].
  2:{ apply try_except_inv in H0.
      destruct H0 as [(a & _ & [=])|(e0 & s2 & [= _ <-] & H0)].
      destruct (create_member_except_run (A:=string * string * option string)
                  None e0 s) as [e' He'].
      rewrite He' in H0. injection H0 as _ <-.
      now apply (Hfail s _ e (quiet_refl s)). }
  apply try_except_inv in H0.
  destruct H0 as [(a & H0 & Hv)|(e0 & s2 & [= _ <-] & H0)].
  1: injection Hv as ->; unfold lift in H0; injection H0 as _ <-.
  2:{ destruct (create_member_except_run (A:=string * string * option string)
                  None e0 s) as [e' He'].
      rewrite He' in H0. discriminate. }
  destruct a as [[vn ve] vp]. cbv beta iota in H.
  apply try_except_inv in H.
  assert (Hbody : forall rb sb,
    (existing_member_by_email <- get_member_by_email ve ;;
     match existing_member_by_email with
     | Some _ => raise (MemberAlreadyExistsError "email" (PyStr ve))
     | None => ret tt
     end ;;;
     match vp with
     | Some p =>
         if PyStr.truthy p then
           existing_member_by_phone <- get_member_by_phone p ;;
           match existing_member_by_phone with
           | Some _ => raise (MemberAlreadyExistsError "phone" (PyStr p))
           | None => ret tt
           end
         else ret tt
     | None => ret tt
     end ;;;
     session_add (Member.make None vn ve vp) ;;;
     key <- session_commit ;;
     session_refresh (Member.set_id key (Member.make None vn ve vp))) s
    = (rb, sb) ->
    raises sb = raises s
    /\ ((exists e, rb = Raise e /\ rows sb = rows s)
        \/ exists m, rows sb = (rows s ++ [m])%list /\ pending sb = []
             /\ (rb = Ok m
                 \/ exists e x h m0, rb = Raise e
                                     /\ raises s h (CallRefresh m0) = Some x))).
  { intros rb sb Hb.
    apply bind_inv in Hb. destruct Hb as [(a1 & s1 & H1 & Hb)|(e & H1 & ->)].
    2:{ destruct (reads_get_member_by_email (rows s) ve _ _ _ eq_refl H1)
          as [(Hr & _ & Hs) _]. eauto. }
    destruct (reads_get_member_by_email (rows s) ve _ _ _ eq_refl H1)
      as [Hq1 _].
    apply bind_inv in Hb. destruct Hb as [(a2 & s2 & H2 & Hb)|(e & H2 & ->)].
    2:{ destruct Hq1 as (Hr & _ & Hs).
        destruct a1; [injection H2 as _ <-|discriminate]. eauto. }
    assert (s2 = s1) as -> by (destruct a1; [discriminate|now injection H2]).
    clear H2.
    apply bind_inv in Hb. destruct Hb as [(a3 & s3 & H3 & Hb)|(e & H3 & ->)].
    - assert (Hq3 : quiet s1 s3).
      { destruct vp as [p|]; [|injection H3 as _ <-; apply quiet_refl].
        destruct (PyStr.truthy p); [|injection H3 as _ <-; apply quiet_refl].
        apply bind_inv in H3.
        destruct H3 as [(a4 & s4 & H4 & H3)|(e & H4 & [=])].
        destruct (reads_get_member_by_phone (rows s1) p _ _ _ eq_refl H4)
          as [Hq4 _].
        destruct a4; [discriminate|]. now injection H3 as _ <-. }
      destruct (quiet_trans _ _ _ Hq1 Hq3) as (Hr & Hp & Hs).
      rewrite create_write_body_run in Hb; [|congruence|reflexivity].
      cbv zeta in Hb. rewrite Hr, Hs in Hb.
      repeat break_match_in Hb; injection Hb as <- <-; cbn;
        (split; [first [exact Hs|reflexivity]|]); eauto 12.
    - assert (Hq3 : quiet s1 sb).
      { destruct vp as [p|]; [|discriminate].
        destruct (PyStr.truthy p); [|discriminate].
        apply bind_inv in H3.
        destruct H3 as [(a4 & s4 & H4 & H3)|(e0 & H4 & _)].
        - destruct (reads_get_member_by_phone (rows s1) p _ _ _ eq_refl H4)
            as [Hq4 _].
          destruct a4; [now injection H3 as _ <-|discriminate].
        - now destruct (reads_get_member_by_phone (rows s1) p _ _ _ eq_refl H4). }
      destruct (quiet_trans _ _ _ Hq1 Hq3) as (Hr & Hp & Hs). eauto. }
  destruct H as [(a & Hb & ->)|(e & s1 & Hb & Hh)].
  - destruct (Hbody _ _ Hb) as (Hs & [(e & [=] & _)|(m & Hr & Hp & Hres)]).
    repeat split; auto. right. exists m. split; [exact Hr|].
    destruct Hres as [->|(e & x & h & m0 & [=] & _)]. now left.
  - destruct (create_member_except_run (A:=Member.t) (Some (ve, vp)) e s1)
      as [e' He'].
    rewrite He' in Hh. injection Hh as <- <-.
    destruct (Hbody _ _ Hb) as (Hs & [(e0 & _ & Hr)|(m & Hr & Hp & Hres)]);
      (split; [now rewrite after_rollback_raises|]);
      rewrite after_rollback_rows.
    + left. eauto.
    + right. exists m. split; [exact Hr|].
      right. destruct Hres as [[=]|(e0 & x & h & m0 & _ & Hx)]. eauto 6.
Qed.

Lemma delete_member_effect (s : Session) (i : Z) r s'
  (Hclean : pending s = []) :
  delete_member i s = (r, s') ->
  write_effect s r s'
    (fun tbl ok =>
       ok = true /\ tbl = List.filter (fun m => negb (Member.has_id i m)) (rows s)).
Proof.
  unfold delete_member. intros H. apply try_except_inv in H.
  assert (Hbody : forall rb sb,
    (existing_member <- get_member_by_id i ;;
     match existing_member with
     | None => raise (MemberNotFoundError "id" (PyStr.of_Z i))
     | Some m => session_delete m ;;; _ <- session_commit ;; ret true
     end) s = (rb, sb) ->
    raises sb = raises s
    /\ ((exists e, rb = Raise e /\ rows sb = rows s)
        \/ (rb = Ok true /\ pending sb = []
            /\ rows sb = List.filter (fun m => negb (Member.has_id i m)) (rows s)))).
  { intros rb sb. unfold bind. rewrite get_member_by_id_run.
    destruct (raises s (log s) (CallGet i)); [intros [= <- <-]; cbn; eauto|].
    destruct (find_by_id i (rows s)) as [m|] eqn:Em;
      [|intros [= <- <-]; cbn; eauto].
    unfold session_delete, session_commit. rewrite store_call_run.
    cbn [logged with_pending log raises rows pending].
    destruct (raises s _ (CallDelete m)); [intros [= <- <-]; cbn; eauto|].
    rewrite store_call_run.
    cbn [logged with_pending log raises rows pending].
    destruct (raises s _ CallCommit); [intros [= <- <-]; cbn; eauto|].
    rewrite Hclean. apply find_by_id_Some in Em. destruct Em as [_ ->].
    cbn. intros [= <- <-]. cbn. auto. }
  destruct H as [(a & Hb & ->)|(e & s1 & Hb & Hh)].
  - destruct (Hbody _ _ Hb) as (Hs & [(e & [=] & _)|([= ->] & Hp & Hr)]).
    repeat split; auto. right. exists true. auto.
  - destruct (delete_member_except_run (A:=bool) e s1) as [e' He'].
    rewrite He' in Hh. injection Hh as <- <-.
    destruct (Hbody _ _ Hb) as (Hs & [(e0 & _ & Hr)|([=] & _)]).
    split; [now rewrite after_rollback_raises|].
    rewrite after_rollback_rows. left. eauto.
Qed.

(** An [update_member] of an id that is not in the table changes nothing. *)
Lemma update_member_not_found (s : Session) (i : Z) (d : MemberUpdate.t) r s' :
  find_by_id i (rows s) = None ->
  update_member i d s = (r, s') ->
  (exists e, r = Raise e) /\ rolled_back s s'.
Proof.
  intros Hm. rewrite update_member_blocks. intros H.
  apply bind_inv in H. destruct H as [(m0 & s0 & H0 & _)|(e & H0 & ->)];
    apply (block_update_find (rows s)) in H0; try reflexivity.
  - destruct H0 as [_ H0]. congruence.
  - eauto.
Qed.

(** Atomicity of the three writes, short of a failing refresh: on a session
    without uncommitted work and a store that always reads a committed row
    again, an operation that raises has left the table as it was. *)
Lemma failed_write_undone (s : Session)
  (Hclean : pending s = [])
  (Hrefresh : forall h m, raises s h (CallRefresh m) = None) :
  (forall d e s', create_member d s = (Raise e, s') -> rows s' = rows s)
  /\ (forall i d e s', update_member i d s = (Raise e, s') -> rows s' = rows s)
  /\ (forall i e s', delete_member i s = (Raise e, s') -> rows s' = rows s).
Proof.
  split; [|split].
  - intros d e s' H.
    destruct (create_member_effect s d _ _ Hclean H)
      as (_ & [(e0 & _ & Hr)|(m & _ & [[=]|(e0 & x & h & m0 & _ & Hx)])]);
      [auto|]. now rewrite Hrefresh in Hx.
  - intros i d e s' H.
    destruct (find_by_id i (rows s)) as [m|] eqn:Em.
    + destruct (update_member_effect s i d m _ _ Hclean Em H)
        as (_ & [(e0 & _ & Hr)|(_ & _ & [[=]|(e0 & x & h & _ & Hx)])]);
        [auto|]. now rewrite Hrefresh in Hx.
    + destruct (update_member_not_found s i d _ _ Em H) as (_ & Hr & _).
      auto.
  - intros i e s' H.
    destruct (delete_member_effect s i _ _ Hclean H)
      as (_ & [(e0 & _ & Hr)|(ok & _ & [[=]|(e0 & x & h & m0 & _ & Hx)])]);
      [auto|]. now rewrite Hrefresh in Hx.
Qed.

(** Every failure of a write ends with a call for a rollback. *)
Lemma failed_write_rolls_back :
  (forall d, guarded (create_member d))
  /\ (forall i d, guarded (update_member i d))
  /\ (forall i, guarded (delete_member i)).
Proof.
  auto using guarded_create_member, guarded_update_member, guarded_delete_member.
Qed.

(** C2, at the input where the code departs from it.  When the store
    commits and then fails to read the row again, [create_member] and
    [update_member] roll back and raise [DatabaseOperationError], but the
    write is already committed: the table is not the one from before the
    call. *)
Theorem write_kept_when_refresh_fails :
  outcome (refresh_fails []) (create_member john (refresh_fails []))
    (Raise (DatabaseOperationError "create_member" "Could not refresh instance"))
    [CallExecByEmail "john@example.com";
     CallExecByPhone "+1-234-567-8901";
     CallAdd (Member.make None "John Doe" "john@example.com"
                (Some "+1-234-567-8901"));
     CallCommit; CallRefresh john_row; CallRollback]
    [john_row]
  /\ outcome (refresh_fails [john_row])
       (update_member 1 rename_only (refresh_fails [john_row]))
       (Raise (DatabaseOperationError "update_member" "Could not refresh instance"))
       [CallGet 1;
        CallAdd (Member.set_name "Johnny Doe" john_row);
        CallCommit; CallRefresh (Member.set_name "Johnny Doe" john_row);
        CallRollback]
       [Member.set_name "Johnny Doe" john_row].
Proof. split; vm_compute; repeat split. Qed.

(** ** The unique indexes are an invariant of the store *)

Lemma check_unique_Ok (i : Z) (m : Member.t) (tbl : list Member.t)
  (statement : string) (params : list pyobj) :
  check_unique i m tbl statement params = Ok tt ->
  forall r, In r tbl -> Member.has_id i r = false ->
    Member.email r <> Member.email m
    /\ (forall p, Member.phone r = Some p -> Member.phone m <> Some p).
Proof.
  unfold check_unique.
  destruct (email_taken i m tbl) eqn:Ee; [discriminate|].
  destruct (phone_taken i m tbl) eqn:Ep; [discriminate|].
  intros _ r Hin Hr. split.
  - intros He. unfold email_taken in Ee.
    assert (H : existsb (fun r => other_row i r
                                  && Member.has_email (Member.email m) r) tbl
                = true).
    { apply existsb_exists. exists r. split; [exact Hin|].
      unfold other_row, Member.has_email. rewrite Hr, He. cbn.
      apply String.eqb_refl. }
    congruence.
  - intros p Hp Hm. unfold phone_taken in Ep. rewrite Hm in Ep.
    assert (H : existsb (fun r => other_row i r && Member.has_phone p r) tbl
                = true).
    { apply existsb_exists. exists r. split; [exact Hin|].
      unfold other_row, Member.has_phone. rewrite Hr, Hp. cbn.
      apply String.eqb_refl. }
    congruence.
Qed.

Lemma existsb_false_In {A} (p : A -> bool) (l : list A) (a : A) :
  existsb p l = false -> In a l -> p a = false.
Proof.
  intros H Hin. apply not_true_is_false. intros Ha.
  assert (existsb p l = true) by (apply existsb_exists; eauto). congruence.
Qed.

(** A change that the store accepts keeps the unique indexes. *)
Lemma apply_change_unique (ch : change) (tbl tbl' : list Member.t) k :
  unique_indexes tbl -> apply_change ch tbl = Ok (tbl', k) ->
  unique_indexes tbl'.
Proof.
  intros Hu. destruct ch as [m|i m|i]; cbn [apply_change].
  - set (i := match Member.id m with Some i => i | None => next_rowid tbl end).
    destruct (existsb (Member.has_id i) tbl) eqn:Ei; [discriminate|].
    destruct (check_unique i m tbl _ _) as [[]|] eqn:Ec; [|discriminate].
    intros [= <- _]. pose proof (check_unique_Ok _ _ _ _ _ Ec) as Hc.
    intros r r' Hr Hr' Hsame.
    apply in_app_or in Hr. apply in_app_or in Hr'.
    destruct Hr as [Hr|[<-|[]]], Hr' as [Hr'|[<-|[]]]; auto.
    + exfalso. destruct (Hc r Hr (existsb_false_In _ _ _ Ei Hr)) as [He Hp].
      destruct Hsame as [H|(p & H1 & H2)]; [now apply He|now apply (Hp p)].
    + exfalso. destruct (Hc r' Hr' (existsb_false_In _ _ _ Ei Hr')) as [He Hp].
      destruct Hsame as [H|(p & H1 & H2)]; [now apply He|now apply (Hp p)].
  - destruct (find_by_id i tbl) as [old|]; [|discriminate].
    destruct (changed_columns old m) as [|c cs]; [now intros [= <- _]|].
    destruct (check_unique i m tbl _ _) as [[]|] eqn:Ec; [|discriminate].
    intros [= <- _]. pose proof (check_unique_Ok _ _ _ _ _ Ec) as Hc.
    intros r r' Hr Hr' Hsame.
    apply in_map_iff in Hr. destruct Hr as (r0 & <- & Hr).
    apply in_map_iff in Hr'. destruct Hr' as (r0' & <- & Hr').
    destruct (Member.has_id i r0) eqn:E0, (Member.has_id i r0') eqn:E0'; auto.
    + exfalso. destruct (Hc r0' Hr' E0') as [He Hp].
      destruct Hsame as [H|(p & H1 & H2)]; [now apply He|now apply (Hp p)].
    + exfalso. destruct (Hc r0 Hr E0) as [He Hp].
      destruct Hsame as [H|(p & H1 & H2)]; [now apply He|now apply (Hp p)].
  - intros [= <- _] r r' Hr Hr'.
    apply filter_In in Hr. apply filter_In in Hr'. apply Hu; tauto.
Qed.

Lemma apply_changes_unique (chs : list change) (tbl tbl' : list Member.t) k k' :
  unique_indexes tbl -> apply_changes chs tbl k = Ok (tbl', k') ->
  unique_indexes tbl'.
Proof.
  revert tbl k. induction chs as [|ch chs IH]; intros tbl k Hu; cbn.
  - now intros [= <- _].
  - destruct (apply_change ch tbl) as [[tbl1 k1]|] eqn:E; [|discriminate].
    apply IH. eapply apply_change_unique; eassumption.
Qed.

Lemma preserves_ret {A} P (a : A) : preserves P (ret a).
Proof. now intros s r s' H [= _ <-]. Qed.

Lemma preserves_raise {A} P (e : exn) : preserves P (@raise A e).
Proof. now intros s r s' H [= _ <-]. Qed.

Lemma preserves_lift {A} P (x : result A) : preserves P (lift x).
Proof. now intros s r s' H [= _ <-]. Qed.

Lemma preserves_bind {A B} P (m : M A) (k : A -> M B) :
  preserves P m -> (forall a, preserves P (k a)) -> preserves P (bind m k).
Proof.
  intros Hm Hk s r s' H Hrun. apply bind_inv in Hrun.
  destruct Hrun as [(a & s1 & H1 & H2)|(e & H1 & _)].
  - exact (Hk a _ _ _ (Hm _ _ _ H H1) H2).
  - exact (Hm _ _ _ H H1).
Qed.

Lemma preserves_try_except {A} P (b : M A) (h : exn -> M A) :
  preserves P b -> (forall e, preserves P (h e)) ->
  preserves P (try_except b h).
Proof.
  intros Hb Hh s r s' H Hrun. apply try_except_inv in Hrun.
  destruct Hrun as [(a & H1 & _)|(e & s1 & H1 & H2)].
  - exact (Hb _ _ _ H H1).
  - exact (Hh e _ _ _ (Hb _ _ _ H H1) H2).
Qed.

Lemma preserves_store_call {A} P (c : call) (normal : M A) :
  preserves P normal -> preserves P (store_call c normal).
Proof.
  intros Hn s r s' H. rewrite store_call_run.
  destruct (raises s (log s) c); [now intros [= _ <-]|].
  now apply Hn.
Qed.

Lemma preserves_reading {A} P (f : Session -> result A) :
  preserves P (fun s => (f s, s)).
Proof. now intros s r s' H [= _ <-]. Qed.

Lemma preserves_rollback P : preserves P session_rollback.
Proof.
  apply preserves_store_call. now intros s r s' H [= _ <-].
Qed.

Lemma preserves_commit : preserves unique_indexes session_commit.
Proof.
  apply preserves_store_call. intros s r s' H.
  destruct (apply_changes (pending s) (rows s) None) as [[tbl key]|] eqn:E.
  - intros [= _ <-]. cbn. eapply apply_changes_unique; eassumption.
  - now intros [= _ <-].
Qed.

Ltac preserves_step :=
  first
    [ apply preserves_commit
    | apply preserves_rollback
    | apply preserves_ret
    | apply preserves_raise
    | apply preserves_lift
    | apply preserves_bind; [|intros ?]
    | apply preserves_try_except; [|intros ?]
    | apply preserves_store_call; intros ? ? ? ?;
      repeat break_match; now intros [= _ <-]
    | match goal with
      | |- preserves _ (match ?x with _ => _ end) => destruct x
      | |- preserves _ (if ?x then _ else _) => destruct x
      | |- preserves _ (let '(_, _) := ?x in _) => destruct x
      end ].

(** The three writes and the reads keep the unique indexes of the table,
    whatever the store does. *)
Lemma unique_indexes_invariant :
  (forall d, preserves unique_indexes (create_member d))
  /\ (forall i d, preserves unique_indexes (update_member i d))
  /\ (forall i, preserves unique_indexes (delete_member i)).
Proof.
  split; [|split]; intros.
  - unfold create_member, create_member_except, get_member_by_email,
      get_member_by_phone, session_exec_by_email, session_exec_by_phone,
      session_add, session_refresh.
    repeat preserves_step.
  - unfold update_member, update_member_except, get_member_by_id,
      get_member_by_email, get_member_by_phone, session_get,
      session_exec_by_email, session_exec_by_phone, session_add,
      session_refresh.
    repeat preserves_step.
  - unfold delete_member, delete_member_except, get_member_by_id, session_get,
      session_delete.
    repeat preserves_step.
Qed.

(* ================================================================== *)
(** * Further properties of the validators *)
(* ================================================================== *)

Section ValidatedValues.
Import PyStr PyStrFacts.

Lemma validate_name_Ok (v : pyobj) (y : string) :
  validate_name v = Ok y ->
  exists s, v = PyStr s /\ y = strip s /\ truthy y = true
            /\ (2 <= len y <= 100)%Z
            /\ Re.match_anchored name_pattern y = true.
Proof.
  unfold validate_name. destruct v as [|s|z]; try discriminate.
  destruct (truthy s); cbn [negb]; [|discriminate].
  destruct (truthy (strip s)) eqn:Et; cbn [negb]; [|discriminate].
  destruct (len (strip s) <? 2)%Z eqn:E2; [discriminate|].
  destruct (len (strip s) >? 100)%Z eqn:E100; [discriminate|].
  destruct (Re.match_anchored name_pattern (strip s)) eqn:Em;
    cbn [negb]; [|discriminate].
  intros [= <-]. exists s. repeat split; auto; lia.
Qed.

Lemma validate_name_fixed (x : pyobj) (y : string) :
  validate_name x = Ok y -> validate_name (PyStr y) = Ok y.
Proof.
  intros H. destruct (validate_name_Ok _ _ H) as (s & -> & -> & Ht & Hl & Hm).
  unfold validate_name. rewrite strip_idem, Ht, Hm. cbn [negb].
  destruct (len (strip s) <? 2)%Z eqn:E2; [lia|].
  destruct (len (strip s) >? 100)%Z eqn:E100; [lia|reflexivity].
Qed.

(** X1.  [validate_name] is idempotent on the names it accepts, and what it
    returns has no white space at either end and between 2 and 100
    characters. *)
Theorem validate_name_idempotent (x : pyobj) (y : string) :
  validate_name x = Ok y ->
  validate_name (PyStr y) = Ok y /\ strip y = y /\ (2 <= len y <= 100)%Z.
Proof.
  intros H. split; [exact (validate_name_fixed _ _ H)|].
  destruct (validate_name_Ok _ _ H) as (s & -> & -> & Ht & Hl & Hm).
  split; [apply strip_idem|exact Hl].
Qed.

Lemma validate_name_idempotent_witness :
  validate_name (PyStr "  Jane Smith ") = Ok "Jane Smith"
  /\ validate_name (PyStr "Jane Smith") = Ok "Jane Smith"
  /\ strip "Jane Smith" = "Jane Smith"
  /\ (2 <= len "Jane Smith" <= 100)%Z.
Proof.
  split; [reflexivity|].
  apply (validate_name_idempotent (PyStr "  Jane Smith ") "Jane Smith").
  reflexivity.
Defined.

Lemma forallb_filter (p q : ascii -> bool) (s : string) :
  forallb p (filter q s) = true ->
  forallb (fun c => p c || negb (q c)) s = true.
Proof.
  induction s as [|c t IH]; cbn; [trivial|].
  destruct (q c); cbn.
  - intros H. apply andb_true_iff in H. destruct H as [-> H].
    cbn. now apply IH.
  - intros H. rewrite orb_true_r. now apply IH.
Qed.

Lemma forallb_ext (p q : ascii -> bool) (s : string) :
  (forall c, p c = q c) -> forallb p s = forallb q s.
Proof.
  intros H. induction s as [|c t IH]; cbn; [reflexivity|].
  now rewrite H, IH.
Qed.

Lemma length_filter (q : ascii -> bool) (s : string) :
  (len (filter q s) <= len s)%Z.
Proof.
  unfold len. induction s as [|c t IH]; cbn [filter]; [lia|].
  destruct (q c); cbn [String.length]; lia.
Qed.

Lemma validate_phone_Ok (v : pyobj) (p : string) :
  validate_phone v = Ok (Some p) ->
  exists s, v = PyStr s /\ p = strip s /\ truthy p = true
            /\ (len p <= 20)%Z
            /\ forallb isdigit_char (clean_phone_of p) = true
            /\ (8 <= len (clean_phone_of p) <= 15)%Z.
Proof.
  unfold validate_phone, isdigit. destruct v as [|s|z]; try discriminate.
  destruct (truthy (strip s)) eqn:Et; cbn [negb]; [|discriminate].
  destruct (len (strip s) >? 20)%Z eqn:E20; [discriminate|].
  destruct (truthy (clean_phone_of (strip s))
            && forallb isdigit_char (clean_phone_of (strip s))) eqn:Ed;
    cbn [negb]; [|discriminate].
  destruct (len (clean_phone_of (strip s)) <? 8)%Z eqn:E8; [discriminate|].
  destruct (len (clean_phone_of (strip s)) >? 15)%Z eqn:E15; [discriminate|].
  intros [= <-]. apply andb_true_iff in Ed. destruct Ed as [_ Ed].
  exists s. repeat split; auto; lia.
Qed.

Lemma validate_phone_fixed (x : pyobj) (v : option string) :
  validate_phone x = Ok v -> validate_phone (of_option v) = Ok v.
Proof.
  intros H. destruct v as [p|]; [|reflexivity].
  destruct (validate_phone_Ok _ _ H) as (s & -> & -> & Ht & Hl & Hd & Hn).
  cbn [of_option]. unfold validate_phone, isdigit.
  rewrite strip_idem, Ht, Hd. cbn [negb].
  destruct (len (strip s) >? 20)%Z eqn:E20; [lia|].
  destruct (clean_phone_of (strip s)) as [|c t] eqn:Ec;
    [cbn in Hn; lia|].
  cbn [truthy andb negb].
  destruct (len (String c t) <? 8)%Z eqn:E8; [lia|].
  destruct (len (String c t) >? 15)%Z eqn:E15; [lia|reflexivity].
Qed.

(** X2.  [validate_phone] is idempotent on what it accepts: an absent phone
    stays absent, and a phone number that is returned is returned again
    unchanged.  A number that is returned has no white space at either end,
    at most 20 characters, all of them digits or formatting characters, and
    between 8 and 15 digits. *)
Theorem validate_phone_idempotent (x : pyobj) (v : option string) :
  validate_phone x = Ok v ->
  validate_phone (of_option v) = Ok v
  /\ forall p, v = Some p ->
       strip p = p /\ (len p <= 20)%Z
       /\ forallb phone_char p = true
       /\ (8 <= len (clean_phone_of p) <= 15)%Z.
Proof.
  intros H. split; [exact (validate_phone_fixed _ _ H)|].
  intros p ->.
  destruct (validate_phone_Ok _ _ H) as (s & -> & -> & Ht & Hl & Hd & Hn).
  split; [apply strip_idem|]. split; [exact Hl|].
  split; [|exact Hn].
  unfold clean_phone_of in Hd. apply forallb_filter in Hd.
  rewrite <- Hd. apply forallb_ext. intros c. unfold phone_char.
  now rewrite negb_involutive.
Qed.

Lemma validate_phone_idempotent_witness :
  validate_phone (PyStr " +1 (234) 567-8901 ") = Ok (Some "+1 (234) 567-8901")
  /\ validate_phone (PyStr "+1 (234) 567-8901") = Ok (Some "+1 (234) 567-8901")
  /\ forall p, Some "+1 (234) 567-8901" = Some p ->
       strip p = p /\ (len p <= 20)%Z
       /\ forallb phone_char p = true
       /\ (8 <= len (clean_phone_of p) <= 15)%Z.
Proof.
  split; [reflexivity|].
  apply (validate_phone_idempotent (PyStr " +1 (234) 567-8901 ")
           (Some "+1 (234) 567-8901")).
  reflexivity.
Defined.

Lemma fullmatch_Eps_inv (s : string) :
  Re.fullmatch Re.Eps s = true -> s = "".
Proof.
  destruct s as [|c t]; [reflexivity|]. cbn.
  now rewrite ReFacts.fullmatch_Null.
Qed.

Lemma fullmatch_Class_inv (p : ascii -> bool) (s : string) :
  Re.fullmatch (Re.Class p) s = true ->
  exists c, s = String c "" /\ p c = true.
Proof.
  destruct s as [|c t]; [discriminate|]. cbn.
  destruct (p c) eqn:E; [|now rewrite ReFacts.fullmatch_Null].
  intros H. apply fullmatch_Eps_inv in H. subst. eauto.
Qed.

Lemma fullmatch_nullable (r : Re.regex) :
  Re.fullmatch r "" = Re.nullable r.
Proof. reflexivity. Qed.

(** A word of [r1 r2] is a word of [r1] followed by a word of [r2]. *)
Lemma fullmatch_Cat_inv (r1 r2 : Re.regex) (s : string) :
  Re.fullmatch (Re.Cat r1 r2) s = true ->
  exists s1 s2, s = s1 ++ s2 /\ Re.fullmatch r1 s1 = true
                /\ Re.fullmatch r2 s2 = true.
Proof.
  revert r1. induction s as [|c t IH]; intros r1.
  - cbn. intros H. apply andb_true_iff in H. destruct H.
    exists "", "". auto.
  - cbn [Re.fullmatch Re.deriv].
    destruct (Re.nullable r1) eqn:En.
    + rewrite ReFacts.fullmatch_Alt. intros H. apply orb_true_iff in H.
      destruct H as [H|H].
      * apply IH in H. destruct H as (s1 & s2 & -> & H1 & H2).
        exists (String c s1), s2. auto.
      * exists "", (String c t). auto.
    + intros H. apply IH in H. destruct H as (s1 & s2 & -> & H1 & H2).
      exists (String c s1), s2. auto.
Qed.

Lemma forallb_weaken (p q : ascii -> bool) (s : string) :
  (forall c, p c = true -> q c = true) ->
  forallb p s = true -> forallb q s = true.
Proof.
  intros H. induction s as [|c t IH]; cbn; [trivial|].
  intros Hs. apply andb_true_iff in Hs. destruct Hs as [Hc Ht].
  now rewrite (H c Hc), IH.
Qed.

Lemma forallb_app (p : ascii -> bool) (s t : string) :
  forallb p (s ++ t) = forallb p s && forallb p t.
Proof.
  induction s as [|c u IH]; cbn; [reflexivity|].
  now rewrite IH, andb_assoc.
Qed.

Lemma forallb_lower (p : ascii -> bool) (s : string) :
  forallb p (lower s) = forallb (fun c => p (lower_char c)) s.
Proof.
  induction s as [|c t IH]; cbn; [reflexivity|]. now rewrite IH.
Qed.

Lemma no_upper_lower_char (c : ascii) : is_ascii_upper (lower_char c) = false.
Proof. by_cases_on_char c. Qed.

Lemma forallb_not_upper_lower (s : string) :
  forallb (fun c => negb (is_ascii_upper c)) (lower s) = true.
Proof.
  induction s as [|c t IH]; cbn; [reflexivity|].
  now rewrite no_upper_lower_char, IH.
Qed.

Lemma forallb_and (p q : ascii -> bool) (s : string) :
  forallb p s = true -> forallb q s = true ->
  forallb (fun c => p c && q c) s = true.
Proof.
  induction s as [|c t IH]; cbn; [trivial|].
  intros Hp Hq. apply andb_true_iff in Hp, Hq.
  destruct Hp as [-> Hp], Hq as [-> Hq]. cbn. now apply IH.
Qed.

Lemma newline_lower_char (c : ascii) :
  (code (lower_char c) =? 10)%N = (code c =? 10)%N.
Proof. by_cases_on_char c. Qed.

Lemma newline_isspace (c : ascii) :
  (code c =? 10)%N = true -> isspace c = true.
Proof. destruct c as [[] [] [] [] [] [] [] []]; vm_compute; congruence. Qed.

(** A trimmed string does not end with a newline. *)
Lemma ends_with_newline_rstrip (s : string) :
  Re.ends_with_newline (rstrip s) = None.
Proof.
  induction s as [|c t IH]; cbn [rstrip]; [reflexivity|].
  destruct (rstrip t) as [|a r] eqn:E.
  - destruct (isspace c) eqn:Ec; [reflexivity|]. cbn.
    destruct (code c =? 10)%N eqn:En; [|reflexivity].
    now rewrite (newline_isspace c En) in Ec.
  - change (Re.ends_with_newline (String c (String a r)))
      with (option_map (String c) (Re.ends_with_newline (String a r))).
    now rewrite IH.
Qed.

Lemma ends_with_newline_lower (s : string) :
  Re.ends_with_newline s = None -> Re.ends_with_newline (lower s) = None.
Proof.
  induction s as [|c t IH]; [reflexivity|].
  destruct t as [|a r].
  - cbn. rewrite newline_lower_char. now destruct (code c =? 10)%N.
  - change (Re.ends_with_newline (String c (String a r)))
      with (option_map (String c) (Re.ends_with_newline (String a r))).
    change (Re.ends_with_newline (lower (String c (String a r))))
      with (option_map (String (lower_char c))
              (Re.ends_with_newline (lower (String a r)))).
    destruct (Re.ends_with_newline (String a r)); [discriminate|].
    intros _. now rewrite IH.
Qed.

Lemma match_anchored_normalized (r : Re.regex) (s : string) :
  Re.match_anchored r (lower (strip s)) = Re.fullmatch r (lower (strip s)).
Proof.
  unfold Re.match_anchored, strip.
  rewrite (ends_with_newline_lower _ (ends_with_newline_rstrip _)).
  apply orb_false_r.
Qed.

Lemma plus_class_inv (p : ascii -> bool) (s : string) :
  Re.fullmatch (Re.Plus (Re.Class p)) s = true ->
  truthy s = true /\ forallb p s = true.
Proof.
  rewrite ReFacts.fullmatch_plus_class. apply andb_true_iff.
Qed.

Lemma at_least2_class_inv (p : ascii -> bool) (s : string) :
  Re.fullmatch (Re.AtLeast2 (Re.Class p)) s = true ->
  (2 <= len s)%Z /\ forallb p s = true.
Proof.
  unfold Re.AtLeast2. intros H. apply fullmatch_Cat_inv in H.
  destruct H as (s1 & s2 & -> & H1 & H2).
  apply fullmatch_Class_inv in H1. destruct H1 as (c & -> & Hc).
  change (Re.Cat (Re.Class p) (Re.Star (Re.Class p)))
    with (Re.Plus (Re.Class p)) in H2.
  apply plus_class_inv in H2. destruct H2 as [Ht Hp].
  split.
  - destruct s2; [discriminate|]. unfold len. cbn. lia.
  - cbn. now rewrite Hc, Hp.
Qed.

Lemma validate_email_Ok_checks (s y : string) :
  validate_email (PyStr s) = Ok y ->
  (len y <= 254)%Z /\ Re.match_anchored email_pattern y = true
  /\ contains ".." y = false
  /\ startswith "." y = false.
Proof.
  unfold validate_email.
  destruct (truthy s); cbn [negb]; [|discriminate].
  destruct (truthy (lower (strip s))); cbn [negb]; [|discriminate].
  destruct (len (lower (strip s)) >? 254)%Z eqn:El; [discriminate|].
  destruct (Re.match_anchored email_pattern (lower (strip s))) eqn:Em;
    cbn [negb]; [|discriminate].
  destruct (contains ".." (lower (strip s))) eqn:Ec; [discriminate|].
  destruct (startswith "." (lower (strip s))) eqn:Es; [discriminate|].
  cbn [orb]. destruct (endswith "." (lower (strip s))); [discriminate|].
  intros [= <-]. repeat split; auto; lia.
Qed.

Lemma local_char_intro (c : ascii) :
  email_local_class c && negb (is_ascii_upper c) = true -> local_char c = true.
Proof. destruct c as [[] [] [] [] [] [] [] []]; vm_compute; congruence. Qed.

Lemma domain_char_intro (c : ascii) :
  email_domain_class c && negb (is_ascii_upper c) = true ->
  domain_char c = true.
Proof. destruct c as [[] [] [] [] [] [] [] []]; vm_compute; congruence. Qed.

Lemma lower_alpha_intro (c : ascii) :
  is_ascii_alpha c && negb (is_ascii_upper c) = true ->
  is_ascii_lower c = true.
Proof. destruct c as [[] [] [] [] [] [] [] []]; vm_compute; congruence. Qed.

(** X3.  An e-mail address that [validate_email] returns has the shape
    [local@domain.tld]: a non-empty local part of lower-case ASCII letters,
    digits and [._%+-], one [@], a non-empty domain of lower-case ASCII
    letters, digits, dots and hyphens, a dot, and two or more lower-case
    ASCII letters.  It has at most 254 characters, does not start with a
    dot and holds no two dots in a row. *)
Theorem validated_email_shape (x : pyobj) (y : string) :
  validate_email x = Ok y ->
  address_shape y /\ (len y <= 254)%Z
  /\ contains ".." y = false /\ startswith "." y = false.
Proof.
  intros H. destruct (validate_email_not_str _ _ H) as [s ->].
  destruct (validate_email_Ok_checks _ _ H) as (Hl & Hm & Hc & Hs).
  split; [|auto].
  pose proof (validate_email_Ok _ _ H) as Hy. subst y.
  rewrite match_anchored_normalized in Hm.
  pose proof (forallb_not_upper_lower (strip s)) as Hlow.
  revert Hm Hlow. generalize (lower (strip s)). intros y Hm Hlow.
  unfold email_pattern in Hm.
  apply fullmatch_Cat_inv in Hm. destruct Hm as (l & r1 & -> & Hpl & Hm).
  apply fullmatch_Cat_inv in Hm. destruct Hm as (at_ & r2 & -> & Hat & Hm).
  apply fullmatch_Cat_inv in Hm. destruct Hm as (d & r3 & -> & Hd & Hm).
  apply fullmatch_Cat_inv in Hm. destruct Hm as (dot & a & -> & Hdot & Ha).
  apply plus_class_inv in Hpl. destruct Hpl as [Hlt Hlp].
  apply plus_class_inv in Hd. destruct Hd as [Hdt Hdp].
  apply at_least2_class_inv in Ha. destruct Ha as [Hal Hap].
  apply fullmatch_Class_inv in Hat. destruct Hat as (c1 & -> & Hc1).
  apply fullmatch_Class_inv in Hdot. destruct Hdot as (c2 & -> & Hc2).
  apply Ascii.eqb_eq in Hc1, Hc2. subst c1 c2.
  rewrite !forallb_app in Hlow.
  apply andb_true_iff in Hlow. destruct Hlow as [Hl1 Hlow].
  apply andb_true_iff in Hlow. destruct Hlow as [_ Hlow].
  apply andb_true_iff in Hlow. destruct Hlow as [Hl2 Hlow].
  apply andb_true_iff in Hlow. destruct Hlow as [_ Hl3].
  exists l, d, a. split; [reflexivity|].
  repeat split; auto.
  - exact (forallb_weaken _ _ _ local_char_intro (forallb_and _ _ _ Hlp Hl1)).
  - exact (forallb_weaken _ _ _ domain_char_intro (forallb_and _ _ _ Hdp Hl2)).
  - exact (forallb_weaken _ _ _ lower_alpha_intro (forallb_and _ _ _ Hap Hl3)).
Qed.

Lemma validated_email_shape_witness :
  validate_email (PyStr " Jane.Smith@Example.ORG ") = Ok "jane.smith@example.org"
  /\ address_shape "jane.smith@example.org"
  /\ (len "jane.smith@example.org" <= 254)%Z
  /\ contains ".." "jane.smith@example.org" = false
  /\ startswith "." "jane.smith@example.org" = false.
Proof.
  split; [vm_compute; reflexivity|].
  apply (validated_email_shape (PyStr " Jane.Smith@Example.ORG ")).
  vm_compute; reflexivity.
Defined.

Lemma validate_email_fixed (x : pyobj) (y : string) :
  validate_email x = Ok y -> validate_email (PyStr y) = Ok y.
Proof.
  intros H. destruct (validate_email_not_str _ _ H) as [s ->].
  apply (validate_email_same_normal s y y H).
  rewrite (validate_email_Ok _ _ H).
  now rewrite strip_lower, strip_idem, lower_idem.
Qed.

(** X4.  [validate_member_data] checks the name, then the e-mail, then the
    phone, and stops at the first one that fails: what it raises is what
    the validator of that field raised, it names that field, and the fields
    before it are valid. *)
Theorem validate_member_data_first_failure (n e p : pyobj) (x : exn) :
  validate_member_data n e p = Raise x ->
  (validate_name n = Raise x /\ is_invalid_field "name" x)
  \/ ((exists vn, validate_name n = Ok vn)
      /\ validate_email e = Raise x /\ is_invalid_field "email" x)
  \/ ((exists vn, validate_name n = Ok vn)
      /\ (exists ve, validate_email e = Ok ve)
      /\ validate_phone p = Raise x /\ is_invalid_field "phone" x).
Proof.
  unfold validate_member_data.
  destruct (validate_name n) as [vn|en] eqn:En.
  - destruct (validate_email e) as [ve|ee] eqn:Ee.
    + destruct (validate_phone p) as [vp|ep] eqn:Ep; [discriminate|].
      intros [= <-]. right. right.
      split; [eauto|]. split; [eauto|].
      split; [reflexivity|exact (validate_phone_raises _ _ Ep)].
    + intros [= <-]. right. left.
      split; [eauto|].
      split; [reflexivity|exact (validate_email_raises _ _ Ee)].
  - intros [= <-]. left.
    split; [reflexivity|exact (validate_name_raises _ _ En)].
Qed.

Lemma validate_member_data_first_failure_witness :
  validate_member_data (PyStr "A") (PyStr "not an address") (PyStr "12")
  = Raise (InvalidMemberDataError "name" "A"
             "Name must be at least 2 characters long")
  /\ ((validate_name (PyStr "A")
       = Raise (InvalidMemberDataError "name" "A"
                  "Name must be at least 2 characters long")
       /\ is_invalid_field "name"
            (InvalidMemberDataError "name" "A"
               "Name must be at least 2 characters long"))
      \/ ((exists vn, validate_name (PyStr "A") = Ok vn)
          /\ validate_email (PyStr "not an address")
             = Raise (InvalidMemberDataError "name" "A"
                        "Name must be at least 2 characters long")
          /\ is_invalid_field "email"
               (InvalidMemberDataError "name" "A"
                  "Name must be at least 2 characters long"))
      \/ ((exists vn, validate_name (PyStr "A") = Ok vn)
          /\ (exists ve, validate_email (PyStr "not an address") = Ok ve)
          /\ validate_phone (PyStr "12")
             = Raise (InvalidMemberDataError "name" "A"
                        "Name must be at least 2 characters long")
          /\ is_invalid_field "phone"
               (InvalidMemberDataError "name" "A"
                  "Name must be at least 2 characters long"))).
Proof.
  split; [reflexivity|].
  apply (validate_member_data_first_failure
           (PyStr "A") (PyStr "not an address") (PyStr "12")).
  reflexivity.
Defined.

Lemma validate_member_data_fixed (n e p : pyobj) vn ve vp :
  validate_member_data n e p = Ok (vn, ve, vp) ->
  validate_member_data (PyStr vn) (PyStr ve) (of_option vp) = Ok (vn, ve, vp).
Proof.
  intros H. apply validate_member_data_Ok in H. destruct H as (Hn & He & Hp).
  unfold validate_member_data.
  now rewrite (validate_name_fixed _ _ Hn), (validate_email_fixed _ _ He),
    (validate_phone_fixed _ _ Hp).
Qed.

(** X5.  What [validate_member_data] returns is in normal form: validated
    again, the three values come back unchanged.  The values also fit the
    columns that [app/models.py] declares: a name of at most 100
    characters, an e-mail address of at most 254, a phone of at most 20. *)
Theorem validate_member_data_idempotent (n e p : pyobj)
  (vn ve : string) (vp : option string) :
  validate_member_data n e p = Ok (vn, ve, vp) ->
  validate_member_data (PyStr vn) (PyStr ve) (of_option vp) = Ok (vn, ve, vp)
  /\ (len vn <= 100)%Z /\ (len ve <= 254)%Z
  /\ (forall q, vp = Some q -> (len q <= 20)%Z).
Proof.
  intros H. split; [exact (validate_member_data_fixed _ _ _ _ _ _ H)|].
  apply validate_member_data_Ok in H. destruct H as (Hn & He & Hp).
  destruct (validate_name_Ok _ _ Hn) as (s & -> & -> & _ & Hl & _).
  destruct (validate_email_not_str _ _ He) as [t ->].
  destruct (validate_email_Ok_checks _ _ He) as (Hle & _).
  split; [lia|]. split; [exact Hle|].
  intros q ->.
  destruct (validate_phone_Ok _ _ Hp) as (w & -> & -> & _ & Hlp & _).
  exact Hlp.
Qed.

Lemma validate_member_data_idempotent_witness :
  validate_member_data (PyStr " Jane Smith ") (PyStr "Jane@Example.org ")
    (PyStr " 0812 3456 789")
  = Ok ("Jane Smith", "jane@example.org", Some "0812 3456 789")
  /\ validate_member_data (PyStr "Jane Smith") (PyStr "jane@example.org")
       (of_option (Some "0812 3456 789"))
     = Ok ("Jane Smith", "jane@example.org", Some "0812 3456 789")
  /\ (len "Jane Smith" <= 100)%Z /\ (len "jane@example.org" <= 254)%Z
  /\ (forall q, Some "0812 3456 789" = Some q -> (len q <= 20)%Z).
Proof.
  split; [vm_compute; reflexivity|].
  apply (validate_member_data_idempotent (PyStr " Jane Smith ")
           (PyStr "Jane@Example.org ") (PyStr " 0812 3456 789")).
  vm_compute; reflexivity.
Defined.

End ValidatedValues.

(* ================================================================== *)
(** * Further invariants of the session operations *)
(* ================================================================== *)

(** ** The table holds validated values *)

Section StoredValues.

Lemma row_valid_fields (m : Member.t) :
  row_valid m <->
  validate_name (PyStr (Member.name m)) = Ok (Member.name m)
  /\ validate_email (PyStr (Member.email m)) = Ok (Member.email m)
  /\ validate_phone (of_option (Member.phone m)) = Ok (Member.phone m).
Proof.
  unfold row_valid. split.
  - apply validate_member_data_Ok.
  - intros (Hn & He & Hp). unfold validate_member_data.
    now rewrite Hn, He, Hp.
Qed.

Lemma row_valid_intro (k : option Z) (vn ve : string) (vp : option string)
  (n e p : pyobj) :
  validate_member_data n e p = Ok (vn, ve, vp) ->
  row_valid (Member.make k vn ve vp).
Proof. exact (validate_member_data_fixed n e p vn ve vp). Qed.

Lemma row_valid_set_id (k : option Z) (m : Member.t) :
  row_valid m -> row_valid (Member.set_id k m).
Proof. now destruct m. Qed.

Lemma update_data_valid_empty : update_data_valid UpdateData.empty.
Proof. repeat split; discriminate. Qed.

Lemma row_valid_apply (ud : UpdateData.t) (m : Member.t) :
  update_data_valid ud -> row_valid m -> row_valid (UpdateData.apply ud m).
Proof.
  intros (Hn & He & Hp) Hm. apply row_valid_fields in Hm.
  destruct Hm as (Mn & Me & Mp). apply row_valid_fields.
  destruct ud as [[n|] [e|] [p|]], m as [i mn me mp];
    cbn in *; repeat split; auto.
Qed.

Lemma store_valid_logged (c : call) (s : Session) :
  store_valid s -> store_valid (logged c s).
Proof. auto. Qed.

Lemma store_valid_rollback (s : Session) :
  store_valid s -> store_valid (after_rollback s).
Proof.
  intros [Hr Hp]. unfold after_rollback.
  destruct (raises s (log s) CallRollback); split; auto.
Qed.

Lemma apply_change_valid (ch : change) (tbl tbl' : list Member.t) k :
  Forall row_valid tbl -> change_valid ch ->
  apply_change ch tbl = Ok (tbl', k) -> Forall row_valid tbl'.
Proof.
  intros Ht Hc. destruct ch as [m|i m|i]; cbn [apply_change change_valid] in *.
  - destruct (existsb _ tbl); [discriminate|].
    destruct (check_unique _ m tbl _ _); [|discriminate].
    intros [= <- _]. apply Forall_app. split; [exact Ht|].
    constructor; [now apply row_valid_set_id|constructor].
  - destruct (find_by_id i tbl) as [old|]; [|discriminate].
    destruct (changed_columns old m) as [|c cs]; [now intros [= <- _]|].
    destruct (check_unique i m tbl _ _); [|discriminate].
    intros [= <- _]. apply Forall_map.
    revert Ht. apply Forall_impl. intros r Hr.
    now destruct (Member.has_id i r).
  - intros [= <- _]. apply Forall_forall. intros r Hr.
    apply filter_In in Hr. destruct Hr as [Hr _].
    revert r Hr. now apply Forall_forall.
Qed.

Lemma apply_changes_valid (chs : list change) (tbl tbl' : list Member.t) k k' :
  Forall row_valid tbl -> Forall change_valid chs ->
  apply_changes chs tbl k = Ok (tbl', k') -> Forall row_valid tbl'.
Proof.
  revert tbl k. induction chs as [|ch rest IH]; intros tbl k Ht Hc; cbn.
  - now intros [= <- _].
  - inversion Hc as [|? ? Hch Hrest]; subst.
    destruct (apply_change ch tbl) as [[tbl1 k1]|e] eqn:E; [|discriminate].
    apply IH; [|exact Hrest]. exact (apply_change_valid _ _ _ _ Ht Hch E).
Qed.

Lemma find_valid (p : Member.t -> bool) (tbl : list Member.t) :
  Forall row_valid tbl -> found_valid (find p tbl).
Proof.
  intros Ht m Hm. apply find_some in Hm. destruct Hm as [Hm _].
  revert m Hm. now apply Forall_forall.
Qed.

Lemma valid_exec_by_email (e : string) :
  triple store_valid (session_exec_by_email e) found_valid any_exn.
Proof.
  apply triple_store_call; [auto using store_valid_logged|now intros|].
  intros s r s' Hs [= <- <-]. split; [exact Hs|]. apply find_valid, Hs.
Qed.

Lemma valid_exec_by_phone (p : string) :
  triple store_valid (session_exec_by_phone p) found_valid any_exn.
Proof.
  apply triple_store_call; [auto using store_valid_logged|now intros|].
  intros s r s' Hs [= <- <-]. split; [exact Hs|]. apply find_valid, Hs.
Qed.

Lemma valid_get (i : Z) :
  triple store_valid (session_get i) found_valid any_exn.
Proof.
  apply triple_store_call; [auto using store_valid_logged|now intros|].
  intros s r s' Hs [= <- <-]. split; [exact Hs|]. apply find_valid, Hs.
Qed.

Lemma Forall_skipn {A} (P : A -> Prop) (n : nat) (l : list A) :
  Forall P l -> Forall P (skipn n l).
Proof.
  intros H. apply Forall_forall. intros x Hx.
  apply (proj1 (Forall_forall P l) H). rewrite <- (firstn_skipn n l).
  apply in_or_app. now right.
Qed.

Lemma Forall_firstn {A} (P : A -> Prop) (n : nat) (l : list A) :
  Forall P l -> Forall P (firstn n l).
Proof.
  intros H. apply Forall_forall. intros x Hx.
  apply (proj1 (Forall_forall P l) H). rewrite <- (firstn_skipn n l).
  apply in_or_app. now left.
Qed.

Lemma valid_exec_all (skip limit : Z) :
  triple store_valid (session_exec_all skip limit) (Forall row_valid) any_exn.
Proof.
  apply triple_store_call; [auto using store_valid_logged|now intros|].
  intros s r s' Hs [= <- <-]. split; [exact Hs|]. destruct Hs as [Hr _].
  destruct (limit <? 0)%Z; auto using Forall_skipn, Forall_firstn.
Qed.

Lemma valid_add (m : Member.t) :
  row_valid m ->
  triple store_valid (session_add m) (fun _ => True) any_exn.
Proof.
  intros Hm. apply triple_store_call; [auto using store_valid_logged|now intros|].
  intros s r s' [Hr Hp] [= <- <-]. split; [|exact I].
  split; [exact Hr|]. cbn. apply Forall_app. split; [exact Hp|].
  constructor; [|constructor]. now destruct (Member.id m).
Qed.

Lemma valid_delete (m : Member.t) :
  triple store_valid (session_delete m) (fun _ => True) any_exn.
Proof.
  apply triple_store_call; [auto using store_valid_logged|now intros|].
  intros s r s' [Hr Hp] [= <- <-]. split; [|exact I].
  split; [exact Hr|]. cbn. apply Forall_app. split; [exact Hp|].
  destruct (Member.id m); repeat constructor.
Qed.

Lemma valid_commit :
  triple store_valid session_commit (fun _ => True) any_exn.
Proof.
  apply triple_store_call; [auto using store_valid_logged|now intros|].
  intros s r s' [Hr Hp].
  destruct (apply_changes (pending s) (rows s) None) as [[tbl k]|e] eqn:E;
    intros [= <- <-].
  - split; [|exact I]. split; [|constructor].
    exact (apply_changes_valid _ _ _ _ _ Hr Hp E).
  - now split.
Qed.

Lemma valid_refresh (m : Member.t) :
  triple store_valid (session_refresh m) row_valid any_exn.
Proof.
  apply triple_store_call; [auto using store_valid_logged|now intros|].
  intros s r s' Hs. destruct (Member.id m) as [i|]; [|now intros [= <- <-]].
  destruct (find_by_id i (rows s)) as [x|] eqn:E; intros [= <- <-].
  - split; [exact Hs|]. exact (find_valid _ _ (proj1 Hs) x E).
  - now split.
Qed.

Lemma valid_rolls_back {A} (h : exn -> M A) (e : exn) (Q : A -> Prop) :
  rolls_back h -> triple store_valid (h e) Q any_exn.
Proof.
  intros Hh s r s' Hs H. destruct (Hh e s) as [e' He'].
  rewrite He' in H. injection H as <- <-.
  split; [now apply store_valid_rollback|exact I].
Qed.

Lemma valid_get_member_by_email (q : string) :
  triple store_valid (get_member_by_email q) found_valid any_exn.
Proof.
  eapply triple_try_except; [apply valid_exec_by_email|].
  intros e _. now apply triple_raise.
Qed.

Lemma valid_get_member_by_phone (p : string) :
  triple store_valid (get_member_by_phone p) found_valid any_exn.
Proof.
  eapply triple_try_except; [apply valid_exec_by_phone|].
  intros e _. now apply triple_raise.
Qed.

Lemma valid_get_member_by_id (i : Z) :
  triple store_valid (get_member_by_id i) found_valid any_exn.
Proof.
  eapply triple_try_except; [apply valid_get|].
  intros e _. now apply triple_raise.
Qed.

Lemma valid_get_all_members (skip limit : Z) :
  triple store_valid (get_all_members skip limit) (Forall row_valid) any_exn.
Proof.
  eapply triple_try_except; [apply valid_exec_all|].
  intros e _. now apply triple_raise.
Qed.

Lemma valid_create_member (d : MemberCreate.t) :
  triple store_valid (create_member d) row_valid any_exn.
Proof.
  unfold create_member.
  eapply triple_bind.
  - eapply triple_try_except.
    + apply triple_lift with (E := any_exn); [|now intros].
      intros a Ha. exact Ha.
    + intros e _. apply valid_rolls_back.
      intros e0 s. apply create_member_except_run.
  - intros [[vn ve] vp] Hv. cbv beta iota.
    eapply triple_try_except with (Eb := any_exn).
    2:{ intros e _. apply valid_rolls_back.
        intros e0 s. apply create_member_except_run. }
    eapply triple_bind; [apply valid_get_member_by_email|]. intros r1 _.
    eapply triple_bind with (Qa := fun _ => True).
    { destruct r1; [now apply triple_raise|now apply triple_ret]. }
    intros _ _.
    eapply triple_bind with (Qa := fun _ => True).
    { destruct vp as [p|]; [|now apply triple_ret].
      destruct (PyStr.truthy p); [|now apply triple_ret].
      eapply triple_bind; [apply valid_get_member_by_phone|]. intros r2 _.
      destruct r2; [now apply triple_raise|now apply triple_ret]. }
    intros _ _.
    eapply triple_bind; [apply valid_add; exact (row_valid_intro _ _ _ _ _ _ _ Hv)|].
    intros _ _.
    eapply triple_bind; [apply valid_commit|]. intros key _.
    apply valid_refresh.
Qed.

Lemma valid_update_find (i : Z) :
  triple store_valid (update_find i) row_valid any_exn.
Proof.
  eapply triple_try_except with (Eb := any_exn).
  2:{ intros e _. apply valid_rolls_back.
      intros e0 s. apply update_member_except_run. }
  eapply triple_bind; [apply valid_get_member_by_id|]. intros r Hr.
  destruct r as [m|]; [|now apply triple_raise].
  apply triple_ret. now apply Hr.
Qed.

Lemma update_data_valid_set_name (v : string) (x : pyobj) (ud : UpdateData.t) :
  validate_name x = Ok v -> update_data_valid ud ->
  update_data_valid (UpdateData.set_name v ud).
Proof.
  intros Hv (Hn & He & Hp). repeat split; auto.
  cbn. intros ? [= <-]. exact (validate_name_fixed _ _ Hv).
Qed.

Lemma update_data_valid_set_email (v : string) (x : pyobj) (ud : UpdateData.t) :
  validate_email x = Ok v -> update_data_valid ud ->
  update_data_valid (UpdateData.set_email v ud).
Proof.
  intros Hv (Hn & He & Hp). repeat split; auto.
  cbn. intros ? [= <-]. exact (validate_email_fixed _ _ Hv).
Qed.

Lemma update_data_valid_set_phone (v : option string) (x : pyobj)
  (ud : UpdateData.t) :
  validate_phone x = Ok v -> update_data_valid ud ->
  update_data_valid (UpdateData.set_phone v ud).
Proof.
  intros Hv (Hn & He & Hp). repeat split; auto.
  cbn. intros ? [= <-]. exact (validate_phone_fixed _ _ Hv).
Qed.

Lemma valid_update_name (d : MemberUpdate.t) (ud : UpdateData.t) :
  update_data_valid ud ->
  triple store_valid (update_name d ud) update_data_valid any_exn.
Proof.
  intros Hud. eapply triple_try_except with (Eb := any_exn).
  2:{ intros e _. apply valid_rolls_back.
      intros e0 s. apply update_member_except_run. }
  destruct (MemberUpdate.name d) as [n|]; [|now apply triple_ret].
  eapply triple_bind.
  - apply triple_lift with (E := any_exn); [|now intros].
    intros a Ha. exact Ha.
  - intros [[vn ve] vp] Hv. apply triple_ret.
    apply validate_member_data_Ok in Hv. destruct Hv as (Hn & _).
    exact (update_data_valid_set_name _ _ _ Hn Hud).
Qed.

Lemma valid_update_email (i : Z) (d : MemberUpdate.t) (ud : UpdateData.t) :
  update_data_valid ud ->
  triple store_valid (update_email i d ud) update_data_valid any_exn.
Proof.
  intros Hud. eapply triple_try_except with (Eb := any_exn).
  2:{ intros e _. apply valid_rolls_back.
      intros e0 s. apply update_member_except_run. }
  destruct (MemberUpdate.email d) as [x|]; [|now apply triple_ret].
  eapply triple_bind.
  - apply triple_lift with (E := any_exn); [|now intros].
    intros a Ha. exact Ha.
  - intros [[vn ve] vp] Hv. cbn [fst snd].
    apply validate_member_data_Ok in Hv. destruct Hv as (_ & He & _).
    eapply triple_bind; [apply valid_get_member_by_email|]. intros r _.
    eapply triple_bind with (Qa := fun _ => True).
    { destruct r as [other|]; [|now apply triple_ret].
      destruct (negb _); [now apply triple_raise|now apply triple_ret]. }
    intros _ _. apply triple_ret.
    exact (update_data_valid_set_email _ _ _ He Hud).
Qed.

Lemma valid_update_phone (i : Z) (d : MemberUpdate.t) (ud : UpdateData.t) :
  update_data_valid ud ->
  triple store_valid (update_phone i d ud) update_data_valid any_exn.
Proof.
  intros Hud. eapply triple_try_except with (Eb := any_exn).
  2:{ intros e _. apply valid_rolls_back.
      intros e0 s. apply update_member_except_run. }
  destruct (MemberUpdate.phone d) as [x|]; [|now apply triple_ret].
  eapply triple_bind.
  - apply triple_lift with (E := any_exn); [|now intros].
    intros a Ha. exact Ha.
  - intros [[vn ve] vp] Hv. cbn [fst snd].
    apply validate_member_data_Ok in Hv. destruct Hv as (_ & _ & Hp).
    eapply triple_bind with (Qa := fun _ => True).
    { destruct vp as [p|]; [|now apply triple_ret].
      destruct (PyStr.truthy p); [|now apply triple_ret].
      eapply triple_bind; [apply valid_get_member_by_phone|]. intros r _.
      destruct r as [other|]; [|now apply triple_ret].
      destruct (negb _); [now apply triple_raise|now apply triple_ret]. }
    intros _ _. apply triple_ret.
    exact (update_data_valid_set_phone _ _ _ Hp Hud).
Qed.

Lemma valid_update_write (ud : UpdateData.t) (m : Member.t) :
  update_data_valid ud -> row_valid m ->
  triple store_valid (update_write ud m) row_valid any_exn.
Proof.
  intros Hud Hm. eapply triple_try_except with (Eb := any_exn).
  2:{ intros e _. apply valid_rolls_back.
      intros e0 s. apply update_member_except_run. }
  cbv zeta.
  eapply triple_bind; [apply valid_add; now apply row_valid_apply|].
  intros _ _.
  eapply triple_bind; [apply valid_commit|]. intros _ _.
  apply valid_refresh.
Qed.

Lemma valid_update_member (i : Z) (d : MemberUpdate.t) :
  triple store_valid (update_member i d) row_valid any_exn.
Proof.
  rewrite update_member_blocks.
  eapply triple_bind; [apply valid_update_find|]. intros m Hm.
  eapply triple_bind;
    [apply valid_update_name, update_data_valid_empty|]. intros ud1 H1.
  eapply triple_bind; [apply valid_update_email, H1|]. intros ud2 H2.
  eapply triple_bind; [apply valid_update_phone, H2|]. intros ud3 H3.
  now apply valid_update_write.
Qed.

Lemma valid_delete_member (i : Z) :
  triple store_valid (delete_member i) (fun _ => True) any_exn.
Proof.
  eapply triple_try_except with (Eb := any_exn).
  2:{ intros e _. apply valid_rolls_back.
      intros e0 s. apply delete_member_except_run. }
  eapply triple_bind; [apply valid_get_member_by_id|]. intros r _.
  destruct r as [m|]; [|now apply triple_raise].
  eapply triple_bind; [apply valid_delete|]. intros _ _.
  eapply triple_bind; [apply valid_commit|]. intros _ _.
  now apply triple_ret.
Qed.

(** X6.  The table only ever holds validated values.  From a session whose
    rows, committed or waiting in the unit of work, all hold values that
    [validate_member_data] returns unchanged, every write (creation, update
    or deletion) leaves such a session, whatever the store does and whether
    or not the write succeeds; a member that a write or a lookup returns
    holds such values too. *)
Theorem stored_values_validated (s : Session) :
  store_valid s ->
  (forall d, store_valid (snd (create_member d s))
             /\ forall m, fst (create_member d s) = Ok m -> row_valid m)
  /\ (forall i d, store_valid (snd (update_member i d s))
                  /\ forall m, fst (update_member i d s) = Ok m -> row_valid m)
  /\ (forall i, store_valid (snd (delete_member i s)))
  /\ (forall i m, fst (get_member_by_id i s) = Ok (Some m) -> row_valid m)
  /\ (forall q m, fst (get_member_by_email q s) = Ok (Some m) -> row_valid m)
  /\ (forall p m, fst (get_member_by_phone p s) = Ok (Some m) -> row_valid m)
  /\ (forall skip limit l,
        fst (get_all_members skip limit s) = Ok l -> Forall row_valid l).
Proof.
  intros Hs.
  assert (run : forall A (m : M A) Q, triple store_valid m Q any_exn ->
            store_valid (snd (m s)) /\ forall a, fst (m s) = Ok a -> Q a).
  { intros A m Q Hm. destruct (m s) as [r s'] eqn:E.
    destruct (Hm _ _ _ Hs E) as [Hs' Hr]. split; [exact Hs'|].
    cbn. intros a ->. exact Hr. }
  split; [intros d; exact (run _ _ _ (valid_create_member d))|].
  split; [intros i d; exact (run _ _ _ (valid_update_member i d))|].
  split; [intros i; exact (proj1 (run _ _ _ (valid_delete_member i)))|].
  split; [intros i m H;
          exact (proj2 (run _ _ _ (valid_get_member_by_id i)) _ H m eq_refl)|].
  split; [intros q m H;
          exact (proj2 (run _ _ _ (valid_get_member_by_email q)) _ H m eq_refl)|].
  split; [intros p m H;
          exact (proj2 (run _ _ _ (valid_get_member_by_phone p)) _ H m eq_refl)|].
  intros skip limit l H.
  exact (proj2 (run _ _ _ (valid_get_all_members skip limit)) _ H).
Qed.

Lemma stored_values_validated_witness :
  store_valid two_members
  /\ store_valid (snd (create_member john two_members))
  /\ store_valid (snd (update_member 2 rename_only two_members))
  /\ store_valid (snd (delete_member 1 two_members)).
Proof.
  assert (H : store_valid two_members).
  { split; [|constructor].
    repeat constructor; vm_compute; reflexivity. }
  split; [exact H|].
  destruct (stored_values_validated two_members H) as (Hc & Hu & Hd & _).
  split; [exact (proj1 (Hc john))|].
  split; [exact (proj1 (Hu 2%Z rename_only))|exact (Hd 1%Z)].
Defined.

End StoredValues.

(** ** Classes of failures *)

Section Failures.

Lemma honest_logged (c : call) (s : Session) : honest s -> honest (logged c s).
Proof. auto. Qed.

Lemma honest_raises (s : Session) (c : call) (e : exn) :
  honest s -> raises s (log s) c = Some e -> store_exn e.
Proof. intros H. apply H. Qed.

Lemma check_unique_raises (i : Z) (m : Member.t) (tbl : list Member.t)
    statement params (e : exn) :
  check_unique i m tbl statement params = Raise e -> store_exn e.
Proof.
  unfold check_unique. repeat break_if; try discriminate; now intros [= <-].
Qed.

Lemma apply_change_raises (ch : change) (tbl : list Member.t) (e : exn) :
  apply_change ch tbl = Raise e -> store_exn e.
Proof.
  destruct ch as [m|i m|i]; cbn [apply_change].
  - destruct (existsb _ tbl); [now intros [= <-]|].
    destruct (check_unique _ m tbl _ _) eqn:E; [discriminate|].
    intros [= <-]. exact (check_unique_raises _ _ _ _ _ _ E).
  - destruct (find_by_id i tbl) as [old|]; [|now intros [= <-]].
    destruct (changed_columns old m) as [|c cs]; [discriminate|].
    destruct (check_unique i m tbl _ _) eqn:E; [discriminate|].
    intros [= <-]. exact (check_unique_raises _ _ _ _ _ _ E).
  - discriminate.
Qed.

Lemma apply_changes_raises (chs : list change) (tbl : list Member.t) k (e : exn) :
  apply_changes chs tbl k = Raise e -> store_exn e.
Proof.
  revert tbl k. induction chs as [|ch rest IH]; intros tbl k; cbn;
    [discriminate|].
  destruct (apply_change ch tbl) as [[tbl1 k1]|e1] eqn:E.
  - apply IH.
  - intros [= <-]. exact (apply_change_raises _ _ _ E).
Qed.

(** A call that looks rows up. *)
Lemma honest_reading {A} (c : call) (f : Session -> A) :
  triple honest (store_call c (fun s => (Ok (f s), s))) (fun _ => True) store_exn.
Proof.
  apply triple_store_call;
    [auto using honest_logged|intros s e; apply honest_raises|].
  intros s r s' Hs [= <- <-]. now split.
Qed.

Lemma honest_add (m : Member.t) :
  triple honest (session_add m) (fun _ => True) store_exn.
Proof.
  apply triple_store_call;
    [auto using honest_logged|intros s e; apply honest_raises|].
  intros s r s' Hs [= <- <-]. now split.
Qed.

Lemma honest_delete (m : Member.t) :
  triple honest (session_delete m) (fun _ => True) store_exn.
Proof.
  apply triple_store_call;
    [auto using honest_logged|intros s e; apply honest_raises|].
  intros s r s' Hs [= <- <-]. now split.
Qed.

Lemma honest_commit :
  triple honest session_commit (fun _ => True) store_exn.
Proof.
  apply triple_store_call;
    [auto using honest_logged|intros s e; apply honest_raises|].
  intros s r s' Hs.
  destruct (apply_changes (pending s) (rows s) None) as [[tbl k]|e] eqn:E;
    intros [= <- <-]; split; auto.
  exact (apply_changes_raises _ _ _ _ E).
Qed.

Lemma honest_refresh (m : Member.t) :
  triple honest (session_refresh m) (fun _ => True) store_exn.
Proof.
  apply triple_store_call;
    [auto using honest_logged|intros s e; apply honest_raises|].
  intros s r s' Hs. destruct (Member.id m) as [i|];
    [|intros [= <- <-]; now split].
  destruct (find_by_id i (rows s)); intros [= <- <-]; now split.
Qed.

Lemma honest_after_rollback (s : Session) :
  honest s -> honest (after_rollback s).
Proof. intros H h c e. rewrite after_rollback_raises. apply H. Qed.

(** A handler reports [e], unless its rollback fails. *)
Lemma honest_rollback_raise {A} (e : exn) (Q : A -> Prop) (E : exn -> Prop) :
  E e ->
  triple honest (session_rollback ;;; raise e) Q (fun x => E x \/ store_exn x).
Proof.
  intros He s r s' Hs. rewrite rollback_raise_run. intros [= <- <-].
  split; [now apply honest_after_rollback|].
  destruct (raises s (log s) CallRollback) as [x|] eqn:Ex; [right|now left].
  exact (Hs _ _ _ Ex).
Qed.

Lemma honest_get_member_by_email (q : string) :
  triple honest (get_member_by_email q) (fun _ => True)
    (operation_failed "get_member_by_email").
Proof.
  eapply triple_try_except; [apply honest_reading|].
  intros e _. apply triple_raise. now eexists.
Qed.

Lemma honest_get_member_by_phone (p : string) :
  triple honest (get_member_by_phone p) (fun _ => True)
    (operation_failed "get_member_by_phone").
Proof.
  eapply triple_try_except; [apply honest_reading|].
  intros e _. apply triple_raise. now eexists.
Qed.

Lemma honest_get_member_by_id (i : Z) :
  triple honest (get_member_by_id i) (fun _ => True)
    (operation_failed "get_member_by_id").
Proof.
  eapply triple_try_except; [apply honest_reading|].
  intros e _. apply triple_raise. now eexists.
Qed.

Lemma honest_get_all_members (skip limit : Z) :
  triple honest (get_all_members skip limit) (fun _ => True)
    (operation_failed "get_all_members").
Proof.
  eapply triple_try_except.
  - unfold session_exec_all.
    apply (honest_reading (CallExecAll skip limit)
             (fun s => let rest := skipn (Z.to_nat skip) (rows s) in
                       if (limit <? 0)%Z then rest
                       else firstn (Z.to_nat limit) rest)).
  - intros e _. apply triple_raise. now eexists.
Qed.

Lemma validate_member_data_invalid (n e p : pyobj) (x : exn) :
  validate_member_data n e p = Raise x -> invalid_data x.
Proof.
  unfold validate_member_data.
  destruct (validate_name n) eqn:En.
  - destruct (validate_email e) eqn:Ee.
    + destruct (validate_phone p) eqn:Ep; [discriminate|].
      intros [= <-]. destruct (validate_phone_raises _ _ Ep) as (v & r & ->).
      exists "phone", v, r. unfold member_field. auto.
    + intros [= <-]. destruct (validate_email_raises _ _ Ee) as (v & r & ->).
      exists "email", v, r. unfold member_field. auto.
  - intros [= <-]. destruct (validate_name_raises _ _ En) as (v & r & ->).
    exists "name", v, r. unfold member_field. auto.
Qed.

Lemma create_member_except_errors {A} (ve : string) (vp : option string)
  (e : exn) (Q : A -> Prop) :
  store_exn e \/ already_exists e \/ (exists op, operation_failed op e) ->
  triple honest (create_member_except (Some (ve, vp)) e) Q
    (fun x => create_errors x \/ store_exn x).
Proof.
  intros He. unfold create_errors. destruct e; cbn [create_member_except].
  - exfalso. destruct He as [He|[He|[op He]]];
      [discriminate He|destruct He as (? & ? & [=] & _)
      |destruct He as (? & [=])].
  - apply honest_rollback_raise. right. left.
    destruct He as [He|[He|[op He]]];
      [discriminate He|exact He|destruct He as (? & [=])].
  - apply honest_rollback_raise. right. right. now eexists.
  - apply honest_rollback_raise. right. right. now eexists.
  - destruct (PyStr.contains "email" _).
    + apply honest_rollback_raise. right. left.
      exists "email", (PyStr ve). split; [reflexivity|now left].
    + destruct (PyStr.contains "phone" _).
      * apply honest_rollback_raise. right. left.
        eexists "phone", _. split; [reflexivity|now right].
      * apply honest_rollback_raise. right. right. now eexists.
  - apply honest_rollback_raise. right. right. now eexists.
Qed.

Lemma update_member_except_errors {A} (i : Z) (ud : option UpdateData.t)
  (e : exn) (Q : A -> Prop) :
  (ud = None -> ~ store_exn e) ->
  body_exn i e ->
  triple honest (update_member_except ud e) Q
    (fun x => update_errors i x \/ store_exn x).
Proof.
  intros Hud He. unfold update_errors. destruct e; cbn [update_member_except].
  - apply honest_rollback_raise. left.
    destruct He as [He|[He|[He|[He|[op He]]]]];
      [discriminate He|exact He|destruct He as (? & ? & [=] & _)
      |discriminate He|destruct He as (? & [=])].
  - apply honest_rollback_raise. right. left.
    destruct He as [He|[He|[He|[He|[op He]]]]];
      [discriminate He|destruct He as (? & ? & ? & [=] & _)|exact He
      |discriminate He|destruct He as (? & [=])].
  - apply honest_rollback_raise. right. right. left.
    destruct He as [He|[He|[He|[He|[op He]]]]];
      [discriminate He|destruct He as (? & ? & ? & [=] & _)
      |destruct He as (? & ? & [=] & _)|exact He|destruct He as (? & [=])].
  - apply honest_rollback_raise. right. right. right. now eexists.
  - destruct ud as [d|]; [|exfalso; now apply Hud].
    destruct (PyStr.contains "email" _).
    + apply honest_rollback_raise. right. left.
      eexists "email", _. split; [reflexivity|now left].
    + destruct (PyStr.contains "phone" _).
      * apply honest_rollback_raise. right. left.
        eexists "phone", _. split; [reflexivity|now right].
      * apply honest_rollback_raise. right. right. right. now eexists.
  - apply honest_rollback_raise. right. right. right. now eexists.
Qed.

Lemma delete_member_except_errors {A} (i : Z) (e : exn) (Q : A -> Prop) :
  store_exn e \/ not_found i e \/ (exists op, operation_failed op e) ->
  triple honest (delete_member_except e) Q
    (fun x => delete_errors i x \/ store_exn x).
Proof.
  intros He. unfold delete_errors. destruct e; cbn [delete_member_except];
    try (apply honest_rollback_raise; right; now eexists).
  apply honest_rollback_raise. left.
  destruct He as [He|[He|[op He]]];
    [discriminate He|exact He|destruct He as (? & [=])].
Qed.

Lemma honest_create_member (d : MemberCreate.t) :
  triple honest (create_member d) (fun _ => True)
    (fun e => create_errors e \/ store_exn e).
Proof.
  unfold create_member. eapply triple_bind with (Qa := fun _ => True).
  - eapply triple_try_except.
    + apply triple_lift with (E := invalid_data); [now intros|].
      intros e. apply validate_member_data_invalid.
    + intros e He. cbn [create_member_except].
      destruct He as (f & v & r & -> & Hf).
      apply honest_rollback_raise. left. now exists f, v, r.
  - intros [[vn ve] vp] _. cbv beta iota.
    eapply triple_try_except; [|intros e; apply create_member_except_errors].
    eapply triple_bind with (Qa := fun _ => True).
    { eapply triple_weaken; [apply honest_get_member_by_email|auto|].
      intros e He. right. right. eauto. }
    intros r1 _.
    eapply triple_bind with (Qa := fun _ => True).
    { destruct r1; [|now apply triple_ret].
      apply triple_raise. right. left.
      eexists "email", _. split; [reflexivity|now left]. }
    intros _ _.
    eapply triple_bind with (Qa := fun _ => True).
    { destruct vp as [p|]; [|now apply triple_ret].
      destruct (PyStr.truthy p); [|now apply triple_ret].
      eapply triple_bind with (Qa := fun _ => True).
      { eapply triple_weaken; [apply honest_get_member_by_phone|auto|].
        intros e He. right. right. eauto. }
      intros r2 _. destruct r2; [|now apply triple_ret].
      apply triple_raise. right. left.
      eexists "phone", _. split; [reflexivity|now right]. }
    intros _ _.
    eapply triple_bind with (Qa := fun _ => True).
    { eapply triple_weaken; [apply honest_add|auto|]. intros e He. now left. }
    intros _ _.
    eapply triple_bind with (Qa := fun _ => True).
    { eapply triple_weaken; [apply honest_commit|auto|]. intros e He. now left. }
    intros key _.
    eapply triple_weaken; [apply honest_refresh|auto|]. intros e He. now left.
Qed.

Lemma honest_update_member (i : Z) (d : MemberUpdate.t) :
  triple honest (update_member i d) (fun _ => True)
    (fun e => update_errors i e \/ store_exn e).
Proof.
  rewrite update_member_blocks.
  eapply triple_bind with (Qa := fun _ => True).
  { unfold update_find.
    eapply triple_try_except
      with (Eb := fun e => not_found i e \/ exists op, operation_failed op e).
    - eapply triple_bind with (Qa := fun _ => True).
      + eapply triple_weaken; [apply honest_get_member_by_id|auto|].
        intros e He. right. eauto.
      + intros r _. destruct r; [now apply triple_ret|].
        apply triple_raise. now left.
    - intros e He. apply update_member_except_errors.
      + intros _ Hs. destruct He as [->|(op & dt & ->)]; discriminate Hs.
      + unfold body_exn. tauto. }
  intros m _.
  eapply triple_bind with (Qa := fun _ => True).
  { unfold update_name.
    eapply triple_try_except with (Eb := body_exn i); [|intros e He; apply (update_member_except_errors i);
       [discriminate|exact He]].
    destruct (MemberUpdate.name d); [|now apply triple_ret].
    eapply triple_bind with (Qa := fun _ => True); [|intros; now apply triple_ret].
    apply triple_lift; [now intros|].
    intros e He. right. left. exact (validate_member_data_invalid _ _ _ _ He). }
  intros ud1 _.
  eapply triple_bind with (Qa := fun _ => True).
  { unfold update_email.
    eapply triple_try_except with (Eb := body_exn i); [|intros e He; apply (update_member_except_errors i);
       [discriminate|exact He]].
    destruct (MemberUpdate.email d); [|now apply triple_ret].
    eapply triple_bind with (Qa := fun _ => True).
    { apply triple_lift; [now intros|].
      intros e He. right. left. exact (validate_member_data_invalid _ _ _ _ He). }
    intros v _.
    eapply triple_bind with (Qa := fun _ => True).
    { eapply triple_weaken; [apply honest_get_member_by_email|auto|].
      intros e He. unfold body_exn. eauto 6. }
    intros r _.
    eapply triple_bind with (Qa := fun _ => True); [|intros; now apply triple_ret].
    destruct r; [|now apply triple_ret].
    destruct (negb _); [|now apply triple_ret].
    apply triple_raise. right. right. left.
    eexists "email", _. split; [reflexivity|now left]. }
  intros ud2 _.
  eapply triple_bind with (Qa := fun _ => True).
  { unfold update_phone.
    eapply triple_try_except with (Eb := body_exn i); [|intros e He; apply (update_member_except_errors i);
       [discriminate|exact He]].
    destruct (MemberUpdate.phone d); [|now apply triple_ret].
    eapply triple_bind with (Qa := fun _ => True).
    { apply triple_lift; [now intros|].
      intros e He. right. left. exact (validate_member_data_invalid _ _ _ _ He). }
    intros v _.
    eapply triple_bind with (Qa := fun _ => True); [|intros; now apply triple_ret].
    destruct (snd v) as [p|]; [|now apply triple_ret].
    destruct (PyStr.truthy p); [|now apply triple_ret].
    eapply triple_bind with (Qa := fun _ => True).
    { eapply triple_weaken; [apply honest_get_member_by_phone|auto|].
      intros e He. unfold body_exn. eauto 6. }
    intros r _. destruct r; [|now apply triple_ret].
    destruct (negb _); [|now apply triple_ret].
    apply triple_raise. right. right. left.
    eexists "phone", _. split; [reflexivity|now right]. }
  intros ud3 _.
  unfold update_write.
  eapply triple_try_except with (Eb := body_exn i); [|intros e He; apply (update_member_except_errors i);
       [discriminate|exact He]].
  cbv zeta.
  eapply triple_bind with (Qa := fun _ => True).
  { eapply triple_weaken; [apply honest_add|auto|]. intros e He. now left. }
  intros _ _.
  eapply triple_bind with (Qa := fun _ => True).
  { eapply triple_weaken; [apply honest_commit|auto|]. intros e He. now left. }
  intros _ _.
  eapply triple_weaken; [apply honest_refresh|auto|]. intros e He. now left.
Qed.

Lemma honest_delete_member (i : Z) :
  triple honest (delete_member i) (fun _ => True)
    (fun e => delete_errors i e \/ store_exn e).
Proof.
  unfold delete_member.
  eapply triple_try_except; [|intros e; apply delete_member_except_errors].
  eapply triple_bind with (Qa := fun _ => True).
  { eapply triple_weaken; [apply honest_get_member_by_id|auto|].
    intros e He. right. right. eauto. }
  intros r _. destruct r as [m|]; [|apply triple_raise; right; now left].
  eapply triple_bind with (Qa := fun _ => True).
  { eapply triple_weaken; [apply honest_delete|auto|]. intros e He. now left. }
  intros _ _.
  eapply triple_bind with (Qa := fun _ => True).
  { eapply triple_weaken; [apply honest_commit|auto|]. intros e He. now left. }
  intros _ _. now apply triple_ret.
Qed.

Lemma contained_not_store (e : exn) : api_exn e -> store_exn e -> False.
Proof. unfold api_exn, store_exn. congruence. Qed.

(** X7.  On a store that raises nothing but its own exceptions, each
    operation of [app/crud.py] fails in one of its own ways only, as long
    as the rollback of its [except] clause succeeds.  [create_member]
    reports an invalid name, e-mail or phone, an e-mail or phone that
    already exists, or a failed operation ["create_member"];
    [update_member] reports these (under its own name) or that member
    [member_id] is not found; [delete_member] reports that member
    [member_id] is not found or a failed operation ["delete_member"]; a
    lookup reports a failed operation under its own name.  When the
    rollback may fail, the only other failure of a write is an exception
    of the store. *)
Theorem failures_classified (s : Session) :
  honest s ->
  (forall i e, fst (get_member_by_id i s) = Raise e ->
     operation_failed "get_member_by_id" e)
  /\ (forall q e, fst (get_member_by_email q s) = Raise e ->
        operation_failed "get_member_by_email" e)
  /\ (forall p e, fst (get_member_by_phone p s) = Raise e ->
        operation_failed "get_member_by_phone" e)
  /\ (forall skip limit e, fst (get_all_members skip limit s) = Raise e ->
        operation_failed "get_all_members" e)
  /\ (forall d e, fst (create_member d s) = Raise e ->
        create_errors e \/ store_exn e)
  /\ (forall i d e, fst (update_member i d s) = Raise e ->
        update_errors i e \/ store_exn e)
  /\ (forall i e, fst (delete_member i s) = Raise e ->
        delete_errors i e \/ store_exn e)
  /\ (calm s ->
      (forall d e, fst (create_member d s) = Raise e -> create_errors e)
      /\ (forall i d e, fst (update_member i d s) = Raise e ->
            update_errors i e)
      /\ (forall i e, fst (delete_member i s) = Raise e -> delete_errors i e)).
Proof.
  intros Hs.
  split; [intros i;
          exact (proj2 (proj2 (triple_run _ _ _ _ s (honest_get_member_by_id i) Hs)))|].
  split; [intros q;
          exact (proj2 (proj2 (triple_run _ _ _ _ s (honest_get_member_by_email q) Hs)))|].
  split; [intros p;
          exact (proj2 (proj2 (triple_run _ _ _ _ s (honest_get_member_by_phone p) Hs)))|].
  split; [intros skip limit;
          exact (proj2 (proj2 (triple_run _ _ _ _ s (honest_get_all_members skip limit) Hs)))|].
  pose proof (fun d => proj2 (proj2 (triple_run _ _ _ _ s (honest_create_member d) Hs)))
    as Hc.
  pose proof (fun i d =>
                proj2 (proj2 (triple_run _ _ _ _ s (honest_update_member i d) Hs)))
    as Hu.
  pose proof (fun i => proj2 (proj2 (triple_run _ _ _ _ s (honest_delete_member i) Hs)))
    as Hd.
  cbv beta in Hc, Hu, Hd.
  split; [exact Hc|]. split; [exact Hu|]. split; [exact Hd|].
  intros Hcalm.
  split; [intros d e H; destruct (Hc d e H) as [|Hx]; [assumption|];
          exfalso; apply (contained_not_store e); [|exact Hx];
          exact (proj2 (proj2 (triple_run _ _ _ _ s (contained_create_member d) Hcalm))
                   e H)|].
  split; [intros i d e H; destruct (Hu i d e H) as [|Hx]; [assumption|];
          exfalso; apply (contained_not_store e); [|exact Hx];
          exact (proj2 (proj2 (triple_run _ _ _ _ s (contained_update_member i d) Hcalm))
                   e H)|].
  intros i e H; destruct (Hd i e H) as [|Hx]; [assumption|].
  exfalso; apply (contained_not_store e); [|exact Hx].
  exact (proj2 (proj2 (triple_run _ _ _ _ s (contained_delete_member i) Hcalm)) e H).
Qed.

Lemma honest_commit_raises (e : exn) :
  store_exn e -> honest (mkSession [] [] [] (commit_raises e)).
Proof.
  intros He h c x. cbn. destruct c; try discriminate. now intros [= <-].
Qed.

Lemma failures_classified_witness :
  honest racing_session
  /\ fst (create_member john racing_session)
     = Raise (MemberAlreadyExistsError "email" (PyStr "john@example.com"))
  /\ (create_errors (MemberAlreadyExistsError "email" (PyStr "john@example.com"))
      \/ store_exn (MemberAlreadyExistsError "email" (PyStr "john@example.com"))).
Proof.
  assert (H : honest racing_session) by (now apply honest_commit_raises).
  split; [exact H|]. split; [vm_compute; reflexivity|].
  apply (proj1 (proj2 (proj2 (proj2 (proj2 (failures_classified racing_session H)))))
           john).
  vm_compute; reflexivity.
Defined.

End Failures.

(* ================================================================== *)
(** * Reading back what was written *)
(* ================================================================== *)

Lemma find_app_other {A} (p : A -> bool) (l : list A) (a : A) :
  p a = false -> find p (l ++ [a]) = find p l.
Proof.
  intros Ha. induction l as [|x l IH]; cbn; [now rewrite Ha|].
  now destruct (p x).
Qed.

Lemma has_id_other (i j : Z) (m : Member.t) :
  Member.id m = Some i -> j <> i -> Member.has_id j m = false.
Proof.
  unfold Member.has_id. intros -> H. now apply Z.eqb_neq.
Qed.

(** X8.  A member that [create_member] returned is in the table and can be
    read back.  On a session without uncommitted work and a store that
    answers: the table is the old one with the new row at its end; the row
    holds the validated values of the input and a key above every key of
    the table; [get_member_by_id] of that key and [get_member_by_phone] of
    its phone return the member; every other key still leads to the row it
    led to. *)
Theorem created_member_read_back
  (s s1 : Session) (d : MemberCreate.t) (m : Member.t)
  (Hclean : pending s = [])
  (Hstore : forall h c, raises s h c = None)
  (Hcreate : create_member d s = (Ok m, s1)) :
  rows s1 = (rows s ++ [m])%list
  /\ validate_member_data (PyStr (MemberCreate.name d))
       (PyStr (MemberCreate.email d)) (of_option (MemberCreate.phone d))
     = Ok (Member.name m, Member.email m, Member.phone m)
  /\ exists k,
       Member.id m = Some k
       /\ (forall r j, In r (rows s) -> Member.id r = Some j -> (j < k)%Z)
       /\ fst (get_member_by_id k s1) = Ok (Some m)
       /\ (forall p, Member.phone m = Some p ->
             fst (get_member_by_phone p s1) = Ok (Some m))
       /\ (forall j, j <> k -> find_by_id j (rows s1) = find_by_id j (rows s)).
Proof.
  rewrite (create_member_run s d Hclean (fault_free_only_commit s Hstore))
    in Hcreate.
  destruct (validate_member_data _ _ _) as [[[vn ve] vp]|e] eqn:Ev;
    [|discriminate].
  destruct (find_by_email ve (rows s)) eqn:Ee; [discriminate|].
  destruct (match vp with Some p => find_by_phone p (rows s) | None => None end)
    eqn:Ep; [discriminate|].
  cbv zeta in Hcreate. rewrite Hstore in Hcreate.
  injection Hcreate as <- <-.
  cbn [after rows Member.set_id Member.id Member.name Member.email Member.phone].
  split; [reflexivity|]. split; [reflexivity|].
  exists (next_rowid (rows s)). split; [reflexivity|]. split; [|split; [|split]].
  - intros r j. apply next_rowid_above.
  - rewrite get_member_by_id_run. cbn [fst after raises rows].
    rewrite Hstore. unfold find_by_id.
    rewrite find_app_new;
      [reflexivity|apply next_rowid_fresh|apply has_id_intro; reflexivity].
  - intros p ->. rewrite get_member_by_phone_run. cbn [fst after raises rows].
    rewrite Hstore. unfold find_by_phone.
    rewrite find_app_new; [reflexivity|now apply find_None_existsb|].
    unfold Member.has_phone. cbn. apply String.eqb_refl.
  - intros j Hj. unfold find_by_id. apply find_app_other.
    now apply (has_id_other (next_rowid (rows s))).
Qed.

Lemma created_member_read_back_witness :
  pending (open_session []) = []
  /\ (forall h c, raises (open_session []) h c = None)
  /\ create_member john (open_session []) = (Ok john_row, john_session)
  /\ rows john_session = [john_row]
  /\ exists k,
       Member.id john_row = Some k
       /\ (forall r j, In r (rows (open_session [])) -> Member.id r = Some j ->
             (j < k)%Z)
       /\ fst (get_member_by_id k john_session) = Ok (Some john_row)
       /\ (forall p, Member.phone john_row = Some p ->
             fst (get_member_by_phone p john_session) = Ok (Some john_row))
       /\ (forall j, j <> k ->
             find_by_id j (rows john_session)
             = find_by_id j (rows (open_session []))).
Proof.
  assert (Hrun : create_member john (open_session []) = (Ok john_row, john_session))
    by reflexivity.
  destruct (created_member_read_back (open_session []) john_session
              john john_row eq_refl (fun _ _ => eq_refl) Hrun)
    as (Hrows & _ & Hkey).
  split; [reflexivity|]. split; [reflexivity|]. split; [exact Hrun|].
  split; [exact Hrows|exact Hkey].
Defined.

(** ** Deleting *)

Lemma delete_member_run (s : Session) (i : Z)
  (Hclean : pending s = [])
  (Hstore : forall h c, raises s h c = None) :
  delete_member i s =
  match find_by_id i (rows s) with
  | None =>
      (Raise (MemberNotFoundError "id" (PyStr.of_Z i)),
       after s [CallGet i; CallRollback] (rows s))
  | Some m =>
      (Ok true,
       after s [CallGet i; CallDelete m; CallCommit]
         (List.filter (fun r => negb (Member.has_id i r)) (rows s)))
  end.
Proof.
  unfold delete_member, try_except, bind. rewrite get_member_by_id_run, Hstore.
  destruct (find_by_id i (rows s)) as [m|] eqn:Em.
  - unfold session_delete, session_commit. rewrite store_call_run.
    cbn [logged with_pending log raises rows pending]. rewrite Hstore.
    rewrite store_call_run.
    cbn [logged with_pending log raises rows pending]. rewrite Hstore.
    rewrite Hclean. apply find_by_id_Some in Em. destruct Em as [_ ->].
    cbn. unfold after. now norm_session.
  - unfold raise. cbn [delete_member_except]. rewrite rollback_raise_run.
    unfold after_rollback. cbn [logged log raises]. rewrite !Hstore.
    unfold after. now norm_session.
Qed.

Lemma find_filter_same (i : Z) (tbl : list Member.t) :
  find_by_id i (List.filter (fun r => negb (Member.has_id i r)) tbl) = None.
Proof.
  unfold find_by_id. induction tbl as [|r tbl IH]; cbn; [reflexivity|].
  destruct (Member.has_id i r) eqn:E; cbn; [exact IH|]. now rewrite E.
Qed.

Lemma find_filter_other (i j : Z) (tbl : list Member.t) :
  j <> i ->
  find_by_id j (List.filter (fun r => negb (Member.has_id i r)) tbl)
  = find_by_id j tbl.
Proof.
  intros Hj. unfold find_by_id. induction tbl as [|r tbl IH]; cbn; [reflexivity|].
  destruct (Member.has_id i r) eqn:E; cbn.
  - rewrite (has_id_other i j r (has_id_inv _ _ E) Hj). exact IH.
  - destruct (Member.has_id j r); [reflexivity|exact IH].
Qed.

(** X9.  A member that [delete_member] deleted is gone, and only that
    member.  On a session without uncommitted work and a store that
    answers, deleting a key that is in the table returns [True] and leaves
    the table without the rows of that key; [get_member_by_id] of the key
    then returns [None], a second [delete_member] raises
    [MemberNotFoundError] on [id] and changes nothing, and every other key
    still leads to the row it led to. *)
Theorem deleted_member_gone (s : Session) (i : Z) (m : Member.t)
  (Hclean : pending s = [])
  (Hstore : forall h c, raises s h c = None)
  (Hm : find_by_id i (rows s) = Some m) :
  exists s1,
    delete_member i s = (Ok true, s1)
    /\ rows s1 = List.filter (fun r => negb (Member.has_id i r)) (rows s)
    /\ fst (get_member_by_id i s1) = Ok None
    /\ fst (delete_member i s1)
       = Raise (MemberNotFoundError "id" (PyStr.of_Z i))
    /\ rows (snd (delete_member i s1)) = rows s1
    /\ (forall j, j <> i -> find_by_id j (rows s1) = find_by_id j (rows s)).
Proof.
  rewrite (delete_member_run s i Hclean Hstore), Hm.
  eexists. split; [reflexivity|]. cbn [after rows].
  split; [reflexivity|]. split; [|split; [|split]].
  - rewrite get_member_by_id_run. cbn [fst after raises rows].
    now rewrite Hstore, find_filter_same.
  - rewrite delete_member_run; [|reflexivity|exact Hstore].
    cbn [after rows]. now rewrite find_filter_same.
  - rewrite delete_member_run; [|reflexivity|exact Hstore].
    cbn [after rows]. now rewrite find_filter_same.
  - intros j Hj. now apply find_filter_other.
Qed.

Lemma deleted_member_gone_witness :
  pending two_members = []
  /\ (forall h c, raises two_members h c = None)
  /\ find_by_id 1 (rows two_members) = Some john_row
  /\ exists s1,
       delete_member 1 two_members = (Ok true, s1)
       /\ rows s1 = List.filter (fun r => negb (Member.has_id 1 r))
                      (rows two_members)
       /\ fst (get_member_by_id 1 s1) = Ok None
       /\ fst (delete_member 1 s1) = Raise (MemberNotFoundError "id" (PyStr.of_Z 1))
       /\ rows (snd (delete_member 1 s1)) = rows s1
       /\ (forall j, j <> 1%Z ->
             find_by_id j (rows s1) = find_by_id j (rows two_members)).
Proof.
  split; [reflexivity|]. split; [reflexivity|]. split; [reflexivity|].
  exact (deleted_member_gone two_members 1 john_row eq_refl
           (fun _ _ => eq_refl) eq_refl).
Defined.

(** ** A member that does not exist *)

(** X10.  For a key that is not in the table, on a store that answers the
    lookup and the rollback, [update_member] and [delete_member] make the
    lookup, roll back and raise [MemberNotFoundError] on [id] with the key
    as text.  [update_member] does so for every payload, valid or not: the
    payload is validated after the lookup only. *)
Theorem missing_member_not_found (s : Session) (i : Z)
  (Hm : find_by_id i (rows s) = None)
  (Hget : raises s (log s) (CallGet i) = None)
  (Hrollback : raises s (log s ++ [CallGet i]) CallRollback = None) :
  (forall d,
     update_member i d s
     = (Raise (MemberNotFoundError "id" (PyStr.of_Z i)),
        after s [CallGet i; CallRollback] (rows s)))
  /\ delete_member i s
     = (Raise (MemberNotFoundError "id" (PyStr.of_Z i)),
        after s [CallGet i; CallRollback] (rows s)).
Proof.
  split.
  - intros d. rewrite update_member_blocks. unfold bind at 1.
    unfold update_find, try_except, bind.
    rewrite get_member_by_id_run, Hget, Hm.
    cbn [raise update_member_except].
    rewrite rollback_raise_run. unfold after_rollback.
    cbn [logged log raises]. rewrite Hrollback.
    unfold after. now norm_session.
  - unfold delete_member, try_except, bind.
    rewrite get_member_by_id_run, Hget, Hm.
    cbn [raise delete_member_except].
    rewrite rollback_raise_run. unfold after_rollback.
    cbn [logged log raises]. rewrite Hrollback.
    unfold after. now norm_session.
Qed.

Lemma missing_member_not_found_witness :
  find_by_id 7 (rows two_members) = None
  /\ raises two_members (log two_members) (CallGet 7) = None
  /\ raises two_members (log two_members ++ [CallGet 7]) CallRollback = None
  /\ update_member 7 (MemberUpdate.make (Some "") None None) two_members
     = (Raise (MemberNotFoundError "id" "7"),
        after two_members [CallGet 7; CallRollback] (rows two_members))
  /\ delete_member 7 two_members
     = (Raise (MemberNotFoundError "id" "7"),
        after two_members [CallGet 7; CallRollback] (rows two_members)).
Proof.
  split; [reflexivity|]. split; [reflexivity|]. split; [reflexivity|].
  destruct (missing_member_not_found two_members 7 eq_refl eq_refl eq_refl)
    as [Hu Hd].
  split; [exact (Hu (MemberUpdate.make (Some "") None None))|exact Hd].
Defined.

(** ** Conflicts on update *)

Lemma update_email_conflict (s : Session) (i : Z) (d : MemberUpdate.t)
  (ud : UpdateData.t) (x v : string) (other : Member.t) :
  (forall h c, raises s h c = None) ->
  MemberUpdate.email d = Some x ->
  validate_email (PyStr x) = Ok v ->
  find_by_email v (rows s) = Some other ->
  Member.has_id i other = false ->
  update_email i d ud s
  = (Raise (MemberAlreadyExistsError "email" (PyStr v)),
     with_pending [] (logged CallRollback (logged (CallExecByEmail v) s))).
Proof.
  intros Hstore Hd Hv Hfound Hother.
  unfold update_email. rewrite Hd. unfold try_except, bind at 1, lift.
  unfold validate_member_data. rewrite validate_dummy_name, Hv.
  cbn [validate_phone fst snd]. unfold bind at 1. unfold bind at 1.
  rewrite get_member_by_email_run, (validated_email_lower _ _ Hv), Hstore, Hfound.
  rewrite Hother. unfold raise at 1. cbn [negb update_member_except].
  rewrite rollback_raise_run. unfold after_rollback.
  cbn [logged log raises]. now rewrite !Hstore.
Qed.

Lemma update_phone_conflict (s : Session) (i : Z) (d : MemberUpdate.t)
  (ud : UpdateData.t) (w p : string) (other : Member.t) :
  (forall h c, raises s h c = None) ->
  MemberUpdate.phone d = Some w ->
  validate_phone (PyStr w) = Ok (Some p) ->
  find_by_phone p (rows s) = Some other ->
  Member.has_id i other = false ->
  update_phone i d ud s
  = (Raise (MemberAlreadyExistsError "phone" (PyStr p)),
     with_pending [] (logged CallRollback (logged (CallExecByPhone p) s))).
Proof.
  intros Hstore Hd Hv Hfound Hother.
  unfold update_phone. rewrite Hd. unfold try_except, bind at 1, lift.
  unfold validate_member_data. rewrite validate_dummy_name, validate_dummy_email, Hv.
  cbn [fst snd]. rewrite (validated_phone_truthy _ _ Hv).
  unfold bind at 1. unfold bind at 1.
  rewrite get_member_by_phone_run, Hstore, Hfound.
  rewrite Hother. unfold raise at 1. cbn [negb update_member_except].
  rewrite rollback_raise_run. unfold after_rollback.
  cbn [logged log raises]. now rewrite !Hstore.
Qed.

(** X11.  [update_member] refuses an e-mail or a phone that another member
    holds, and changes nothing.  On a store that answers, for a member that
    is in the table and a payload whose name, if supplied, is valid: when
    the validated e-mail of the payload is that of a row with another key,
    the update raises [MemberAlreadyExistsError] on [email] with that
    e-mail; when the e-mail is absent or acceptable and the validated phone
    of the payload is that of a row with another key, it raises
    [MemberAlreadyExistsError] on [phone] with that phone.  In both cases
    the table is left as it was and the unit of work is empty. *)
Theorem update_rejects_values_of_other_member (s : Session) (i : Z)
  (d : MemberUpdate.t) (m other : Member.t)
  (Hstore : forall h c, raises s h c = None)
  (Hm : find_by_id i (rows s) = Some m)
  (Hname : field_valid validate_name (MemberUpdate.name d))
  (Hother : Member.has_id i other = false) :
  (forall x v,
     MemberUpdate.email d = Some x -> validate_email (PyStr x) = Ok v ->
     find_by_email v (rows s) = Some other ->
     fst (update_member i d s)
     = Raise (MemberAlreadyExistsError "email" (PyStr v))
     /\ rows (snd (update_member i d s)) = rows s
     /\ pending (snd (update_member i d s)) = [])
  /\ (forall w p,
        field_valid validate_email (MemberUpdate.email d) ->
        (forall v, validated_field validate_email (MemberUpdate.email d) = Some v ->
                   email_held_by i v (rows s)) ->
        MemberUpdate.phone d = Some w -> validate_phone (PyStr w) = Ok (Some p) ->
        find_by_phone p (rows s) = Some other ->
        fst (update_member i d s)
        = Raise (MemberAlreadyExistsError "phone" (PyStr p))
        /\ rows (snd (update_member i d s)) = rows s
        /\ pending (snd (update_member i d s)) = []).
Proof.
  destruct (update_find_ok s i m Hstore Hm) as (s1 & Hfind & Hr1 & Hp1 & Hs1).
  assert (Hstore1 : forall h c, raises s1 h c = None)
    by (intros h c; now rewrite Hs1).
  split.
  - intros x v Hd Hv Hfound.
    assert (Hrun : update_member i d s
              = (Raise (MemberAlreadyExistsError "email" (PyStr v)),
                 with_pending []
                   (logged CallRollback (logged (CallExecByEmail v) s1)))).
    { rewrite update_member_blocks. unfold bind at 1. rewrite Hfind.
      unfold bind at 1. rewrite (update_name_ok s1 d _ Hname).
      unfold bind at 1.
      rewrite (update_email_conflict s1 i d _ x v other Hstore1 Hd Hv);
        [reflexivity|now rewrite Hr1|exact Hother]. }
    rewrite Hrun. cbn. auto.
  - intros w p Hemail Hheld Hd Hv Hfound.
    destruct (update_email_ok s1 i d
                (match validated_field validate_name (MemberUpdate.name d) with
                 | Some v => UpdateData.set_name v UpdateData.empty
                 | None => UpdateData.empty
                 end) Hstore1 Hemail)
      as (s2 & Hemail2 & Hr2 & Hp2 & Hs2).
    { intros v Hvf. rewrite Hr1. now apply Hheld. }
    assert (Hstore2 : forall h c, raises s2 h c = None)
      by (intros h c; now rewrite Hs2).
    assert (Hrun : update_member i d s
              = (Raise (MemberAlreadyExistsError "phone" (PyStr p)),
                 with_pending []
                   (logged CallRollback (logged (CallExecByPhone p) s2)))).
    { rewrite update_member_blocks. unfold bind at 1. rewrite Hfind.
      unfold bind at 1. rewrite (update_name_ok s1 d _ Hname).
      unfold bind at 1. rewrite Hemail2. unfold bind at 1.
      rewrite (update_phone_conflict s2 i d _ w p other Hstore2 Hd Hv);
        [reflexivity|now rewrite Hr2, Hr1|exact Hother]. }
    rewrite Hrun. cbn. rewrite Hr2, Hr1. auto.
Qed.

Lemma update_rejects_values_of_other_member_witness :
  (forall h c, raises two_members h c = None)
  /\ find_by_id 2 (rows two_members) = Some jane_row
  /\ field_valid validate_name (MemberUpdate.name same_contact)
  /\ Member.has_id 2 john_row = false
  /\ fst (update_member 2 same_contact two_members)
     = Raise (MemberAlreadyExistsError "email" (PyStr "john@example.com"))
  /\ rows (snd (update_member 2 same_contact two_members)) = rows two_members
  /\ pending (snd (update_member 2 same_contact two_members)) = [].
Proof.
  split; [reflexivity|]. split; [reflexivity|]. split; [exact I|].
  split; [reflexivity|].
  apply (proj1 (update_rejects_values_of_other_member two_members 2
                  same_contact jane_row john_row (fun _ _ => eq_refl)
                  eq_refl I eq_refl) " John@Example.COM" "john@example.com");
    reflexivity.
Defined.

(** ** Pages of [get_all_members] *)

Lemma get_all_members_run (skip limit : Z) (s : Session) :
  get_all_members skip limit s =
  (match raises s (log s) (CallExecAll skip limit) with
   | Some e => Raise (DatabaseOperationError "get_all_members" (exn_str e))
   | None =>
       Ok (let rest := skipn (Z.to_nat skip) (rows s) in
           if (limit <? 0)%Z then rest else firstn (Z.to_nat limit) rest)
   end, logged (CallExecAll skip limit) s).
Proof.
  unfold get_all_members, try_except, session_exec_all. rewrite store_call_run.
  now destruct (raises s (log s) (CallExecAll skip limit)).
Qed.

Lemma firstn_plus {A} (a b : nat) (l : list A) :
  firstn (a + b) l = (firstn a l ++ firstn b (skipn a l))%list.
Proof.
  revert l. induction a as [|a IH]; intros l; [reflexivity|].
  destruct l as [|x l]; cbn; [now rewrite firstn_nil|]. now rewrite IH.
Qed.

(** X12.  [get_all_members] pages through the table.  On a store that
    answers, for a non-negative [skip] and non-negative limits [a] and [b]:
    the page of [a] rows after [skip] has at most [a] rows, and followed by
    the page of [b] rows after [skip + a] it makes the page of [a + b] rows
    after [skip]; reading a page leaves the table and the unit of work as
    they were. *)
Theorem get_all_members_pages (s : Session) (skip a b : Z)
  (Hstore : forall h c, raises s h c = None)
  (Hskip : (0 <= skip)%Z) (Ha : (0 <= a)%Z) (Hb : (0 <= b)%Z) :
  exists p1 p2 s1,
    get_all_members skip a s = (Ok p1, s1)
    /\ quiet s s1
    /\ (Z.of_nat (List.length p1) <= a)%Z
    /\ fst (get_all_members (skip + a) b s1) = Ok p2
    /\ fst (get_all_members skip (a + b) s) = Ok (p1 ++ p2)%list.
Proof.
  rewrite !get_all_members_run, !Hstore. cbv zeta.
  destruct (a <? 0)%Z eqn:Ea; [lia|].
  destruct (a + b <? 0)%Z eqn:Eab; [lia|].
  eexists _, _, _. split; [reflexivity|]. split; [apply quiet_logged|].
  split.
  - rewrite length_firstn. lia.
  - rewrite get_all_members_run. cbn [fst logged raises rows log].
    rewrite Hstore. cbv zeta.
    destruct (b <? 0)%Z eqn:Eb; [lia|].
    split; [reflexivity|]. cbn [fst]. f_equal.
    rewrite !Z2Nat.inj_add by lia.
    rewrite firstn_plus, skipn_skipn.
    now rewrite (Nat.add_comm (Z.to_nat a)).
Qed.

Lemma get_all_members_pages_witness :
  (forall h c, raises two_members h c = None)
  /\ (0 <= 0)%Z /\ (0 <= 1)%Z /\ (0 <= 5)%Z
  /\ exists p1 p2 s1,
       get_all_members 0 1 two_members = (Ok p1, s1)
       /\ quiet two_members s1
       /\ (Z.of_nat (List.length p1) <= 1)%Z
       /\ fst (get_all_members (0 + 1) 5 s1) = Ok p2
       /\ fst (get_all_members 0 (1 + 5) two_members) = Ok (p1 ++ p2)%list.
Proof.
  split; [reflexivity|]. split; [lia|]. split; [lia|]. split; [lia|].
  apply (get_all_members_pages two_members 0 1 5 (fun _ _ => eq_refl)); lia.
Defined.

(* ================================================================== *)
(** * Responses of the HTTP layer *)
(* ================================================================== *)

Section Responses.

Variable from_orm : Member.t -> option MemberResponse.t.

Lemma honest_serialize (m : Member.t) :
  triple honest (serialize from_orm m) (fun _ => True) store_exn.
Proof.
  unfold serialize. apply triple_lift; [now intros|].
  destruct (from_orm m); [discriminate|]. now intros e [= <-].
Qed.

Lemma honest_serialize_all (members : list Member.t) :
  triple honest (serialize_all from_orm members) (fun _ => True) store_exn.
Proof.
  induction members as [|m rest IH]; cbn [serialize_all].
  - now apply triple_ret.
  - eapply triple_bind; [apply honest_serialize|]. intros r _.
    eapply triple_bind; [apply IH|]. intros rs _. now apply triple_ret.
Qed.

Lemma endpoint_try_status {A} (body : M A) (reraised : exn -> bool)
  (detail : string) (E : exn -> Prop) (success : Z) (to_json : A -> json)
  (codes : list Z) (s : Session) :
  triple honest body (fun _ => True) E -> honest s ->
  In success codes -> In HTTP_500_INTERNAL_SERVER_ERROR codes ->
  (forall e, E e -> reraised e = true ->
     In (status_code (respond success to_json (Raised (AppException e)))) codes) ->
  In (status_code
        (respond success to_json (fst (endpoint_try body reraised detail s))))
     codes.
Proof.
  intros Hb Hs Hok H500 Hexn. unfold endpoint_try.
  destruct (body s) as [[a|e] s'] eqn:Eb; cbn [fst respond status_code];
    [exact Hok|].
  destruct (Hb _ _ _ Hs Eb) as [_ He].
  destruct (reraised e) eqn:Er; [|exact H500].
  exact (Hexn e He Er).
Qed.

(** X13.  Every endpoint answers with a status that its decorator
    documents.  On a store that raises nothing but its own exceptions, and
    whatever [from_orm] does, for every argument that the endpoint is
    called with: [POST /members/] answers 201, 400, 409 or 500;
    [GET /members/] 200 or 500; [GET /members/{id}] 200, 404 or 500;
    [PUT /members/{id}] 200, 400, 404, 409 or 500; [DELETE /members/{id}]
    204, 404 or 500.  A failed rollback included: the exception of the
    store that a write then raises is answered with 500. *)
Theorem endpoints_answer_documented_status (s : Session) :
  honest s ->
  (forall d, In (status_code (post_members from_orm d s)) [201; 400; 409; 500]%Z)
  /\ (forall skip limit,
        In (status_code (get_members from_orm skip limit s)) [200; 500]%Z)
  /\ (forall i, In (status_code (get_member from_orm i s)) [200; 404; 500]%Z)
  /\ (forall i d,
        In (status_code (put_member from_orm i d s)) [200; 400; 404; 409; 500]%Z)
  /\ (forall i,
        In (status_code (delete_member_route i s)) [204; 404; 500]%Z).
Proof.
  intros Hs. split; [|split; [|split; [|split]]].
  - intros d. unfold post_members, create_member_endpoint.
    apply endpoint_try_status
      with (E := fun e => create_errors e \/ store_exn e);
      [|exact Hs|cbn; tauto|cbn; tauto|].
    + eapply triple_bind with (Qa := fun _ => True).
      * eapply triple_weaken; [apply honest_create_member|auto|auto].
      * intros m _. eapply triple_weaken; [apply honest_serialize|auto|now right].
    + intros e He _. unfold create_errors in He.
      destruct e; cbn; try tauto; exfalso;
        unfold invalid_data, already_exists, operation_failed, store_exn in He;
        repeat match type of He with
               | _ \/ _ => destruct He as [He|He]
               end;
        try discriminate He;
        try (destruct He as (? & ? & ? & [=] & _));
        try (destruct He as (? & ? & [=] & _));
        try (destruct He as (? & [=])).
  - intros skip limit. unfold get_members, list_members_endpoint.
    apply endpoint_try_status
      with (E := fun e => operation_failed "get_all_members" e \/ store_exn e);
      [|exact Hs|cbn; tauto|cbn; tauto|].
    + cbv zeta. eapply triple_bind with (Qa := fun _ => True).
      * eapply triple_weaken; [apply honest_get_all_members|auto|now left].
      * intros l _.
        eapply triple_weaken; [apply honest_serialize_all|auto|now right].
    + intros e He Hr. destruct e; try discriminate Hr. cbn. tauto.
  - intros i. unfold get_member, get_member_endpoint.
    apply endpoint_try_status
      with (E := fun e => operation_failed "get_member_by_id" e
                          \/ not_found i e \/ store_exn e);
      [|exact Hs|cbn; tauto|cbn; tauto|].
    + eapply triple_bind with (Qa := fun _ => True).
      * eapply triple_weaken; [apply honest_get_member_by_id|auto|now left].
      * intros r _. destruct r as [m|].
        -- eapply triple_weaken; [apply honest_serialize|auto|]. intros e He. auto.
        -- apply triple_raise. right. now left.
    + intros e He Hr. destruct e; try discriminate Hr; cbn; tauto.
  - intros i d. unfold put_member, update_member_endpoint.
    apply endpoint_try_status
      with (E := fun e => update_errors i e \/ store_exn e);
      [|exact Hs|cbn; tauto|cbn; tauto|].
    + eapply triple_bind with (Qa := fun _ => True).
      * eapply triple_weaken; [apply honest_update_member|auto|auto].
      * intros m _. eapply triple_weaken; [apply honest_serialize|auto|now right].
    + intros e He Hr. destruct e; try discriminate Hr; cbn; tauto.
  - intros i. unfold delete_member_route, delete_member_endpoint.
    apply endpoint_try_status
      with (E := fun e => delete_errors i e \/ store_exn e);
      [|exact Hs|cbn; tauto|cbn; tauto|].
    + eapply triple_bind with (Qa := fun _ => True); [apply honest_delete_member|].
      intros _ _. now apply triple_ret.
    + intros e He Hr. destruct e; try discriminate Hr; cbn; tauto.
Qed.

End Responses.

Lemma honest_no_faults (tbl : list Member.t) : honest (open_session tbl).
Proof. intros h c e. discriminate. Qed.

Lemma endpoints_answer_documented_status_witness :
  honest two_members
  /\ In (status_code (post_members copy_attributes john two_members))
       [201; 400; 409; 500]%Z.
Proof.
  split; [apply honest_no_faults|].
  apply (proj1 (endpoints_answer_documented_status copy_attributes two_members
                  (honest_no_faults _)) john).
Defined.

Lemma create_member_invalid_run (s : Session) (d : MemberCreate.t) (e : exn) :
  validate_member_data (PyStr (MemberCreate.name d))
    (PyStr (MemberCreate.email d)) (of_option (MemberCreate.phone d)) = Raise e ->
  raises s (log s) CallRollback = None ->
  create_member d s = (Raise e, with_pending [] (logged CallRollback s)).
Proof.
  intros Hv Hr. unfold create_member, try_except, lift. unfold bind at 1.
  rewrite Hv.
  destruct (validate_member_data_invalid _ _ _ _ Hv) as (f & v & r & -> & _).
  cbn [create_member_except]. rewrite rollback_raise_run.
  unfold after_rollback. now rewrite Hr.
Qed.

(** X14.  [POST /members/] answers invalid data with 400 before the store
    is asked anything.  When [validate_member_data] rejects the payload on
    a field and the rollback of the [except] clause succeeds, then whatever
    else the store and [from_orm] do, the response has status 400 and a
    body that names the field and nothing else of the payload; the only
    call made on the session is a rollback, and the table is as it was. *)
Theorem invalid_payload_answered_400
  (from_orm : Member.t -> option MemberResponse.t)
  (s : Session) (d : MemberCreate.t) (field value reason : string) :
  validate_member_data (PyStr (MemberCreate.name d))
    (PyStr (MemberCreate.email d)) (of_option (MemberCreate.phone d))
  = Raise (InvalidMemberDataError field value reason) ->
  raises s (log s) CallRollback = None ->
  post_members from_orm d s
  = mkResponse 400
      (JObj [("detail", JStr ("The provided " ++ field ++ " is not valid"));
             ("field", JStr field);
             ("error_type", JStr "validation_error")])
  /\ rows (snd (create_member_endpoint from_orm d s)) = rows s
  /\ log (snd (create_member_endpoint from_orm d s)) = (log s ++ [CallRollback])%list.
Proof.
  intros Hv Hr. unfold post_members, create_member_endpoint, endpoint_try, bind.
  rewrite (create_member_invalid_run s d _ Hv Hr). cbn. auto.
Qed.

Lemma invalid_payload_answered_400_witness :
  validate_member_data (PyStr "Jane Smith") (PyStr "jane.example.org") PyNone
  = Raise (InvalidMemberDataError "email" "jane.example.org" "Invalid email format")
  /\ raises two_members (log two_members) CallRollback = None
  /\ post_members copy_attributes
       (MemberCreate.make "Jane Smith" "jane.example.org" None) two_members
     = mkResponse 400
         (JObj [("detail", JStr "The provided email is not valid");
                ("field", JStr "email");
                ("error_type", JStr "validation_error")]).
Proof.
  split; [vm_compute; reflexivity|]. split; [reflexivity|].
  apply (invalid_payload_answered_400 copy_attributes two_members
           (MemberCreate.make "Jane Smith" "jane.example.org" None)
           "email" "jane.example.org" "Invalid email format");
    vm_compute; reflexivity.
Defined.

(** X15.  The response to a failure shows the class of the failure and the
    field it names, and nothing else: two exceptions of the same class that
    name the same field are answered alike, whatever value, reason,
    operation or details they carry. *)
Theorem failure_responses_hide_values {A} (success : Z) (body : A -> json)
  (e1 e2 : exn) :
  same_class_and_field e1 e2 ->
  respond success body (Raised (AppException e1))
  = respond success body (Raised (AppException e2)).
Proof.
  destruct e1, e2; cbn; try contradiction; try reflexivity; now intros ->.
Qed.

Lemma failure_responses_hide_values_witness :
  same_class_and_field
    (MemberAlreadyExistsError "email" (PyStr "john@example.com"))
    (MemberAlreadyExistsError "email" (PyStr "jane@example.com"))
  /\ respond 201 member_json
       (Raised (AppException
                  (MemberAlreadyExistsError "email" (PyStr "john@example.com"))))
     = respond 201 member_json
         (Raised (AppException
                    (MemberAlreadyExistsError "email" (PyStr "jane@example.com")))).
Proof.
  split; [reflexivity|].
  apply (failure_responses_hide_values 201 member_json
           (MemberAlreadyExistsError "email" (PyStr "john@example.com"))
           (MemberAlreadyExistsError "email" (PyStr "jane@example.com"))).
  reflexivity.
Defined.

(** X16.  A member deleted through the API is gone for the API.  On a
    session without uncommitted work and a store that answers, for a key
    that is in the table: [DELETE /members/{id}] answers 204 without
    content; after it, on every session over the table that the deletion
    left (the same session or that of a later request),
    [GET /members/{id}] and a second [DELETE /members/{id}] answer 404 with
    the fixed body of a member that is not found. *)
Theorem deleted_member_answers_404
  (from_orm : Member.t -> option MemberResponse.t)
  (s : Session) (i : Z) (m : Member.t)
  (Hclean : pending s = [])
  (Hstore : forall h c, raises s h c = None)
  (Hm : find_by_id i (rows s) = Some m) :
  delete_member_route i s = mkResponse 204 NoContent
  /\ forall s2,
       rows s2 = rows (snd (delete_member_endpoint i s)) ->
       pending s2 = [] -> (forall h c, raises s2 h c = None) ->
       get_member from_orm i s2 = not_found_response
       /\ delete_member_route i s2 = not_found_response.
Proof.
  assert (Hrun : delete_member_endpoint i s
            = (Return tt,
               after s [CallGet i; CallDelete m; CallCommit]
                 (List.filter (fun r => negb (Member.has_id i r)) (rows s)))).
  { unfold delete_member_endpoint, endpoint_try, bind.
    now rewrite (delete_member_run s i Hclean Hstore), Hm. }
  unfold delete_member_route. rewrite Hrun. cbn [fst snd respond after rows].
  split; [reflexivity|]. intros s2 Hrows Hclean2 Hstore2. split.
  - unfold get_member, get_member_endpoint, endpoint_try, bind.
    rewrite get_member_by_id_run.
    now rewrite Hstore2, Hrows, find_filter_same.
  - unfold delete_member_endpoint, endpoint_try, bind.
    rewrite (delete_member_run s2 i Hclean2 Hstore2).
    now rewrite Hrows, find_filter_same.
Qed.

Lemma deleted_member_answers_404_witness :
  pending two_members = []
  /\ (forall h c, raises two_members h c = None)
  /\ find_by_id 1 (rows two_members) = Some john_row
  /\ delete_member_route 1 two_members = mkResponse 204 NoContent
  /\ get_member copy_attributes 1 (open_session [jane_row]) = not_found_response
  /\ delete_member_route 1 (open_session [jane_row]) = not_found_response.
Proof.
  split; [reflexivity|]. split; [reflexivity|]. split; [reflexivity|].
  destruct (deleted_member_answers_404 copy_attributes two_members 1 john_row
              eq_refl (fun _ _ => eq_refl) eq_refl) as [Hdel Hgone].
  split; [exact Hdel|].
  exact (Hgone (open_session [jane_row]) eq_refl eq_refl (fun _ _ => eq_refl)).
Defined.

Lemma serialize_all_length (from_orm : Member.t -> option MemberResponse.t)
  (members : list Member.t) (s s' : Session) (l : list MemberResponse.t) :
  serialize_all from_orm members s = (Ok l, s') ->
  List.length l = List.length members.
Proof.
  revert l s'. induction members as [|m rest IH]; intros l s';
    cbn [serialize_all].
  - now intros [= <- _].
  - unfold bind at 1. unfold serialize, lift.
    destruct (from_orm m); [|intros [=]].
    unfold bind.
    destruct (serialize_all from_orm rest s) as [[rs|e] s1] eqn:E;
      [|intros [=]].
    intros [= <- _]. cbn. f_equal. now apply (IH rs s1).
Qed.

(** X17.  [GET /members/] never lists more than 100 members for a limit
    that is not negative, whatever the store holds and does: when the
    response is a list, it has at most [limit] entries and at most 100. *)
Theorem list_members_bounded
  (from_orm : Member.t -> option MemberResponse.t)
  (s : Session) (skip limit : Z) (items : list (list (string * scalar))) :
  (0 <= limit)%Z ->
  content (get_members from_orm skip limit s) = JList items ->
  (Z.of_nat (List.length items) <= Z.min limit 100)%Z.
Proof.
  intros Hl. unfold get_members, list_members_endpoint, endpoint_try, bind.
  cbv zeta. rewrite get_all_members_run.
  destruct (raises s (log s) _) as [e|]; [discriminate|].
  cbv zeta. destruct (Z.min limit 100 <? 0)%Z eqn:E; [lia|].
  destruct (serialize_all from_orm _ _) as [[l|e] s'] eqn:Es.
  - cbn. intros [= <-]. rewrite length_map.
    rewrite (serialize_all_length _ _ _ _ _ Es), length_firstn. lia.
  - cbn. destruct (is_database_operation e); [destruct e|]; discriminate.
Qed.

Lemma list_members_bounded_witness :
  (0 <= 1)%Z
  /\ content (get_members copy_attributes 0 1 two_members)
     = JList [member_fields
                (MemberResponse.make "John Doe" "john@example.com"
                   (Some "+1-234-567-8901") 1)]
  /\ (Z.of_nat (List.length
                  [member_fields
                     (MemberResponse.make "John Doe" "john@example.com"
                        (Some "+1-234-567-8901") 1)])
      <= Z.min 1 100)%Z.
Proof.
  split; [lia|]. split; [reflexivity|].
  apply (list_members_bounded copy_attributes two_members 0 1); [lia|reflexivity].
Defined.

(* ================================================================== *)
(** * The seeding script *)
(* ================================================================== *)

Lemma find_app_found {A} (p : A -> bool) (l l' : list A) :
  find p l <> None -> find p (l ++ l') <> None.
Proof.
  induction l as [|x l IH]; cbn; [congruence|].
  now destruct (p x).
Qed.

Lemma taken_app (d : MemberCreate.t) (tbl ext : list Member.t) :
  taken d tbl -> taken d (tbl ++ ext).
Proof.
  intros (vn & ve & vp & Hv & H). exists vn, ve, vp. split; [exact Hv|].
  destruct H as [H|(p & -> & H)].
  - left. now apply find_app_found.
  - right. exists p. split; [reflexivity|]. now apply find_app_found.
Qed.

(** One round of the loop on a valid input. *)
Lemma create_member_step (s : Session) (d : MemberCreate.t) vn ve vp
  (Hclean : pending s = [])
  (Hstore : forall h c, raises s h c = None) :
  validate_member_data (PyStr (MemberCreate.name d))
    (PyStr (MemberCreate.email d)) (of_option (MemberCreate.phone d))
  = Ok (vn, ve, vp) ->
  exists r s',
    create_member d s = (r, s')
    /\ pending s' = [] /\ raises s' = raises s
    /\ (((find_by_email ve (rows s) <> None
          \/ exists p, vp = Some p /\ find_by_phone p (rows s) <> None)
         /\ (exists f v, r = Raise (MemberAlreadyExistsError f v))
         /\ rows s' = rows s)
        \/ (find_by_email ve (rows s) = None
            /\ exists m, r = Ok m /\ rows s' = (rows s ++ [m])%list
                         /\ Member.email m = ve)).
Proof.
  intros Hv.
  rewrite (create_member_run s d Hclean (fault_free_only_commit s Hstore)), Hv.
  destruct (find_by_email ve (rows s)) as [m0|] eqn:Ee.
  { eexists _, _. split; [reflexivity|]. cbn. split; [reflexivity|].
    split; [reflexivity|]. left. split; [left; congruence|]. eauto. }
  destruct (match vp with Some p => find_by_phone p (rows s) | None => None end)
    as [m0|] eqn:Ep.
  { eexists _, _. split; [reflexivity|]. cbn. split; [reflexivity|].
    split; [reflexivity|]. left. split; [|eauto].
    right. destruct vp as [p|]; [|discriminate].
    exists p. split; [reflexivity|congruence]. }
  cbv zeta. rewrite Hstore.
  eexists _, _. split; [reflexivity|]. cbn. split; [reflexivity|].
  split; [reflexivity|]. right. split; [reflexivity|]. eauto.
Qed.

Lemma create_samples_first (l : list MemberCreate.t) :
  forall (c k : nat) (s : Session),
    pending s = [] -> (forall h c0, raises s h c0 = None) ->
    Forall (fun d => exists v,
              validate_member_data (PyStr (MemberCreate.name d))
                (PyStr (MemberCreate.email d)) (of_option (MemberCreate.phone d))
              = Ok v) l ->
    exists c' k' s' ext,
      create_samples l c k s = ((c', k'), s')
      /\ pending s' = [] /\ raises s' = raises s
      /\ rows s' = (rows s ++ ext)%list
      /\ c' = c + List.length ext
      /\ c' + k' = c + k + List.length l
      /\ Forall (fun d => taken d (rows s')) l.
Proof.
  induction l as [|d rest IH]; intros c k s Hclean Hstore Hvalid.
  - exists c, k, s, []. cbn. rewrite app_nil_r.
    repeat split; auto; lia.
  - inversion Hvalid as [|? ? [[[vn ve] vp] Hv] Hrest]; subst.
    destruct (create_member_step s d vn ve vp Hclean Hstore Hv)
      as (r & s1 & Hrun & Hp1 & Hs1 & Hcase).
    assert (Hstore1 : forall h c0, raises s1 h c0 = None)
      by (intros; now rewrite Hs1).
    cbn [create_samples]. rewrite Hrun.
    destruct Hcase as [(Htaken & (f & v & ->) & Hr1)|(He & m & -> & Hr1 & Hm)].
    + destruct (IH c (k + 1) s1 Hp1 Hstore1 Hrest)
        as (c' & k' & s' & ext & -> & Hp' & Hs' & Hr' & Hc' & Hk' & Ht').
      exists c', k', s', ext. rewrite Hr1 in Hr'.
      split; [reflexivity|]. split; [exact Hp'|].
      split; [congruence|]. split; [exact Hr'|]. split; [exact Hc'|].
      split; [cbn; lia|]. constructor; [|exact Ht'].
      rewrite Hr'. apply taken_app. now exists vn, ve, vp.
    + destruct (IH (c + 1) k s1 Hp1 Hstore1 Hrest)
        as (c' & k' & s' & ext & -> & Hp' & Hs' & Hr' & Hc' & Hk' & Ht').
      exists c', k', s', (m :: ext). rewrite Hr1, <- app_assoc in Hr'.
      split; [reflexivity|]. split; [exact Hp'|].
      split; [congruence|]. split; [exact Hr'|].
      split; [cbn; lia|]. split; [cbn; lia|].
      constructor; [|exact Ht'].
      rewrite Hr'. rewrite (app_assoc (rows s) [m] ext). apply taken_app.
      exists vn, ve, vp. split; [exact Hv|]. left.
      unfold find_by_email. rewrite find_app_new; [discriminate| |].
      * now apply find_None_existsb.
      * unfold Member.has_email. rewrite Hm. apply String.eqb_refl.
Qed.

Lemma create_samples_again (l : list MemberCreate.t) :
  forall (c k : nat) (s : Session),
    pending s = [] -> (forall h c0, raises s h c0 = None) ->
    Forall (fun d => taken d (rows s)) l ->
    exists s',
      create_samples l c k s = ((c, k + List.length l), s')
      /\ rows s' = rows s.
Proof.
  induction l as [|d rest IH]; intros c k s Hclean Hstore Htaken.
  - exists s. cbn. split; [|reflexivity]. do 2 f_equal. lia.
  - inversion Htaken as [|? ? (vn & ve & vp & Hv & Hd) Hrest]; subst.
    destruct (create_member_step s d vn ve vp Hclean Hstore Hv)
      as (r & s1 & Hrun & Hp1 & Hs1 & Hcase).
    assert (Hstore1 : forall h c0, raises s1 h c0 = None)
      by (intros; now rewrite Hs1).
    cbn [create_samples]. rewrite Hrun.
    destruct Hcase as [(_ & (f & v & ->) & Hr1)|(He & m & -> & Hr1 & Hm)].
    + rewrite <- Hr1 in Hrest.
      destruct (IH c (k + 1) s1 Hp1 Hstore1 Hrest) as (s' & -> & Hr').
      exists s'. split; [|congruence]. do 2 f_equal. cbn. lia.
    + exfalso. destruct Hd as [Hd|(p & -> & Hd)]; [congruence|].
      rewrite (create_member_run s d Hclean (fault_free_only_commit s Hstore)),
        Hv, He in Hrun.
      destruct (find_by_phone p (rows s)); [discriminate|congruence].
Qed.

Lemma sample_members_valid :
  Forall (fun d => exists v,
            validate_member_data (PyStr (MemberCreate.name d))
              (PyStr (MemberCreate.email d)) (of_option (MemberCreate.phone d))
            = Ok v) SAMPLE_MEMBERS.
Proof.
  unfold SAMPLE_MEMBERS.
  repeat (apply Forall_cons; [eexists; vm_compute; reflexivity|]).
  apply Forall_nil.
Qed.

(** X18.  Seeding is idempotent.  On a session without uncommitted work and
    a store that answers, whatever the table holds: [create_sample_members]
    creates or skips each of the ten sample members and reports no error,
    and the table grows by the members it created; run again, it creates
    nothing, skips all ten and leaves the table as it is. *)
Theorem seeding_twice_changes_nothing (s : Session)
  (Hclean : pending s = [])
  (Hstore : forall h c, raises s h c = None) :
  exists created skipped s1 new_rows s2,
    create_sample_members s = ((created, skipped), s1)
    /\ created + skipped = 10
    /\ rows s1 = (rows s ++ new_rows)%list
    /\ List.length new_rows = created
    /\ create_sample_members s1 = ((0, 10), s2)
    /\ rows s2 = rows s1.
Proof.
  destruct (create_samples_first SAMPLE_MEMBERS 0 0 s Hclean Hstore
              sample_members_valid)
    as (c' & k' & s1 & ext & Hrun & Hp1 & Hs1 & Hr1 & Hc1 & Hk1 & Ht1).
  assert (Hstore1 : forall h c0, raises s1 h c0 = None)
    by (intros; now rewrite Hs1).
  destruct (create_samples_again SAMPLE_MEMBERS 0 0 s1 Hp1 Hstore1 Ht1)
    as (s2 & Hrun2 & Hr2).
  exists c', k', s1, ext, s2. unfold create_sample_members.
  split; [exact Hrun|]. split; [exact Hk1|]. split; [exact Hr1|].
  split; [now rewrite Hc1|]. split; [exact Hrun2|exact Hr2].
Qed.

Lemma seeding_twice_changes_nothing_witness :
  pending (open_session []) = []
  /\ (forall h c, raises (open_session []) h c = None)
  /\ exists created skipped s1 new_rows s2,
       create_sample_members (open_session []) = ((created, skipped), s1)
       /\ created + skipped = 10
       /\ rows s1 = (rows (open_session []) ++ new_rows)%list
       /\ List.length new_rows = created
       /\ create_sample_members s1 = ((0, 10), s2)
       /\ rows s2 = rows s1.
Proof.
  split; [reflexivity|]. split; [reflexivity|].
  exact (seeding_twice_changes_nothing (open_session []) eq_refl
           (fun _ _ => eq_refl)).
Defined.

(** ** Clearing the table *)

Lemma keyed_tail (m : Member.t) (tbl : list Member.t) :
  keyed (m :: tbl) -> keyed tbl.
Proof.
  intros [Hk Hn]. inversion Hk; subst. inversion Hn; subst. now split.
Qed.

(** In a keyed table, the rows with the key of the first row are that row
    only. *)
Lemma filter_first_key (m : Member.t) (tbl : list Member.t) (k : Z) :
  keyed (m :: tbl) -> Member.id m = Some k ->
  List.filter (fun r => negb (Member.has_id k r)) (m :: tbl) = tbl.
Proof.
  intros [_ Hn] Hm. cbn [List.filter].
  rewrite (has_id_intro k m Hm). cbn [negb].
  inversion Hn as [|? ? Hnotin _]; subst. cbn [map] in Hnotin.
  clear Hn. induction tbl as [|r tbl IH]; [reflexivity|].
  cbn [List.filter].
  destruct (Member.has_id k r) eqn:E.
  - exfalso. apply Hnotin. left. rewrite Hm. now apply has_id_inv.
  - cbn [negb]. f_equal. apply IH. intros H. apply Hnotin. now right.
Qed.

Lemma delete_members_run (members : list Member.t) :
  forall (tail : list Member.t) (count : nat) (s : Session),
    pending s = [] -> (forall h c, raises s h c = None) ->
    rows s = (members ++ tail)%list -> keyed (members ++ tail) ->
    exists s',
      delete_members members count s = (Ok (count + List.length members), s')
      /\ rows s' = tail /\ pending s' = [] /\ raises s' = raises s.
Proof.
  induction members as [|m rest IH]; intros tail count s Hclean Hstore Hrows Hk.
  - exists s. cbn. rewrite Nat.add_0_r. auto.
  - cbn [delete_members].
    destruct (Member.id m) as [k|] eqn:Em.
    2:{ destruct Hk as [Hk _]. inversion Hk; subst. congruence. }
    unfold bind at 1. rewrite (delete_member_run s k Hclean Hstore).
    assert (Hfind : find_by_id k (rows s) = Some m).
    { rewrite Hrows. unfold find_by_id. cbn [app find].
      now rewrite (has_id_intro k m Em). }
    rewrite Hfind, Hrows.
    change ((m :: rest) ++ tail)%list with (m :: (rest ++ tail))%list.
    rewrite (filter_first_key m (rest ++ tail) k Hk Em).
    destruct (IH tail (count + 1)
                (after s [CallGet k; CallDelete m; CallCommit] (rest ++ tail)%list))
      as (s' & Hrun & Hr & Hp & Hs);
      [reflexivity|exact Hstore|reflexivity|exact (keyed_tail _ _ Hk)|].
    exists s'. rewrite Hrun. split; [|auto].
    do 2 f_equal. cbn [List.length]. lia.
Qed.

(** X19.  [clear_all_members] clears the first hundred members only.  On a
    session without uncommitted work and a store that answers, for a table
    whose rows have keys of their own: the script reports as many deleted
    members as the table has, up to 100, and leaves the rows after the
    hundredth in the table; a table of at most 100 rows is left empty. *)
Theorem clear_all_members_first_hundred (s : Session)
  (Hclean : pending s = [])
  (Hstore : forall h c, raises s h c = None)
  (Hkeyed : keyed (rows s)) :
  exists s',
    clear_all_members s = (Some (Nat.min 100 (List.length (rows s))), s')
    /\ rows s' = skipn 100 (rows s)
    /\ (List.length (rows s) <= 100 -> rows s' = []).
Proof.
  unfold clear_all_members, bind. rewrite get_all_members_run, Hstore.
  cbv zeta. change (100 <? 0)%Z with false. cbv iota.
  change (Z.to_nat 0) with 0. change (Z.to_nat 100) with 100.
  rewrite skipn_O.
  destruct (delete_members_run (firstn 100 (rows s)) (skipn 100 (rows s)) 0
              (logged (CallExecAll 0 100) s))
    as (s' & Hrun & Hr & _);
    [exact Hclean|exact Hstore|cbn [logged rows]; now rewrite firstn_skipn
    |now rewrite firstn_skipn|].
  rewrite Hrun. exists s'. rewrite length_firstn. cbn [Nat.add].
  split; [reflexivity|]. split; [exact Hr|].
  intros Hl. rewrite Hr. now apply skipn_all2.
Qed.

Lemma clear_all_members_first_hundred_witness :
  pending two_members = []
  /\ (forall h c, raises two_members h c = None)
  /\ keyed (rows two_members)
  /\ exists s',
       clear_all_members two_members
       = (Some (Nat.min 100 (List.length (rows two_members))), s')
       /\ rows s' = skipn 100 (rows two_members)
       /\ (List.length (rows two_members) <= 100 -> rows s' = []).
Proof.
  assert (Hk : keyed (rows two_members)).
  { split.
    - repeat constructor; discriminate.
    - repeat constructor; cbn; intuition discriminate. }
  split; [reflexivity|]. split; [reflexivity|]. split; [exact Hk|].
  exact (clear_all_members_first_hundred two_members eq_refl
           (fun _ _ => eq_refl) Hk).
Defined.
